(** * Google CSE search-and-extract pipeline: a shallow embedding

    The development follows the Python sources of [scripts/google_extractor]:

    - [config.py]      : constants and the two secrets read from the environment;
    - [google_cse.py]  : [search_google_cse], [process_search_results];
    - [data_handler.py]: [save_jsonl_record];
    - [main.py]        : [parse_arguments], [batch_generator],
                         [_process_single_query], [run_process].

    Python integers are [Z], the [--delay] float is a binary64 [float], strings
    are [string], dictionaries with a fixed set of keys are records whose
    optional keys are [option] fields, and Python lists are [list]s extended
    with [++ [x]] where the source calls [append].

    Everything outside the process (the HTTP calls, trafilatura, the dataset
    loader, the file system, the clock) is an operation of the class
    [Externals] over an abstract [World]; an operation may answer differently
    each time it is called, and one that can fail says so in its answer
    ([open], the writes, [time.sleep] on a delay too large for the clock).
    Every such call is recorded in a trace of
    [Event]s, so that "which pages were fetched", "how often did the run sleep"
    and "which files were opened" are statements about the trace.

    Exceptions are values of [exn]; code runs in a state-and-exception monad
    [M] in which a raised exception keeps the state reached so far (Python
    locals mutated before a [raise] stay mutated).  Calls to [logging] are not
    modelled: they have no effect on control flow, except where their
    arguments are evaluated eagerly (the division in the last log line of a
    batch), which is modelled. *)

From Stdlib Require Import ZArith List String Ascii Bool Lia PrimFloat DecimalString Sorted.
From Stdlib Require Import DecimalPos DecimalZ.
Import ListNotations.

Open Scope string_scope.
Open Scope list_scope.
Open Scope Z_scope.

(** ** Exceptions, results, and the monad *)

Inductive exn : Type :=
| RequestException   (* requests.exceptions.RequestException (not Timeout) *)
| ZeroDivisionError
| ValueError
| IOError            (* alias of OSError *)
| OverflowError.     (* [time.sleep] on a delay too large for the clock *)

Inductive result (A : Type) : Type :=
| Ok (a : A)
| Raise (e : exn).
Arguments Ok {A} a.
Arguments Raise {A} e.

Definition M (S A : Type) : Type := S -> result A * S.

Definition ret {S A : Type} (a : A) : M S A := fun s => (Ok a, s).

Definition bind {S A B : Type} (m : M S A) (k : A -> M S B) : M S B :=
  fun s => match m s with
           | (Ok a, s') => k a s'
           | (Raise e, s') => (Raise e, s')
           end.

Definition raise {S A : Type} (e : exn) : M S A := fun s => (Raise e, s).

(** [try: m  except <caught>: handler] *)
Definition try_except {S A : Type} (m : M S A) (caught : exn -> bool)
  (handler : exn -> M S A) : M S A :=
  fun s => match m s with
           | (Ok a, s') => (Ok a, s')
           | (Raise e, s') => if caught e then handler e s' else (Raise e, s')
           end.

Definition get {S : Type} : M S S := fun s => (Ok s, s).
Definition modify {S : Type} (f : S -> S) : M S unit := fun s => (Ok tt, f s).

Declare Scope monad_scope.
Delimit Scope monad_scope with monad.
Notation "x <- m ;; k" := (bind m (fun x => k))
  (at level 61, m at next level, right associativity) : monad_scope.
Notation "m ;;; k" := (bind m (fun _ => k))
  (at level 61, right associativity) : monad_scope.
Open Scope monad_scope.

(** [for x in l: st = body(x, st)], with no [break]. *)
Fixpoint for_each {S A St : Type} (body : A -> St -> M S St) (l : list A) (st : St)
  : M S St :=
  match l with
  | [] => ret st
  | x :: xs => st' <- body x st ;; for_each body xs st'
  end.

(** [enumerate(l)], generalised to a start index. *)
Fixpoint enumerate_from {A : Type} (i : Z) (l : list A) : list (Z * A) :=
  match l with
  | [] => []
  | x :: xs => (i, x) :: enumerate_from (i + 1) xs
  end.

Definition enumerate {A : Type} (l : list A) : list (Z * A) := enumerate_from 0 l.

(** [range(n)]: empty when [n <= 0]. *)
Definition range (n : Z) : list Z := map Z.of_nat (seq 0 (Z.to_nat n)).

(** Truthiness of a Python [str] and of an optional one ([None] is falsy). *)
Definition truthy (s : string) : bool :=
  match s with
  | EmptyString => false
  | String _ _ => true
  end.

Definition truthy_opt (o : option string) : bool :=
  match o with
  | None => false
  | Some s => truthy s
  end.

Definition is_RequestException (e : exn) : bool :=
  match e with RequestException => true | _ => false end.

Definition is_Exception (e : exn) : bool := true.

(** ** config.py *)

Module config.

Definition GOOGLE_API_URL : string := "https://www.googleapis.com/customsearch/v1".
Definition DEFAULT_CSE_NUM_RESULTS : Z := 10.
Definition DEFAULT_REQUEST_DELAY : float := 1%float.
Definition CSE_API_TIMEOUT : Z := 15.
Definition DEFAULT_EXTRACTION_TIMEOUT : Z := 15.

(* Folder Base Naming Defaults *)
Definition DEFAULT_EXTRACTED_OUTPUT_BASE : string := "results/raw_search".
Definition DEFAULT_SEARCH_OUTPUT_BASE : string := "results/extracted_text".

(** The module-level [API_KEY] and [CSE_ID], as [os.getenv] left them. *)
Record Secrets : Type := {
  API_KEY : option string;
  CSE_ID : option string
}.

Definition validate_config (c : Secrets) : result unit :=
  if negb (truthy_opt (API_KEY c)) then Raise ValueError
  else if negb (truthy_opt (CSE_ID c)) then Raise ValueError
  else Ok tt.

End config.

(** ** Data model *)

(** One element of the provider's ['items'] array; any key may be missing. *)
Record Item : Type := {
  item_title : option string;
  item_link : option string;
  item_snippet : option string
}.

(** The decoded JSON body of a CSE response: whether it has an ['error'] key,
    and its ['items'] key when present. *)
Record ResultsJson : Type := {
  json_has_error : bool;
  json_items : option (list Item)
}.

(** What [requests.get(...)], [raise_for_status()] and [response.json()] can
    do, by the [except] clause of [search_google_cse] that handles it. *)
Inductive HttpOutcome : Type :=
| HttpTimeout
| HttpRequestException
| HttpJSONDecodeError
| HttpJson (results : ResultsJson).

(** The dictionaries built by [process_search_results]. *)
Record SearchItem : Type := {
  title : string;
  link : string;
  snippet : string
}.

(** [search_item.copy()] after the three annotations were stored in it. *)
Record RawRecord : Type := {
  raw_title : string;
  raw_link : string;
  raw_snippet : string;
  raw_query : string;
  raw_search_page : Z;
  raw_approx_rank : Z
}.

(** [final_record] *)
Record ExtractedRecord : Type := {
  ext_query : string;
  ext_search_page : Z;
  ext_approx_rank : Z;
  ext_url : string;
  ext_title : string;
  extracted_text : option string
}.

Inductive JsonlRecord : Type :=
| JRaw (r : RawRecord)
| JExtracted (r : ExtractedRecord).

(** ** The outside world *)

Inductive Event : Type :=
| EvCseRequest (query : string) (num_results start_index : Z) (siteSearch : option string)
| EvExtract (url : string) (timeout : Z)
| EvSleep (seconds : float)
| EvReadQueries (column : string)
| EvMakedirs (path : string)
| EvOpen (path : string)
| EvWrite (path : string) (record : JsonlRecord)
| EvClose (path : string).

Class Externals (World : Type) : Type := {
  (** the HTTP exchange of [search_google_cse] with [GOOGLE_API_URL] *)
  requests_get_cse : string -> Z -> Z -> option string -> World -> HttpOutcome * World;
  (** [text_extractor.extract_main_text_requests]: every path of its body
      returns a string or [None]; its handlers end in [except Exception]. *)
  extract_main_text_requests : string -> Z -> World -> option string * World;
  (** [data_handler.read_queries_from_vifactcheck] *)
  read_queries_from_vifactcheck : string -> World -> option (list string) * World;
  (** [os.makedirs(path, exist_ok=True)]: [false] is an [OSError] *)
  os_makedirs : string -> World -> bool * World;
  (** [open(path, 'w', encoding='utf-8')]: [false] is an [IOError] *)
  open_w : string -> World -> bool * World;
  (** [json.dumps(record)] followed by [outfile.write]: [false] is any exception *)
  dump_and_write : string -> JsonlRecord -> World -> bool * World;
  (** leaving the [with] block: [false] is an [IOError] while closing *)
  close_file : string -> World -> bool * World;
  (** [time.sleep]: [false] is an [OverflowError], which a delay too large
      for the platform's clock raises ([--delay inf] is accepted by argparse) *)
  time_sleep : float -> World -> bool * World
}.

Record IO (World : Type) : Type := {
  world : World;
  trace : list Event
}.
Arguments world {World} _.
Arguments trace {World} _.

(** An external call: it is appended to the trace and answered by the world. *)
Definition call {World A : Type} (ev : Event) (f : World -> A * World) : M (IO World) A :=
  fun s => let (a, w) := f (world s) in
           (Ok a, {| world := w; trace := trace s ++ [ev] |}).

(** ** google_cse.py *)

Section google_cse.
Context {World : Type} {E : Externals World}.

Definition search_google_cse (query : string) (api_key cse_id : option string)
  (num_results start_index : Z) (siteSearch : option string)
  : M (IO World) (option ResultsJson) :=
  if negb (truthy_opt api_key) || negb (truthy_opt cse_id) then ret None
  else
    o <- call (EvCseRequest query num_results start_index siteSearch)
              (requests_get_cse query num_results start_index siteSearch) ;;
    match o with
    | HttpJson results =>
        if json_has_error results then ret None else ret (Some results)
    | HttpTimeout => ret None
    | HttpRequestException => raise RequestException
    | HttpJSONDecodeError => ret None
    end.

End google_cse.

(** [s.startswith(p)] *)
Definition startswith (s p : string) : bool := String.prefix p s.

(** [d.get(key, default)] on an optional key. *)
Definition get_default (o : option string) (default : string) : string :=
  match o with
  | Some v => v
  | None => default
  end.

(** The test of [process_search_results] on one item's link:
    [link and link.startswith(('http://', 'https://'))]. *)
Definition link_accepted (l : string) : bool :=
  truthy l && (startswith l "http://" || startswith l "https://").

Definition process_item (processed : list SearchItem) (item : Item) : list SearchItem :=
  match item_link item with
  | Some l =>
      if link_accepted l
      then processed ++ [ {| title := get_default (item_title item) "N/A";
                              link := l;
                              snippet := get_default (item_snippet item) "N/A" |} ]
      else processed
  | None => processed
  end.

Definition process_search_results (results_json : option ResultsJson) : list SearchItem :=
  match results_json with
  | None => []
  | Some r =>
      match json_items r with
      | None => []
      | Some items => fold_left process_item items []
      end
  end.

(** ** main.py: arguments *)

(** The [argparse.Namespace] returned by [parse_arguments]. *)
Record Namespace : Type := {
  query_column : string;
  pages : Z;
  num_results : Z;
  delay : float;
  timeout : Z;
  site_search : option string;
  batch_size : Z;
  search_output_base : string;
  extracted_output_base : string
}.

(** The command line: [--query-column] is required, every other option may be
    absent. *)
Record CommandLine : Type := {
  cli_query_column : string;
  cli_pages : option Z;
  cli_num_results : option Z;
  cli_delay : option float;
  cli_timeout : option Z;
  cli_site_search : option string;
  cli_batch_size : option Z;
  cli_search_output_base : option string;
  cli_extracted_output_base : option string
}.

Definition with_default {A : Type} (given : option A) (default : A) : A :=
  match given with
  | Some v => v
  | None => default
  end.

Definition parse_arguments (argv : CommandLine) : Namespace :=
  let n := with_default (cli_num_results argv) config.DEFAULT_CSE_NUM_RESULTS in
  let b := with_default (cli_batch_size argv) 10 in
  {| query_column := cli_query_column argv;
     pages := with_default (cli_pages argv) 1;
     (* if not 1 <= args.num_results <= 10: args.num_results = 10 *)
     num_results := if negb ((1 <=? n) && (n <=? 10)) then 10 else n;
     delay := with_default (cli_delay argv) config.DEFAULT_REQUEST_DELAY;
     timeout := with_default (cli_timeout argv) config.DEFAULT_EXTRACTION_TIMEOUT;
     site_search := cli_site_search argv;
     (* if args.batch_size <= 0: args.batch_size = 1 *)
     batch_size := if b <=? 0 then 1 else b;
     search_output_base :=
       with_default (cli_search_output_base argv) config.DEFAULT_SEARCH_OUTPUT_BASE;
     extracted_output_base :=
       with_default (cli_extracted_output_base argv) config.DEFAULT_EXTRACTED_OUTPUT_BASE |}.

(** ** main.py: [_process_single_query] *)

Record Counters : Type := {
  raw_saved : Z;
  urls_processed : Z;
  extractions_success : Z
}.

Definition zero_counters : Counters :=
  {| raw_saved := 0; urls_processed := 0; extractions_success := 0 |}.

(** The locals of [_process_single_query] that its loops update. *)
Record QueryLocals : Type := {
  counters : Counters;
  raw_results_for_query : list RawRecord;
  extracted_results_for_query : list ExtractedRecord;
  stop_fetching_pages : bool
}.

Definition initial_locals : QueryLocals :=
  {| counters := zero_counters;
     raw_results_for_query := [];
     extracted_results_for_query := [];
     stop_fetching_pages := false |}.

Definition set_stop (s : QueryLocals) : QueryLocals :=
  {| counters := counters s;
     raw_results_for_query := raw_results_for_query s;
     extracted_results_for_query := extracted_results_for_query s;
     stop_fetching_pages := true |}.

Definition with_counters (c : Counters) (s : QueryLocals) : QueryLocals :=
  {| counters := c;
     raw_results_for_query := raw_results_for_query s;
     extracted_results_for_query := extracted_results_for_query s;
     stop_fetching_pages := stop_fetching_pages s |}.

Definition append_raw (r : RawRecord) (s : QueryLocals) : QueryLocals :=
  {| counters := counters s;
     raw_results_for_query := raw_results_for_query s ++ [r];
     extracted_results_for_query := extracted_results_for_query s;
     stop_fetching_pages := stop_fetching_pages s |}.

Definition append_extracted (r : ExtractedRecord) (s : QueryLocals) : QueryLocals :=
  {| counters := counters s;
     raw_results_for_query := raw_results_for_query s;
     extracted_results_for_query := extracted_results_for_query s ++ [r];
     stop_fetching_pages := stop_fetching_pages s |}.

Definition incr_raw_saved (c : Counters) : Counters :=
  {| raw_saved := raw_saved c + 1;
     urls_processed := urls_processed c;
     extractions_success := extractions_success c |}.

Definition incr_urls_processed (c : Counters) : Counters :=
  {| raw_saved := raw_saved c;
     urls_processed := urls_processed c + 1;
     extractions_success := extractions_success c |}.

Definition incr_extractions_success (c : Counters) : Counters :=
  {| raw_saved := raw_saved c;
     urls_processed := urls_processed c;
     extractions_success := extractions_success c + 1 |}.

Definition make_raw (query : string) (page current_rank : Z) (search_item : SearchItem)
  : RawRecord :=
  {| raw_title := title search_item;
     raw_link := link search_item;
     raw_snippet := snippet search_item;
     raw_query := query;
     raw_search_page := page + 1;
     raw_approx_rank := current_rank |}.

Definition make_final (query : string) (page current_rank : Z) (search_item : SearchItem)
  (extracted_content : option string) : ExtractedRecord :=
  {| ext_query := query;
     ext_search_page := page + 1;
     ext_approx_rank := current_rank;
     ext_url := link search_item;
     ext_title := title search_item;
     extracted_text := extracted_content |}.

(** [{'siteSearch': args.site_search} if args.site_search else {}] *)
Definition api_kwargs_of (args : Namespace) : option string :=
  if truthy_opt (site_search args) then site_search args else None.

Section process_single_query.
Context {World : Type} {E : Externals World}.
Variable secrets : config.Secrets.

(** The body of [for result_index, search_item in enumerate(search_results_list)]. *)
Definition item_body (query : string) (args : Namespace) (page start_index : Z)
  (entry : Z * SearchItem) (s : QueryLocals) : M (IO World) QueryLocals :=
  let '(result_index, search_item) := entry in
  let current_rank := start_index + result_index in
  (* 1. Prepare Raw Result *)
  let s := append_raw (make_raw query page current_rank search_item) s in
  let s := with_counters (incr_raw_saved (counters s)) s in
  (* 2. Extract Text *)
  let target_url := link search_item in
  r <- (if negb (truthy target_url)
        then ret (None, s)
        else
          let s := with_counters (incr_urls_processed (counters s)) s in
          extracted_content <-
            call (EvExtract target_url (timeout args))
                 (extract_main_text_requests target_url (timeout args)) ;;
          match extracted_content with
          | Some _ =>
              ret (extracted_content,
                   with_counters (incr_extractions_success (counters s)) s)
          | None => ret (None, s)
          end) ;;
  (* 3. Prepare Extracted Result *)
  let '(extracted_content, s) := r in
  ret (append_extracted (make_final query page current_rank search_item extracted_content) s).

(** The body of [for page in range(args.pages)] after the [break] test. *)
Definition page_body (query : string) (args : Namespace) (page : Z) (s : QueryLocals)
  : M (IO World) QueryLocals :=
  let start_index := page * num_results args + 1 in
  let api_kwargs := api_kwargs_of args in
  fetched <-
    try_except
      (results_json <-
         search_google_cse query (config.API_KEY secrets) (config.CSE_ID secrets)
           (num_results args) start_index api_kwargs ;;
       ret (Some results_json))
      is_RequestException
      (fun _ => ret None) ;;
  match fetched with
  | None => ret (set_stop s)               (* except RequestException: stop; continue *)
  | Some None => ret (set_stop s)          (* results_json is None: stop; continue *)
  | Some (Some results_json) =>
      let search_results_list := process_search_results (Some results_json) in
      match search_results_list with
      | _ :: _ =>
          s <- for_each (item_body query args page start_index)
                 (enumerate search_results_list) s ;;
          if Z.of_nat (List.length search_results_list) <? num_results args
          then ret (set_stop s)
          else ret s
      | [] => ret (set_stop s)
      end
  end.

(** [for page in range(args.pages): if stop_fetching_pages: break; ...] *)
Fixpoint for_pages (query : string) (args : Namespace) (page_list : list Z)
  (s : QueryLocals) : M (IO World) QueryLocals :=
  match page_list with
  | [] => ret s
  | page :: rest =>
      if stop_fetching_pages s then ret s
      else s' <- page_body query args page s ;; for_pages query args rest s'
  end.

Definition _process_single_query (query : string) (args : Namespace)
  : M (IO World) (Counters * list RawRecord * list ExtractedRecord) :=
  s <- for_pages query args (range (pages args)) initial_locals ;;
  ret (counters s, raw_results_for_query s, extracted_results_for_query s).

End process_single_query.

(** ** Paths: [os.path] (POSIX flavour) and f-strings *)

Definition is_sep (c : ascii) : bool := Ascii.eqb c "/"%char.

Fixpoint all_seps (s : string) : bool :=
  match s with
  | EmptyString => true
  | String c rest => is_sep c && all_seps rest
  end.

(** [s.rstrip('/')] *)
Fixpoint rstrip_sep (s : string) : string :=
  match s with
  | EmptyString => EmptyString
  | String c rest => if all_seps s then EmptyString else String c (rstrip_sep rest)
  end.

(** [(p[:i], p[i:])] for [i = p.rfind('/') + 1] *)
Fixpoint split_at_last_sep (p : string) : string * string :=
  match p with
  | EmptyString => (EmptyString, EmptyString)
  | String c rest =>
      let (head, tail) := split_at_last_sep rest in
      match head with
      | EmptyString =>
          if is_sep c then (String c EmptyString, tail) else (EmptyString, String c tail)
      | String _ _ => (String c head, tail)
      end
  end.

Definition dirname (p : string) : string :=
  let head := fst (split_at_last_sep p) in
  if truthy head && negb (all_seps head) then rstrip_sep head else head.

Definition basename (p : string) : string := snd (split_at_last_sep p).

Fixpoint endswith_sep (s : string) : bool :=
  match s with
  | EmptyString => false
  | String c EmptyString => is_sep c
  | String _ rest => endswith_sep rest
  end.

(** [os.path.join(a, b)] *)
Definition path_join (a b : string) : string :=
  if startswith b "/" then b
  else if negb (truthy a) || endswith_sep a then (a ++ b)%string
  else (a ++ "/" ++ b)%string.

(** [str(n)] *)
Definition str (n : Z) : string := NilZero.string_of_int (Z.to_int n).

(** [os.path.dirname(base) or '.'] *)
Definition output_dir (base_path : string) : string :=
  let d := dirname base_path in
  if truthy d then d else ".".

(** [os.path.join(output_dir, f"{base_name}_batches")] *)
Definition batch_dir (base_path : string) : string :=
  path_join (output_dir base_path) (basename base_path ++ "_batches")%string.

(** [os.path.join(batch_dir, f"{base_name}_{batch_index + 1}.jsonl")] *)
Definition batch_filename (base_path : string) (batch_index : Z) : string :=
  path_join (batch_dir base_path)
    (basename base_path ++ "_" ++ str (batch_index + 1) ++ ".jsonl")%string.

(** ** main.py: [batch_generator] *)

(** [range(0, stop, step)] for [stop >= 0]; a zero step is a [ValueError]. *)
Definition range_step (stop step : Z) : result (list Z) :=
  if step =? 0 then Raise ValueError
  else if step <? 0 then Ok []
  else Ok (map (fun j => Z.of_nat j * step) (seq 0 (Z.to_nat ((stop + step - 1) / step)))).

(** [data[i:j]] for [0 <= i <= j] *)
Definition slice {A : Type} (data : list A) (i j : Z) : list A :=
  firstn (Z.to_nat (j - i)) (skipn (Z.to_nat i) data).

Definition batch_generator {A : Type} (data : list A) (batch_size : Z)
  : result (list (list A)) :=
  match range_step (Z.of_nat (List.length data)) batch_size with
  | Raise e => Raise e
  | Ok starts => Ok (map (fun i => slice data i (i + batch_size)) starts)
  end.

(** ** main.py: [run_process] *)

(** The locals of [run_process] that outlive its [try] block. *)
Record RunLocals : Type := {
  total_counters : Counters;
  lines_written_raw : Z;          (* actual_lines_written["raw"] *)
  lines_written_extracted : Z;    (* actual_lines_written["extracted"] *)
  global_query_index : Z
}.

Definition initial_run_locals : RunLocals :=
  {| total_counters := zero_counters;
     lines_written_raw := 0;
     lines_written_extracted := 0;
     global_query_index := 0 |}.

Record Run (World : Type) : Type := {
  io : IO World;
  locals : RunLocals
}.
Arguments io {World} _.
Arguments locals {World} _.

Definition lift_io {World A : Type} (m : M (IO World) A) : M (Run World) A :=
  fun r => let (a, i) := m (io r) in (a, {| io := i; locals := locals r |}).

Definition update_locals {World : Type} (f : RunLocals -> RunLocals) : M (Run World) unit :=
  modify (fun r => {| io := io r; locals := f (locals r) |}).

Definition add_counters (a b : Counters) : Counters :=
  {| raw_saved := raw_saved a + raw_saved b;
     urls_processed := urls_processed a + urls_processed b;
     extractions_success := extractions_success a + extractions_success b |}.

Definition aggregate (query_counters : Counters) (l : RunLocals) : RunLocals :=
  {| total_counters := add_counters (total_counters l) query_counters;
     lines_written_raw := lines_written_raw l;
     lines_written_extracted := lines_written_extracted l;
     global_query_index := global_query_index l |}.

Definition next_query (l : RunLocals) : RunLocals :=
  {| total_counters := total_counters l;
     lines_written_raw := lines_written_raw l;
     lines_written_extracted := lines_written_extracted l;
     global_query_index := global_query_index l + 1 |}.

Definition add_lines_raw (n : Z) (l : RunLocals) : RunLocals :=
  {| total_counters := total_counters l;
     lines_written_raw := lines_written_raw l + n;
     lines_written_extracted := lines_written_extracted l;
     global_query_index := global_query_index l |}.

Definition add_lines_extracted (n : Z) (l : RunLocals) : RunLocals :=
  {| total_counters := total_counters l;
     lines_written_raw := lines_written_raw l;
     lines_written_extracted := lines_written_extracted l + n;
     global_query_index := global_query_index l |}.

(** What the final summary prints, and the exception logged by the top-level
    handler when the batch loop was cut short. *)
Record Summary : Type := {
  processed_queries : Z;
  total_queries : Z;
  summary_counters : Counters;
  written_raw : Z;
  written_extracted : Z;
  raw_batches_in : string;
  extracted_batches_in : string;
  fatal_error : option exn
}.

(** [a / b] on two [int]s.  The quotient only feeds a log line, but it is
    computed before [logging.info] is called. *)
Definition truediv {S : Type} (a b : Z) : M S unit :=
  if b =? 0 then raise ZeroDivisionError else ret tt.

(** The arguments of the [logging.info] that ends a batch iteration:
    [raw_saved_count/len(current_batch_raw_results)] and
    [extracted_saved_count/len(current_batch_extracted_results)]. *)
Definition log_saved_ratios {S : Type} (raw_saved_count extracted_saved_count : Z)
  (raws : list RawRecord) (exts : list ExtractedRecord) : M S unit :=
  truediv raw_saved_count (Z.of_nat (List.length raws)) ;;;
  truediv extracted_saved_count (Z.of_nat (List.length exts)).

Section run_process.
Context {World : Type} {E : Externals World}.
Variable secrets : config.Secrets.

(** [data_handler.save_jsonl_record]: [True] when the line was serialised and
    written, [False] when anything was raised. *)
Definition save_jsonl_record (path : string) (record : JsonlRecord) : M (IO World) bool :=
  call (EvWrite path record) (dump_and_write path record).

(** [for record in records: if save_jsonl_record(f, record): saved_count += 1] *)
Definition write_records (path : string) (records : list JsonlRecord) : M (IO World) Z :=
  for_each
    (fun record saved_count =>
       written <- save_jsonl_record path record ;;
       ret (if written : bool then saved_count + 1 else saved_count))
    records 0.

(** One of the two [try: with open(...) ... except IOError] blocks of a batch.
    The value is the block's [*_saved_count] as the code after it reads it:
    [0] when [open] raised, the number of lines written otherwise, also when
    closing the file raised (the counter is then not added to
    [actual_lines_written]). *)
Definition flush (path : string) (records : list JsonlRecord)
  (add_lines : Z -> RunLocals -> RunLocals) : M (Run World) Z :=
  opened <- lift_io (call (EvOpen path) (open_w path)) ;;
  if opened : bool then
    saved_count <- lift_io (write_records path records) ;;
    closed <- lift_io (call (EvClose path) (close_file path)) ;;
    if closed : bool then update_locals (add_lines saved_count) ;;; ret saved_count
    else ret saved_count
  else ret 0.

(** The body of [for query_in_batch_index, current_query in enumerate(query_batch)]. *)
Definition query_body (args : Namespace) (entry : Z * string)
  (batch_results : list RawRecord * list ExtractedRecord)
  : M (Run World) (list RawRecord * list ExtractedRecord) :=
  let '(query_in_batch_index, current_query) := entry in
  let '(current_batch_raw_results, current_batch_extracted_results) := batch_results in
  r <- get ;;
  (if (0 <? global_query_index (locals r)) && PrimFloat.ltb 0%float (delay args)
   then slept <- lift_io (call (EvSleep (delay args)) (time_sleep (delay args))) ;;
        if slept : bool then ret tt else raise OverflowError
   else ret tt) ;;;
  res <- lift_io (_process_single_query secrets current_query args) ;;
  let '(query_counters, raw_res_list, extracted_res_list) := res in
  update_locals (aggregate query_counters) ;;;
  update_locals next_query ;;;
  ret (current_batch_raw_results ++ raw_res_list,
       current_batch_extracted_results ++ extracted_res_list).

(** The two flushes of a batch. *)
Definition save_batch (args : Namespace) (batch_index : Z)
  (raws : list RawRecord) (exts : list ExtractedRecord) : M (Run World) (Z * Z) :=
  let raw_batch_filename := batch_filename (search_output_base args) batch_index in
  let extracted_batch_filename := batch_filename (extracted_output_base args) batch_index in
  raw_saved_count <- flush raw_batch_filename (map JRaw raws) add_lines_raw ;;
  extracted_saved_count <-
    flush extracted_batch_filename (map JExtracted exts) add_lines_extracted ;;
  ret (raw_saved_count, extracted_saved_count).

(** The body of [for batch_index, query_batch in enumerate(batch_iterator)]. *)
Definition batch_body (args : Namespace) (entry : Z * list string) (_ : unit)
  : M (Run World) unit :=
  let '(batch_index, query_batch) := entry in
  batch_results <- for_each (query_body args) (enumerate query_batch) ([], []) ;;
  let '(current_batch_raw_results, current_batch_extracted_results) := batch_results in
  saved <- save_batch args batch_index
             current_batch_raw_results current_batch_extracted_results ;;
  let '(raw_saved_count, extracted_saved_count) := saved in
  log_saved_ratios raw_saved_count extracted_saved_count
    current_batch_raw_results current_batch_extracted_results.

(** The [try] block of [run_process]. *)
Definition batch_loop (args : Namespace) (queries : list string) : M (Run World) unit :=
  let num_queries := Z.of_nat (List.length queries) in
  (* num_batches = math.ceil(num_queries / batch_size) *)
  truediv num_queries (batch_size args) ;;;
  match batch_generator queries (batch_size args) with
  | Raise e => raise e
  | Ok query_batches => for_each (batch_body args) (enumerate query_batches) tt
  end.

Definition summarise (args : Namespace) (queries : list string) (l : RunLocals)
  (fatal : option exn) : Summary :=
  {| processed_queries := global_query_index l;
     total_queries := Z.of_nat (List.length queries);
     summary_counters := total_counters l;
     written_raw := lines_written_raw l;
     written_extracted := lines_written_extracted l;
     raw_batches_in := batch_dir (search_output_base args);
     extracted_batches_in := batch_dir (extracted_output_base args);
     fatal_error := fatal |}.

(** [try: <batch loop> except Exception: log], then the summary. *)
Definition run_batches (args : Namespace) (queries : list string)
  : M (IO World) Summary :=
  fun i =>
    let '(r, run) :=
      try_except
        (batch_loop args queries ;;; ret None)
        is_Exception
        (fun e => ret (Some e))
        {| io := i; locals := initial_run_locals |} in
    match r with
    | Ok fatal => (Ok (summarise args queries (locals run) fatal), io run)
    | Raise e => (Raise e, io run)
    end.

(** [run_process]: [None] stands for the early [return]s, which print no
    summary. *)
Definition run_process (args : Namespace) : M (IO World) (option Summary) :=
  match config.validate_config secrets with
  | Raise _ => ret None
  | Ok _ =>
      queries <- call (EvReadQueries (query_column args))
                      (read_queries_from_vifactcheck (query_column args)) ;;
      match queries with
      | None => ret None
      | Some [] => ret None
      | Some queries =>
          let raw_batch_dir := batch_dir (search_output_base args) in
          let extracted_batch_dir := batch_dir (extracted_output_base args) in
          made <- call (EvMakedirs raw_batch_dir) (os_makedirs raw_batch_dir) ;;
          if negb made then ret None
          else
            made <- call (EvMakedirs extracted_batch_dir) (os_makedirs extracted_batch_dir) ;;
            if negb made then ret None
            else
              summary <- run_batches args queries ;;
              ret (Some summary)
      end
  end.

End run_process.

(** * Specification vocabulary *)

(** [returns m s Q]: run from [s], [m] raises nothing and its value and final
    state satisfy [Q]. *)
Definition returns {S A : Type} (m : M S A) (s : S) (Q : A -> S -> Prop) : Prop :=
  exists a s', m s = (Ok a, s') /\ Q a s'.

(** The start indices of the CSE requests in a trace, in order. *)
Definition cse_start (ev : Event) : list Z :=
  match ev with
  | EvCseRequest _ _ start_index _ => [start_index]
  | _ => []
  end.

Definition cse_starts (t : list Event) : list Z := flat_map cse_start t.

Definition is_sleep (ev : Event) : bool :=
  match ev with
  | EvSleep _ => true
  | _ => false
  end.

(** How often [time.sleep] was called in a trace. *)
Definition sleeps (t : list Event) : nat := List.length (filter is_sleep t).

(** A raw record and the extracted record built in the same iteration. *)
Definition corresponds (r : RawRecord) (e : ExtractedRecord) : Prop :=
  ext_query e = raw_query r /\
  ext_search_page e = raw_search_page r /\
  ext_approx_rank e = raw_approx_rank r /\
  ext_url e = raw_link r /\
  ext_title e = raw_title r /\
  (truthy (raw_link r) = false -> extracted_text e = None).

(** The raw records of one page: item [i] of the page gets rank
    [start_index + i]. *)
Definition page_raws (query : string) (page start_index : Z) (i : Z)
  (items : list SearchItem) : list RawRecord :=
  map (fun e => make_raw query page (start_index + fst e) (snd e)) (enumerate_from i items).

(** The normalised result list of a page, by what the HTTP exchange gave. *)
Definition normalized_page (o : HttpOutcome) : list SearchItem :=
  match o with
  | HttpJson results =>
      if json_has_error results then [] else process_search_results (Some results)
  | _ => []
  end.

(** Whether [page_body] sets [stop_fetching_pages] on a page with these
    normalised results. *)
Definition page_stops (k : Z) (items : list SearchItem) : bool :=
  match items with
  | [] => true
  | _ :: _ => Z.of_nat (List.length items) <? k
  end.

Definition has_secrets (c : config.Secrets) : bool :=
  truthy_opt (config.API_KEY c) && truthy_opt (config.CSE_ID c).

Definition has_link (r : RawRecord) : bool := truthy (raw_link r).

Definition has_text (e : ExtractedRecord) : bool :=
  match extracted_text e with
  | Some _ => true
  | None => false
  end.

(** How many elements of [l] pass [f]. *)
Definition count {A : Type} (f : A -> bool) (l : list A) : Z :=
  Z.of_nat (List.length (filter f l)).

(** What the counters do while the records [raws] and [exts] are appended:
    each counts what its name says. *)
Definition counters_advance (raws : list RawRecord) (exts : list ExtractedRecord)
  (c c' : Counters) : Prop :=
  raw_saved c' = raw_saved c + Z.of_nat (List.length raws) /\
  urls_processed c' = urls_processed c + count has_link raws /\
  extractions_success c' = extractions_success c + count has_text exts.

(** What processing the items [items] of page [page] does to the locals. *)
Definition page_effect (query : string) (page start_index i : Z)
  (items : list SearchItem) (s s' : QueryLocals) : Prop :=
  raw_results_for_query s' =
    raw_results_for_query s ++ page_raws query page start_index i items /\
  exists new,
    extracted_results_for_query s' = extracted_results_for_query s ++ new /\
    Forall2 corresponds (page_raws query page start_index i items) new /\
    counters_advance (page_raws query page start_index i items) new
      (counters s) (counters s').

(** [ends m s Q]: however [m] ends from [s], returning or raising, [Q] holds
    of its result and final state. *)
Definition ends {S A : Type} (m : M S A) (s : S) (Q : result A -> S -> Prop) : Prop :=
  Q (fst (m s)) (snd (m s)).

Definition is_extract (ev : Event) : Prop :=
  match ev with
  | EvExtract _ _ => True
  | _ => False
  end.

Section page_vocabulary.
Context {World : Type} {E : Externals World}.
Variable secrets : config.Secrets.

(** The CSE request a page makes, when the secrets are there. *)
Definition page_request (query : string) (args : Namespace) (page : Z) : list Event :=
  if has_secrets secrets
  then [EvCseRequest query (num_results args) (page * num_results args + 1)
          (api_kwargs_of args)]
  else [].

(** The normalised result list of a page fetched in world [w]. *)
Definition page_items (query : string) (args : Namespace) (page : Z) (w : World)
  : list SearchItem :=
  if has_secrets secrets
  then normalized_page
         (fst (requests_get_cse query (num_results args) (page * num_results args + 1)
                 (api_kwargs_of args) w))
  else [].

End page_vocabulary.

(** A network-class failure of the HTTP exchange. *)
Definition network_failure (o : HttpOutcome) : Prop :=
  o = HttpRequestException \/ o = HttpTimeout.

(** The provider answers every request for page [page] of [query] with a
    well-formed response whose items satisfy [P]. *)
Definition page_returns {World : Type} {E : Externals World} (query : string)
  (args : Namespace) (page : Z) (P : list Item -> Prop) : Prop :=
  forall w : World, exists items,
    fst (requests_get_cse query (num_results args) (page * num_results args + 1)
           (api_kwargs_of args) w)
      = HttpJson {| json_has_error := false; json_items := Some items |} /\
    P items.

(** The invariant of the locals of [_process_single_query]. *)
Definition locals_consistent (st : QueryLocals) : Prop :=
  Forall2 corresponds (raw_results_for_query st) (extracted_results_for_query st) /\
  counters_advance (raw_results_for_query st) (extracted_results_for_query st)
    zero_counters (counters st).

(** ** Normalisation *)

Definition item_retained (it : Item) : bool :=
  match item_link it with
  | Some l => link_accepted l
  | None => false
  end.

Definition normalises (it : Item) (si : SearchItem) : Prop :=
  item_link it = Some (link si) /\
  title si = get_default (item_title it) "N/A" /\
  snippet si = get_default (item_snippet it) "N/A".

(** ** Ranks *)

(** The raw records of a query whose pages [p0], [p0 + 1], ... had the
    normalised result lists [pls]: item [i] of page [p] has rank
    [p * k + 1 + i]. *)
Definition query_raws (query : string) (k p0 : Z) (pls : list (list SearchItem))
  : list RawRecord :=
  flat_map (fun e => page_raws query (fst e) (fst e * k + 1) 0 (snd e))
           (enumerate_from p0 pls).

Definition ranks (raws : list RawRecord) : list Z := map raw_approx_rank raws.

(** No response of the provider to [query] holds more items than were asked for. *)
Definition provider_honours_page_size {World : Type} {E : Externals World}
  (query : string) (args : Namespace) : Prop :=
  forall (w : World) (start_index : Z) (results : ResultsJson) (items : list Item),
    fst (requests_get_cse query (num_results args) start_index (api_kwargs_of args) w)
      = HttpJson results ->
    json_items results = Some items ->
    Z.of_nat (List.length items) <= num_results args.

Definition full_page (k : Z) (its : list SearchItem) : Prop :=
  its <> [] /\ k <= Z.of_nat (List.length its).

(** ** Batches and the run *)

(** The events of one flush, given whether [open] succeeded. *)
Definition flush_events (path : string) (records : list JsonlRecord) (opened : bool)
  : list Event :=
  EvOpen path :: (if opened then map (EvWrite path) records ++ [EvClose path] else []).

(** How often a run over [processed] queries sleeps. *)
Definition expected_sleeps (args : Namespace) (processed : Z) : Z :=
  if PrimFloat.ltb 0%float (delay args) then Z.max (processed - 1) 0 else 0.

(** ** The spec's wording of link validity *)

Definition visible_char (c : ascii) : bool :=
  let n := nat_of_ascii c in (32 <? n)%nat && (n <? 127)%nat.

Fixpoint all_chars (f : ascii -> bool) (s : string) : bool :=
  match s with
  | EmptyString => true
  | String c rest => f c && all_chars f rest
  end.

Definition ends_host (c : ascii) : bool :=
  Ascii.eqb c "/"%char || Ascii.eqb c "?"%char || Ascii.eqb c "#"%char.

Fixpoint host_part (rest : string) : string :=
  match rest with
  | EmptyString => EmptyString
  | String c r => if ends_host c then EmptyString else String c (host_part r)
  end.

Definition after_prefix (p s : string) : option string :=
  if String.prefix p s
  then Some (substring (String.length p) (String.length s - String.length p) s)
  else None.

(** What the spec calls "a syntactically valid http(s) link", read as little
    as the words allow: the scheme [http://] or [https://], then a non-empty
    host, and no blank or control character anywhere.  Every URL grammar asks
    at least this much; it is here to be compared with [link_accepted]. *)
Definition spec_valid_http_url (s : string) : bool :=
  match after_prefix "http://" s, after_prefix "https://" s with
  | Some rest, _ => truthy (host_part rest) && all_chars visible_char s
  | None, Some rest => truthy (host_part rest) && all_chars visible_char s
  | None, None => false
  end.

(** ** Scenarios *)

Module Scenario.

(** A world without state: each operation answers by its arguments alone.
    Files are written and closed without error, and [time.sleep] raises on
    an infinite delay and returns on any other. *)
Definition stateless (search : string -> Z -> Z -> HttpOutcome)
  (extract : string -> option string) (queries : option (list string))
  (open_ok : string -> bool) : Externals unit :=
  {| requests_get_cse := fun query num start _ w => (search query num start, w);
     extract_main_text_requests := fun url _ w => (extract url, w);
     read_queries_from_vifactcheck := fun _ w => (queries, w);
     os_makedirs := fun _ w => (true, w);
     open_w := fun path w => (open_ok path, w);
     dump_and_write := fun _ _ w => (true, w);
     close_file := fun _ w => (true, w);
     time_sleep := fun seconds w => (negb (PrimFloat.eqb seconds PrimFloat.infinity), w) |}.

Definition start_of_run : IO unit := {| world := tt; trace := [] |}.

Definition secrets : config.Secrets :=
  {| config.API_KEY := Some "key"; config.CSE_ID := Some "cx" |}.

(** [--query-column claim] and nothing else. *)
Definition only_query_column : CommandLine :=
  {| cli_query_column := "claim";
     cli_pages := None;
     cli_num_results := None;
     cli_delay := None;
     cli_timeout := None;
     cli_site_search := None;
     cli_batch_size := None;
     cli_search_output_base := None;
     cli_extracted_output_base := None |}.

Definition command_line (pages num_results batch_size : Z) : CommandLine :=
  {| cli_query_column := "claim";
     cli_pages := Some pages;
     cli_num_results := Some num_results;
     cli_delay := None;
     cli_timeout := None;
     cli_site_search := None;
     cli_batch_size := Some batch_size;
     cli_search_output_base := None;
     cli_extracted_output_base := None |}.

(** [--delay seconds] added to a command line. *)
Definition with_delay (seconds : float) (argv : CommandLine) : CommandLine :=
  {| cli_query_column := cli_query_column argv;
     cli_pages := cli_pages argv;
     cli_num_results := cli_num_results argv;
     cli_delay := Some seconds;
     cli_timeout := cli_timeout argv;
     cli_site_search := cli_site_search argv;
     cli_batch_size := cli_batch_size argv;
     cli_search_output_base := cli_search_output_base argv;
     cli_extracted_output_base := cli_extracted_output_base argv |}.

(** An [argparse.Namespace] handed to [run_process] by a caller other than
    [parse_arguments], with this batch size. *)
Definition with_batch_size (n : Z) (args : Namespace) : Namespace :=
  {| query_column := query_column args;
     pages := pages args;
     num_results := num_results args;
     delay := delay args;
     timeout := timeout args;
     site_search := site_search args;
     batch_size := n;
     search_output_base := search_output_base args;
     extracted_output_base := extracted_output_base args |}.

Definition item (t l : string) : Item :=
  {| item_title := Some t; item_link := Some l; item_snippet := Some "s" |}.

Definition response (items : list Item) : HttpOutcome :=
  HttpJson {| json_has_error := false; json_items := Some items |}.

(** The spec's end-to-end example. *)
Definition item_A : Item :=
  {| item_title := Some "A"; item_link := Some "https://a.example";
     item_snippet := Some "s1" |}.
Definition item_B : Item :=
  {| item_title := Some "B"; item_link := Some "ftp://bad"; item_snippet := Some "s2" |}.
Definition example_response : ResultsJson :=
  {| json_has_error := false; json_items := Some [item_A; item_B] |}.
Definition raw_A : RawRecord :=
  {| raw_title := "A"; raw_link := "https://a.example"; raw_snippet := "s1";
     raw_query := "test"; raw_search_page := 1; raw_approx_rank := 1 |}.
Definition example_provider : Externals unit :=
  stateless (fun _ _ _ => HttpJson example_response) (fun _ => None) None (fun _ => true).

(** Two results for every request whose start index is at most [3 * num]
    (pages 0, 1 and 2 at page size [num]), one result for later pages. *)
Definition three_full_pages : Externals unit :=
  stateless
    (fun _ num start =>
       if start <=? 3 * num
       then response [item "a" "https://a.example/1"; item "b" "http://b.example/2"]
       else response [item "c" "https://c.example/3"])
    (fun _ => Some "text") None (fun _ => true).

(** A provider that answers every request with two results, whatever [num]. *)
Definition two_results_always : Externals unit :=
  stateless
    (fun _ _ _ => response [item "a" "https://a.example/1"; item "b" "http://b.example/2"])
    (fun _ => Some "text") None (fun _ => true).

(** A provider that answers every request with one result. *)
Definition one_result_always : Externals unit :=
  stateless (fun _ _ _ => response [item "a" "https://a.example/1"])
    (fun _ => Some "text") None (fun _ => true).

(** Every request to the provider ends in a connection error. *)
Definition network_down (queries : list string) : Externals unit :=
  stateless (fun _ _ _ => HttpRequestException) (fun _ => None) (Some queries)
    (fun _ => true).

(** The provider finds nothing for ["q1"] and ["q2"], one result for anything else. *)
Definition nothing_for_q1_q2 (queries : list string) : Externals unit :=
  stateless
    (fun query _ _ =>
       if String.eqb query "q1" || String.eqb query "q2"
       then response []
       else response [item "a" "https://a.example/1"])
    (fun _ => Some "text") (Some queries) (fun _ => true).

End Scenario.

(** ** What a query does to the outside world *)

Definition only_cse (ev : Event) : list Event :=
  match ev with
  | EvCseRequest _ _ _ _ => [ev]
  | _ => []
  end.

Definition only_extract (ev : Event) : list Event :=
  match ev with
  | EvExtract _ _ => [ev]
  | _ => []
  end.

(** The CSE requests, and the extraction calls, of a trace, in order. *)
Definition cse_requests (t : list Event) : list Event := flat_map only_cse t.
Definition extractions (t : list Event) : list Event := flat_map only_extract t.

Definition is_query_event (ev : Event) : Prop :=
  match ev with
  | EvCseRequest _ _ _ _ => True
  | EvExtract _ _ => True
  | _ => False
  end.

(** The extraction call [item_body] makes for an item. *)
Definition extract_event (args : Namespace) (si : SearchItem) : list Event :=
  if truthy (link si) then [EvExtract (link si) (timeout args)] else [].

(** The extraction call that goes with a raw record. *)
Definition extraction_of (args : Namespace) (r : RawRecord) : Event :=
  EvExtract (raw_link r) (timeout args).

Definition link_ok (r : RawRecord) : Prop := link_accepted (raw_link r) = true.

(** The requests for the pages [0 .. n-1] of a query. *)
Definition requests (secrets : config.Secrets) (query : string) (args : Namespace)
  (n : nat) : list Event :=
  flat_map (page_request secrets query args) (map Z.of_nat (seq 0 n)).

(** What holds of every record of a query that fetched [n] pages. *)
Definition record_of (query : string) (n : nat) (r : RawRecord) : Prop :=
  raw_query r = query /\ 1 <= raw_search_page r <= Z.of_nat n.

(** ** Arguments and batches *)

(** [math.ceil(n / b)] for [n >= 0] and [b >= 1]. *)
Definition ceil_div (n b : Z) : Z := (n + b - 1) / b.

(** ** The run: files and totals *)

Definition only_open (ev : Event) : list string :=
  match ev with
  | EvOpen path => [path]
  | _ => []
  end.

(** The paths given to [open], in order. *)
Definition opened_files (t : list Event) : list string := flat_map only_open t.

(** The two files of batch [batch_index], in the order the code opens them. *)
Definition batch_files (args : Namespace) (batch_index : Z) : list string :=
  [batch_filename (search_output_base args) batch_index;
   batch_filename (extracted_output_base args) batch_index].

(** The totals of a run while [pending] records of the current batch are
    collected but not yet flushed. *)
Definition accounted (l : RunLocals) (pending : Z) : Prop :=
  0 <= lines_written_raw l /\
  lines_written_raw l + pending <= raw_saved (total_counters l) /\
  0 <= lines_written_extracted l /\
  lines_written_extracted l + pending <= raw_saved (total_counters l) /\
  0 <= extractions_success (total_counters l) /\
  extractions_success (total_counters l) <= urls_processed (total_counters l) /\
  urls_processed (total_counters l) = raw_saved (total_counters l).

(** [open], the writes and the closing of a file never fail. *)
Definition reliable_files {World : Type} {E : Externals World} : Prop :=
  forall (path : string) (w : World),
    fst (open_w path w) = true /\
    fst (close_file path w) = true /\
    forall record, fst (dump_and_write path record w) = true.

(** [time.sleep(args.delay)] never fails. *)
Definition reliable_clock {World : Type} {E : Externals World} (args : Namespace) : Prop :=
  forall w : World, fst (time_sleep (delay args) w) = true.

(** Every record generated so far is written or pending. *)
Definition fully_written (l : RunLocals) (pending : Z) : Prop :=
  lines_written_raw l + pending = raw_saved (total_counters l) /\
  lines_written_extracted l + pending = raw_saved (total_counters l).

(** Every search for [query] ends with at least one raw record. *)
Definition finds {World : Type} {E : Externals World} (secrets : config.Secrets)
  (args : Namespace) (query : string) : Prop :=
  forall s : IO World,
    exists c raws exts s',
      _process_single_query secrets query args s = (Ok (c, raws, exts), s') /\
      raws <> [].

Definition is_setup_event (ev : Event) : Prop :=
  match ev with
  | EvReadQueries _ => True
  | EvMakedirs _ => True
  | _ => False
  end.

(** *** Where the sleeps fall *)

(** [global_query_index > 0 and args.delay > 0] *)
Definition sleeps_before (args : Namespace) (global_query_index : Z) : bool :=
  (0 <? global_query_index) && PrimFloat.ltb 0%float (delay args).

(** The request for the first page of a query. *)
Definition first_request (args : Namespace) (query : string) : Event :=
  EvCseRequest query (num_results args) 1 (api_kwargs_of args).

(** The calls of [time.sleep] and the requests with start index 1. *)
Definition is_milestone (ev : Event) : bool :=
  match ev with
  | EvSleep _ => true
  | EvCseRequest _ _ start_index _ => start_index =? 1
  | _ => false
  end.

Definition milestones (t : list Event) : list Event := filter is_milestone t.

(** The milestones of the query with global index [fst entry]: a sleep when
    one is due, then the query's first request. *)
Definition query_milestones (args : Namespace) (entry : Z * string) : list Event :=
  (if sleeps_before args (fst entry) then [EvSleep (delay args)] else []) ++
  [first_request args (snd entry)].

(** The milestones of the queries [qs], the first of which has global index
    [g]. *)
Definition expected_milestones (args : Namespace) (g : Z) (qs : list string)
  : list Event :=
  flat_map (query_milestones args) (enumerate_from g qs).

(** Every query makes a first request, and only its first request has start
    index 1. *)
Definition first_requests_show (secrets : config.Secrets) (args : Namespace) : Prop :=
  has_secrets secrets = true /\ 1 <= pages args /\ 1 <= num_results args.

(** What the run has left in its trace since [t0], once the batches
    [flushed] are flushed and the queries [processed] processed; [last] is
    what a sleep that failed has added. *)
Definition run_trace {World : Type} (secrets : config.Secrets) (args : Namespace)
  (t0 : list Event) (flushed : list Z) (processed : list string) (last : list Event)
  (r : Run World) : Prop :=
  global_query_index (locals r) = Z.of_nat (List.length processed) /\
  exists new,
    trace (io r) = t0 ++ new /\
    opened_files new = flat_map (batch_files args) flushed /\
    Z.of_nat (sleeps new) =
      expected_sleeps args (global_query_index (locals r)) + Z.of_nat (List.length last) /\
    (first_requests_show secrets args ->
     milestones new = expected_milestones args 0 processed ++ last).

(** The queries [qs] of a batch were processed from the state [rb] on and
    left the records [acc] to be flushed. *)
Definition collected {World : Type} {E : Externals World} (secrets : config.Secrets)
  (args : Namespace) (rb : Run World) (qs : list string)
  (acc : list RawRecord * list ExtractedRecord) (r : Run World) : Prop :=
  let pending := Z.of_nat (List.length (fst acc)) in
  let before := total_counters (locals rb) in
  let now := total_counters (locals r) in
  List.length (snd acc) = List.length (fst acc) /\
  lines_written_raw (locals r) = lines_written_raw (locals rb) /\
  lines_written_extracted (locals r) = lines_written_extracted (locals rb) /\
  raw_saved now = raw_saved before + pending /\
  urls_processed now = urls_processed before + pending /\
  extractions_success before <= extractions_success now /\
  extractions_success now <= extractions_success before + pending /\
  global_query_index (locals r) =
    global_query_index (locals rb) + Z.of_nat (List.length qs) /\
  (Forall (finds secrets args) qs -> qs <> [] -> fst acc <> []) /\
  exists new,
    trace (io r) = trace (io rb) ++ new /\
    opened_files new = [] /\
    Z.of_nat (sleeps new) =
      expected_sleeps args (global_query_index (locals r)) -
      expected_sleeps args (global_query_index (locals rb)) /\
    (first_requests_show secrets args ->
     milestones new = expected_milestones args (global_query_index (locals rb)) qs).

(** A sleep failed before the query that follows [qs] in its batch. *)
Definition sleep_failed {World : Type} {E : Externals World} (secrets : config.Secrets)
  (args : Namespace) (rb : Run World) (qs : list string) (r : Run World) : Prop :=
  exists acc r1,
    collected secrets args rb qs acc r1 /\
    locals r = locals r1 /\
    trace (io r) = trace (io r1) ++ [EvSleep (delay args)] /\
    sleeps_before args (global_query_index (locals r1)) = true /\
    fst (time_sleep (delay args) (world (io r1))) = false.

(** The batch loop between two batches: the batches [done] are processed and
    flushed. *)
Definition attempted {World : Type} {E : Externals World} (secrets : config.Secrets)
  (args : Namespace) (t0 : list Event) (done : list (Z * list string)) (r : Run World)
  : Prop :=
  accounted (locals r) 0 /\
  (reliable_files -> fully_written (locals r) 0) /\
  run_trace secrets args t0 (map fst done) (List.concat (map snd done)) [] r.

(** The batch loop was cut short in the batch [x] that follows the batches
    [done], by the exception [e]: the division of the last log line, after
    the batch was flushed, or a sleep that failed before query [k] of the
    batch. *)
Definition batch_cut {World : Type} {E : Externals World} (secrets : config.Secrets)
  (args : Namespace) (t0 : list Event) (done : list (Z * list string))
  (x : Z * list string) (e : exn) (r : Run World) : Prop :=
  match e with
  | ZeroDivisionError =>
      attempted secrets args t0 (done ++ [x]) r /\
      ~ (Forall (finds secrets args) (snd x) /\ snd x <> [])
  | OverflowError =>
      exists k : nat,
        (k < List.length (snd x))%nat /\
        accounted (locals r) 0 /\
        sleeps_before args (global_query_index (locals r)) = true /\
        ~ reliable_clock args /\
        run_trace secrets args t0 (map fst done)
          (List.concat (map snd done) ++ firstn k (snd x)) [EvSleep (delay args)] r
  | _ => False
  end.

(** How the batch loop has ended: [m] batches are flushed, and a sleep that
    failed is the last event. *)
Definition loop_ended {World : Type} {E : Externals World} (secrets : config.Secrets)
  (args : Namespace) (queries : list string) (t0 : list Event)
  (res : result unit) (r : Run World) : Prop :=
  accounted (locals r) 0 /\
  0 <= global_query_index (locals r) <= Z.of_nat (List.length queries) /\
  (res = Ok tt \/ res = Raise ZeroDivisionError \/ res = Raise OverflowError) /\
  (res = Raise OverflowError ->
   sleeps_before args (global_query_index (locals r)) = true /\ ~ reliable_clock args) /\
  (reliable_files -> res <> Raise OverflowError -> fully_written (locals r) 0) /\
  (1 <= batch_size args -> Forall (finds secrets args) queries ->
   res <> Raise ZeroDivisionError) /\
  (1 <= batch_size args -> res = Ok tt ->
   global_query_index (locals r) = Z.of_nat (List.length queries)) /\
  exists m : nat,
    (1 <= batch_size args ->
     Z.of_nat m <= ceil_div (Z.of_nat (List.length queries)) (batch_size args) /\
     (res = Ok tt ->
      Z.of_nat m = ceil_div (Z.of_nat (List.length queries)) (batch_size args))) /\
    run_trace secrets args t0 (range (Z.of_nat m))
      (firstn (Z.to_nat (global_query_index (locals r))) queries)
      (match res with Raise OverflowError => [EvSleep (delay args)] | _ => [] end) r.

(** ** Paths of the batch files *)

(** No ['/'] in [s]. *)
Fixpoint no_sep (s : string) : bool :=
  match s with
  | EmptyString => true
  | String c rest => negb (is_sep c) && no_sep rest
  end.

(** [f"{base_name}_{batch_index + 1}.jsonl"] *)
Definition batch_basename (base_path : string) (batch_index : Z) : string :=
  (basename base_path ++ "_" ++ str (batch_index + 1) ++ ".jsonl")%string.

(** * Proofs *)

Section monad_facts.
Context {S : Type}.

Lemma returns_ret {A : Type} (a : A) (s : S) (Q : A -> S -> Prop) :
  Q a s -> returns (ret a) s Q.
Proof. intros H. exists a, s. split; [reflexivity | exact H]. Qed.

Lemma returns_bind {A B : Type} (m : M S A) (k : A -> M S B) (s : S)
  (Q : B -> S -> Prop) :
  returns m s (fun a s' => returns (k a) s' Q) -> returns (bind m k) s Q.
Proof.
  intros (a & s1 & Hm & b & s2 & Hk & HQ).
  exists b, s2. unfold bind. rewrite Hm. split; assumption.
Qed.

Lemma returns_weaken {A : Type} (m : M S A) (s : S) (Q Q' : A -> S -> Prop) :
  returns m s Q -> (forall a s', Q a s' -> Q' a s') -> returns m s Q'.
Proof.
  intros (a & s' & Hm & HQ) Himp. exists a, s'. split; [exact Hm | apply Himp, HQ].
Qed.

End monad_facts.

(** An external call returns the world's answer and records its event. *)
Lemma returns_call {World A : Type} (ev : Event) (f : World -> A * World)
  (s : IO World) (Q : A -> IO World -> Prop) :
  Q (fst (f (world s))) {| world := snd (f (world s)); trace := trace s ++ [ev] |} ->
  returns (call ev f) s Q.
Proof.
  intros H. unfold returns, call. destruct (f (world s)) as [a w]. simpl in H.
  eexists _, _. split; [reflexivity | exact H].
Qed.

Lemma returns_lift_io {World A : Type} (m : M (IO World) A) (r : Run World)
  (Q : A -> Run World -> Prop) :
  returns m (io r) (fun a i => Q a {| io := i; locals := locals r |}) ->
  returns (lift_io m) r Q.
Proof.
  intros (a & i & Hm & HQ). unfold returns, lift_io. rewrite Hm.
  eexists _, _. split; [reflexivity | exact HQ].
Qed.

Lemma count_app {A : Type} (f : A -> bool) (l1 l2 : list A) :
  count f (l1 ++ l2) = count f l1 + count f l2.
Proof. unfold count. rewrite filter_app, length_app. lia. Qed.

Lemma count_bounds {A : Type} (f : A -> bool) (l : list A) :
  0 <= count f l <= Z.of_nat (List.length l).
Proof. unfold count. pose proof (filter_length_le f l). lia. Qed.

Lemma counters_advance_nil (c : Counters) : counters_advance [] [] c c.
Proof. unfold counters_advance, count. simpl. lia. Qed.

Lemma counters_advance_app (r1 r2 : list RawRecord) (e1 e2 : list ExtractedRecord)
  (a b c : Counters) :
  counters_advance r1 e1 a b -> counters_advance r2 e2 b c ->
  counters_advance (r1 ++ r2) (e1 ++ e2) a c.
Proof. unfold counters_advance. rewrite !count_app, length_app. lia. Qed.

(** A record with a text has a link: no more texts than links. *)
Lemma texts_among_links (raws : list RawRecord) (exts : list ExtractedRecord) :
  Forall2 corresponds raws exts -> count has_text exts <= count has_link raws.
Proof.
  unfold count. induction 1 as [|r e raws exts Hc _ IH]; simpl; [lia|].
  destruct Hc as (_ & _ & _ & _ & _ & Hnone).
  unfold has_text at 1, has_link at 1.
  destruct (truthy (raw_link r)); [destruct (extracted_text e); simpl; lia|].
  rewrite (Hnone eq_refl). exact IH.
Qed.

Lemma enumerate_from_length {A : Type} (l : list A) :
  forall i, List.length (enumerate_from i l) = List.length l.
Proof. induction l as [|x l IH]; intros i; simpl; [reflexivity | now rewrite IH]. Qed.

Section query_facts.
Context {World : Type} {E : Externals World}.

(** One item: what [item_body] appends, whichever of its three paths it takes. *)
Ltac item_effect :=
  unfold page_effect, page_raws; simpl;
  split; [reflexivity|];
  eexists; split; [reflexivity|];
  split;
  [ constructor; [|constructor];
    unfold corresponds; simpl; repeat split; congruence
  | unfold counters_advance, count, has_link, has_text; simpl;
    match goal with H : truthy _ = _ |- _ => rewrite H end; simpl; lia ].

Lemma item_body_spec (query : string) (args : Namespace) (page start_index j : Z)
  (it : SearchItem) (st : QueryLocals) (s : IO World) :
  returns (item_body query args page start_index (j, it) st) s
    (fun st' s' =>
       page_effect query page start_index j [it] st st' /\
       stop_fetching_pages st' = stop_fetching_pages st /\
       exists extracts, Forall is_extract extracts /\
         (List.length extracts <= 1)%nat /\ trace s' = trace s ++ extracts).
Proof.
  unfold item_body. apply returns_bind.
  destruct (truthy (link it)) eqn:Hlink; simpl.
  - apply returns_bind, returns_call.
    destruct (fst (extract_main_text_requests (link it) (timeout args) (world s)))
      as [text|];
      apply returns_ret, returns_ret; simpl;
      (split; [item_effect | split; [reflexivity|]]);
      exists [EvExtract (link it) (timeout args)];
      (split; [repeat constructor|]); (split; [simpl; lia | reflexivity]).
  - apply returns_ret, returns_ret; simpl.
    split; [item_effect | split; [reflexivity|]].
    exists []. split; [constructor|]. split; [simpl; lia | symmetry; apply app_nil_r].
Qed.

Lemma page_effect_nil (query : string) (page start_index i : Z) (st : QueryLocals) :
  page_effect query page start_index i [] st st.
Proof.
  unfold page_effect, page_raws; simpl. split; [symmetry; apply app_nil_r|].
  exists []. split; [symmetry; apply app_nil_r|].
  split; [constructor | apply counters_advance_nil].
Qed.

Lemma page_effect_cons (query : string) (page start_index i : Z) (it : SearchItem)
  (rest : list SearchItem) (st st1 st2 : QueryLocals) :
  page_effect query page start_index i [it] st st1 ->
  page_effect query page start_index (i + 1) rest st1 st2 ->
  page_effect query page start_index i (it :: rest) st st2.
Proof.
  unfold page_effect.
  intros (Hr1 & n1 & He1 & Hc1 & Ha1) (Hr2 & n2 & He2 & Hc2 & Ha2).
  split.
  - rewrite Hr2, Hr1, <- app_assoc. reflexivity.
  - exists (n1 ++ n2). split; [|split].
    + rewrite He2, He1, <- app_assoc. reflexivity.
    + apply (Forall2_app Hc1 Hc2).
    + apply (counters_advance_app _ _ _ _ _ _ _ Ha1 Ha2).
Qed.

Lemma set_stop_effect (query : string) (page start_index i : Z) (items : list SearchItem)
  (st st' : QueryLocals) :
  page_effect query page start_index i items st st' ->
  page_effect query page start_index i items st (set_stop st').
Proof. intros H. exact H. Qed.

(** The item loop of a page: one raw and one extracted record per item, at most
    one extraction each, no other event, and the stop flag untouched. *)
Lemma items_loop_spec (query : string) (args : Namespace) (page start_index : Z)
  (items : list SearchItem) :
  forall (i : Z) (st : QueryLocals) (s : IO World),
  returns (for_each (item_body query args page start_index) (enumerate_from i items) st) s
    (fun st' s' =>
       page_effect query page start_index i items st st' /\
       stop_fetching_pages st' = stop_fetching_pages st /\
       exists extracts, Forall is_extract extracts /\
         (List.length extracts <= List.length items)%nat /\
         trace s' = trace s ++ extracts).
Proof.
  induction items as [|it rest IH]; intros i st s; simpl.
  - apply returns_ret. split; [apply page_effect_nil|]. split; [reflexivity|].
    exists []. split; [constructor|]. split; [simpl; lia | symmetry; apply app_nil_r].
  - apply returns_bind. eapply returns_weaken; [apply item_body_spec|].
    intros st1 s1 (Heff1 & Hstop1 & x1 & Hx1 & Hl1 & Ht1).
    eapply returns_weaken; [apply IH|].
    intros st2 s2 (Heff2 & Hstop2 & x2 & Hx2 & Hl2 & Ht2).
    split; [eapply page_effect_cons; eassumption|].
    split; [congruence|].
    exists (x1 ++ x2). split; [apply Forall_app; split; assumption|].
    split; [rewrite length_app; lia|].
    rewrite Ht2, Ht1, <- app_assoc. reflexivity.
Qed.

Variable secrets : config.Secrets.

(** One iteration of the page loop: it never raises; it makes the page's
    request when the secrets are set, appends the records of the page's
    normalised items, and sets the stop flag exactly when [page_stops]. *)
Lemma page_body_spec (query : string) (args : Namespace) (page : Z)
  (st : QueryLocals) (s : IO World) :
  returns (page_body secrets query args page st) s
    (fun st' s' =>
       let items := page_items secrets query args page (world s) in
       page_effect query page (page * num_results args + 1) 0 items st st' /\
       stop_fetching_pages st' =
         stop_fetching_pages st || page_stops (num_results args) items /\
       exists extracts, Forall is_extract extracts /\
         (List.length extracts <= List.length items)%nat /\
         trace s' = trace s ++ page_request secrets query args page ++ extracts).
Proof.
  assert (Hstop : forall i : IO World,
    returns (ret (set_stop st)) i (fun st' s' =>
      page_effect query page (page * num_results args + 1) 0 [] st st' /\
      stop_fetching_pages st' = stop_fetching_pages st || page_stops (num_results args) [] /\
      exists extracts, Forall is_extract extracts /\
        (List.length extracts <= List.length (@nil SearchItem))%nat /\
        trace s' = trace i ++ extracts)).
  { intros i. apply returns_ret. split; [apply set_stop_effect, page_effect_nil|].
    split; [simpl; symmetry; apply orb_true_r|].
    exists []. split; [constructor|]. split; [simpl; lia | symmetry; apply app_nil_r]. }
  unfold page_body, page_items, page_request, search_google_cse, has_secrets.
  fold (api_kwargs_of args).
  destruct (truthy_opt (config.API_KEY secrets)), (truthy_opt (config.CSE_ID secrets));
    simpl negb; simpl orb; simpl andb; cbv beta iota;
    try (unfold returns, bind, try_except, ret; simpl;
         destruct (Hstop s) as (a & s' & Heq & HQ); unfold ret in Heq;
         injection Heq as <- <-; eexists _, _; split; [reflexivity | exact HQ]).
  unfold returns, bind, try_except, call.
  destruct (requests_get_cse query (num_results args) (page * num_results args + 1)
              (api_kwargs_of args) (world s)) as [o w] eqn:Ho.
  cbn [fst].
  set (s1 := {| world := w; trace := trace s ++
       [EvCseRequest query (num_results args) (page * num_results args + 1)
          (api_kwargs_of args)] |}).
  assert (Hs1 : forall (s' : IO World) (x : list Event),
     trace s' = trace s1 ++ x ->
     trace s' = trace s ++
       [EvCseRequest query (num_results args) (page * num_results args + 1)
          (api_kwargs_of args)] ++ x).
  { intros s' x ->. subst s1; simpl. rewrite <- app_assoc. reflexivity. }
  remember (normalized_page o) as items eqn:Hitems.
  assert (Hfail : items = [] ->
    exists (a : QueryLocals) (s' : IO World), (Ok (set_stop st), s1) = (Ok a, s') /\
      (page_effect query page (page * num_results args + 1) 0 items st a /\
       stop_fetching_pages a =
         stop_fetching_pages st || page_stops (num_results args) items /\
       exists extracts, Forall is_extract extracts /\
         (List.length extracts <= List.length items)%nat /\
         trace s' = trace s ++
           [EvCseRequest query (num_results args) (page * num_results args + 1)
              (api_kwargs_of args)] ++ extracts)).
  { intros ->. destruct (Hstop s1) as (a & s' & Heq & Heff & Hst & x & Hx & Hl & Ht).
    exists a, s'. split; [exact Heq|]. split; [exact Heff|]. split; [exact Hst|].
    exists x. split; [exact Hx|]. split; [exact Hl|]. apply Hs1. exact Ht. }
  destruct o as [| | |results]; cbn [normalized_page] in Hitems;
    try (apply Hfail; exact Hitems).
  destruct (json_has_error results) eqn:Herr.
  { apply Hfail. exact Hitems. }
  unfold ret at 1 2. cbv beta iota.
  destruct (process_search_results (Some results)) as [|it rest] eqn:Hnorm.
  { apply Hfail. exact Hitems. }
  subst items.
  destruct (items_loop_spec query args page (page * num_results args + 1)
              (it :: rest) 0 st s1) as (st2 & s2 & Hrun & Heff & Hst & x & Hx & Hl & Ht).
  unfold enumerate, bind. rewrite Hrun.
  destruct (Z.of_nat (List.length (it :: rest)) <? num_results args) eqn:Hshort;
    unfold ret; eexists _, _; (split; [reflexivity|]).
  - split; [apply set_stop_effect; exact Heff|]. split.
    + cbn [page_stops]. rewrite Hshort. symmetry; apply orb_true_r.
    + exists x. split; [exact Hx|]. split; [exact Hl|]. apply Hs1. exact Ht.
  - split; [exact Heff|]. split.
    + cbn [page_stops]. rewrite Hshort, orb_false_r. exact Hst.
    + exists x. split; [exact Hx|]. split; [exact Hl|]. apply Hs1. exact Ht.
Qed.

(** The page loop with an invariant [I] indexed by the next page: the loop
    returns, either at the end of the page list or at the first page it finds
    the stop flag set. *)
Lemma for_pages_inv (query : string) (args : Namespace)
  (I : Z -> QueryLocals -> IO World -> Prop) :
  (forall p st s, 0 <= p -> I p st s -> stop_fetching_pages st = false ->
     returns (page_body secrets query args p st) s (I (p + 1))) ->
  forall (n a : nat) (st : QueryLocals) (s : IO World),
    I (Z.of_nat a) st s ->
    returns (for_pages secrets query args (map Z.of_nat (seq a n)) st) s
      (fun st' s' =>
         exists p, Z.of_nat a <= p <= Z.of_nat (a + n) /\ I p st' s' /\
                   (p < Z.of_nat (a + n) -> stop_fetching_pages st' = true)).
Proof.
  intros Hbody n. induction n as [|n IH]; intros a st s HI; simpl.
  - apply returns_ret. exists (Z.of_nat a). split; [lia|]. split; [exact HI | lia].
  - destruct (stop_fetching_pages st) eqn:Hstop.
    + apply returns_ret. exists (Z.of_nat a). split; [lia|]. split; [exact HI|].
      intros _. exact Hstop.
    + apply returns_bind. eapply returns_weaken.
      * apply Hbody; [lia | exact HI | exact Hstop].
      * intros st1 s1 HI1. eapply returns_weaken.
        -- apply IH. replace (Z.of_nat (S a)) with (Z.of_nat a + 1) by lia. exact HI1.
        -- intros st2 s2 (p & Hp & HIp & Hlt). exists p.
           split; [lia|]. split; [exact HIp|]. intros H. apply Hlt. lia.
Qed.

Lemma locals_consistent_initial : locals_consistent initial_locals.
Proof. split; [constructor | apply counters_advance_nil]. Qed.

Lemma locals_consistent_page (query : string) (page start_index i : Z)
  (items : list SearchItem) (st st' : QueryLocals) :
  locals_consistent st ->
  page_effect query page start_index i items st st' ->
  locals_consistent st'.
Proof.
  unfold locals_consistent, page_effect.
  intros (Hc & Hcount) (Hr & new & He & Hn & Ha).
  rewrite Hr, He. split.
  - apply Forall2_app; assumption.
  - eapply counters_advance_app; eassumption.
Qed.

(** [_process_single_query] returns consistent lists and counters. *)
Lemma process_single_query_consistent (query : string) (args : Namespace) (s : IO World) :
  returns (_process_single_query secrets query args) s
    (fun res _ =>
       let '(c, raws, exts) := res in
       Forall2 corresponds raws exts /\
       counters_advance raws exts zero_counters c).
Proof.
  unfold _process_single_query, range. apply returns_bind.
  eapply returns_weaken.
  - apply (for_pages_inv query args (fun _ st _ => locals_consistent st)).
    + intros p st i _ Hinv _. eapply returns_weaken; [apply page_body_spec|].
      intros st' i' (Heff & _). eapply locals_consistent_page; eassumption.
    + apply locals_consistent_initial.
  - intros st' s' (p & _ & Hinv & _). apply returns_ret. exact Hinv.
Qed.

End query_facts.


(** C10.  The counters returned by [_process_single_query] satisfy
    [extractions_success <= urls_processed <= raw_saved], and [raw_saved] is
    the length of the returned raw-record list.  Each counter counts what its
    name says: [urls_processed] the records that have a link,
    [extractions_success] the extracted records that have a text. *)
Theorem counters_are_ordered :
  forall (World : Type) (E : Externals World) (secrets : config.Secrets)
         (query : string) (args : Namespace) (s : IO World),
  exists c raws exts s',
    _process_single_query secrets query args s = (Ok (c, raws, exts), s') /\
    extractions_success c <= urls_processed c /\
    urls_processed c <= raw_saved c /\
    raw_saved c = Z.of_nat (List.length raws) /\
    urls_processed c = count has_link raws /\
    extractions_success c = count has_text exts.
Proof.
  intros World E secrets query args s.
  destruct (process_single_query_consistent secrets query args s)
    as ([[c raws] exts] & s' & Hrun & Hcorr & Hsaved & Hurls & Htexts).
  exists c, raws, exts, s'. split; [exact Hrun|].
  pose proof (texts_among_links raws exts Hcorr).
  pose proof (count_bounds has_link raws).
  cbn in Hsaved, Hurls, Htexts. lia.
Qed.

(** ** Normalisation *)

(** The loop of [process_search_results] appends, in order, the normal form of
    the items that pass the link test. *)
Lemma fold_process_item (items : list Item) :
  forall acc, exists new,
    fold_left process_item items acc = acc ++ new /\
    Forall2 normalises (filter item_retained items) new.
Proof.
  induction items as [|it rest IH]; intros acc; simpl.
  - exists []. split; [symmetry; apply app_nil_r | constructor].
  - unfold process_item at 2, item_retained at 1.
    destruct (item_link it) as [l|] eqn:Hl.
    + destruct (link_accepted l) eqn:Hacc.
      * destruct (IH (acc ++ [{| title := get_default (item_title it) "N/A";
                                 link := l;
                                 snippet := get_default (item_snippet it) "N/A" |}]))
          as (new & Hfold & Hnew).
        eexists. split; [rewrite Hfold, <- app_assoc; reflexivity|].
        constructor; [|exact Hnew]. unfold normalises; simpl. auto.
      * apply IH.
    + apply IH.
Qed.

Lemma process_search_results_retained (r : ResultsJson) (items : list Item) :
  json_items r = Some items ->
  Forall2 normalises (filter item_retained items) (process_search_results (Some r)).
Proof.
  intros Hitems. unfold process_search_results. rewrite Hitems.
  destruct (fold_process_item items []) as (new & Hfold & Hnew).
  rewrite Hfold. exact Hnew.
Qed.

Lemma process_search_results_length (r : ResultsJson) :
  (List.length (process_search_results (Some r)) <=
   match json_items r with Some items => List.length items | None => 0 end)%nat.
Proof.
  destruct (json_items r) as [items|] eqn:Hitems.
  - rewrite <- (Forall2_length (process_search_results_retained r items Hitems)).
    apply filter_length_le.
  - unfold process_search_results. rewrite Hitems. simpl. lia.
Qed.

Lemma filter_all {A : Type} (f : A -> bool) (l : list A) :
  Forall (fun x => f x = true) l -> filter f l = l.
Proof.
  induction 1 as [|x l Hx _ IH]; simpl; [reflexivity|]. rewrite Hx, IH. reflexivity.
Qed.

(** [if stop_fetching_pages: break] *)
Lemma for_pages_stopped {World : Type} {E : Externals World} (secrets : config.Secrets)
  (query : string) (args : Namespace) (page_list : list Z) (st : QueryLocals)
  (s : IO World) :
  stop_fetching_pages st = true ->
  for_pages secrets query args page_list st s = (Ok st, s).
Proof. intros Hstop. destruct page_list; simpl; [|rewrite Hstop]; reflexivity. Qed.

Lemma counters_advance_zero (c : Counters) :
  counters_advance [] [] zero_counters c -> c = zero_counters.
Proof.
  unfold counters_advance, count, zero_counters. destruct c as [a b d]; simpl.
  intros H. f_equal; lia.
Qed.

Lemma cse_starts_extracts (x : list Event) : Forall is_extract x -> cse_starts x = [].
Proof.
  induction 1 as [|ev x Hev _ IH]; [reflexivity|].
  unfold cse_starts in *. simpl. rewrite IH. destruct ev; simpl in *; tauto.
Qed.

Lemma sleeps_extracts (x : list Event) : Forall is_extract x -> sleeps x = 0%nat.
Proof.
  induction 1 as [|ev x Hev _ IH]; [reflexivity|].
  unfold sleeps in *. simpl. destruct ev; simpl in *; tauto.
Qed.

(** C6.  When the first search call of a query (page 0, start index 1) ends
    in a network error, be it the [RequestException] that [search_google_cse]
    re-raises or the timeout it turns into [None], [_process_single_query]
    raises nothing: it returns empty raw and extracted lists and three zero
    counters, and that one request is all it did. *)
Theorem network_error_on_first_page :
  forall (World : Type) (E : Externals World) (secrets : config.Secrets)
         (query : string) (args : Namespace) (s : IO World),
    network_failure
      (fst (requests_get_cse query (num_results args) 1 (api_kwargs_of args) (world s))) ->
    exists s',
      _process_single_query secrets query args s = (Ok (zero_counters, [], []), s') /\
      trace s' = trace s ++
        (if 0 <? pages args then page_request secrets query args 0 else []).
Proof.
  intros World E secrets query args s Hfail.
  unfold _process_single_query, range, bind.
  destruct (Z.to_nat (pages args)) as [|n] eqn:Hn.
  - simpl. exists s. split; [reflexivity|].
    replace (0 <? pages args) with false by (symmetry; apply Z.ltb_ge; lia).
    symmetry; apply app_nil_r.
  - replace (0 <? pages args) with true by (symmetry; apply Z.ltb_lt; lia).
    cbn [seq map for_pages initial_locals stop_fetching_pages]. unfold bind.
    destruct (page_body_spec secrets query args 0 initial_locals s)
      as (st1 & s1 & Hrun & Heff & Hstop & x & _ & Hlen & Htrace).
    change (Z.of_nat 0) with 0. rewrite Hrun.
    assert (Hitems : page_items secrets query args 0 (world s) = []).
    { unfold page_items. destruct (has_secrets secrets); [|reflexivity].
      change (0 * num_results args + 1) with 1.
      destruct Hfail as [-> | ->]; reflexivity. }
    cbv zeta in *. rewrite Hitems in *.
    rewrite for_pages_stopped by (rewrite Hstop; reflexivity).
    destruct x as [|ev x]; [|simpl in Hlen; lia].
    destruct Heff as (Hraw & new & Hext & Hnew & Hadv).
    inversion Hnew; subst new. simpl in Hraw, Hext, Hadv.
    apply counters_advance_zero in Hadv.
    exists s1. rewrite Hraw, Hext, Hadv. split; [reflexivity|].
    rewrite Htrace, app_nil_r. reflexivity.
Qed.

(** ** Pagination *)

Lemma page_stops_short (k : Z) (items : list SearchItem) :
  Z.of_nat (List.length items) < k -> page_stops k items = true.
Proof.
  intros H. destruct items as [|x l]; [reflexivity|].
  unfold page_stops. apply Z.ltb_lt. exact H.
Qed.

Lemma page_stops_full (k : Z) (items : list SearchItem) :
  1 <= k -> k <= Z.of_nat (List.length items) -> page_stops k items = false.
Proof.
  intros Hk H. destruct items as [|x l]; [simpl in H; lia|].
  unfold page_stops. apply Z.ltb_ge. exact H.
Qed.

Lemma cse_starts_app (a b : list Event) : cse_starts (a ++ b) = cse_starts a ++ cse_starts b.
Proof. unfold cse_starts. apply flat_map_app. Qed.

Lemma cse_starts_page_request {World : Type} {E : Externals World}
  (secrets : config.Secrets) (query : string) (args : Namespace) (page : Z) :
  cse_starts (page_request secrets query args page) =
  if has_secrets secrets then [page * num_results args + 1] else [].
Proof. unfold page_request. destruct (has_secrets secrets); reflexivity. Qed.

Lemma page_items_short {World : Type} {E : Externals World}
  (secrets : config.Secrets) (query : string) (args : Namespace) (page : Z) (w : World) :
  page_returns query args page
    (fun items => Z.of_nat (List.length items) < num_results args) ->
  page_stops (num_results args) (page_items secrets query args page w) = true.
Proof.
  intros H. unfold page_items. destruct (has_secrets secrets); [|reflexivity].
  destruct (H w) as (items & -> & Hlen). cbn [normalized_page json_has_error].
  apply page_stops_short.
  pose proof (process_search_results_length
                {| json_has_error := false; json_items := Some items |}) as Hle.
  cbn [json_items] in Hle. lia.
Qed.

Lemma page_items_full {World : Type} {E : Externals World}
  (secrets : config.Secrets) (query : string) (args : Namespace) (page : Z) (w : World) :
  has_secrets secrets = true ->
  1 <= num_results args ->
  page_returns query args page
    (fun items => Z.of_nat (List.length items) = num_results args) ->
  page_returns query args page (Forall (fun it => item_retained it = true)) ->
  page_stops (num_results args) (page_items secrets query args page w) = false.
Proof.
  intros Hsec Hk Hlen Hall. unfold page_items. rewrite Hsec.
  destruct (Hlen w) as (items & Heq & Hn). destruct (Hall w) as (items' & Heq' & Hret).
  rewrite Heq in Heq'. injection Heq' as <-. rewrite Heq.
  cbn [normalized_page json_has_error].
  apply page_stops_full; [exact Hk|].
  rewrite <- (Forall2_length
    (process_search_results_retained
       {| json_has_error := false; json_items := Some items |} items eq_refl)).
  rewrite (filter_all _ _ Hret). lia.
Qed.

Lemma firstn_starts_step (k p : Z) :
  0 <= p <= 2 ->
  firstn (Z.to_nat p) [1; k + 1; 2 * k + 1; 3 * k + 1] ++ [p * k + 1] =
  firstn (Z.to_nat (p + 1)) [1; k + 1; 2 * k + 1; 3 * k + 1].
Proof.
  intros Hp. assert (Hcases : p = 0 \/ p = 1 \/ p = 2) by lia.
  destruct Hcases as [-> | [-> | ->]].
  - change (Z.to_nat 0) with 0%nat. change (Z.to_nat (0 + 1)) with 1%nat.
    cbn [firstn app]. repeat f_equal.
  - change (Z.to_nat 1) with 1%nat. change (Z.to_nat (1 + 1)) with 2%nat.
    cbn [firstn app]. repeat f_equal. lia.
  - change (Z.to_nat 2) with 2%nat. change (Z.to_nat (2 + 1)) with 3%nat.
    cbn [firstn app]. repeat f_equal.
Qed.

(** C1.  The rule: a page whose normalised result list is shorter than the
    page size sets [stop_fetching_pages], and from then on the page loop does
    nothing, whatever pages remain.  The scenario: page size [k >= 1], more
    than 4 pages allowed, and a provider that returns exactly [k] items for
    pages 0..2 and [k - 1] items for page 3; then every CSE request of the
    query is for a page of index at most 3 (start index at most [3 * k + 1]),
    and when the secrets are set and the items of pages 0..2 all pass the
    link test, the requests are exactly those for pages 0, 1, 2 and 3. *)
Theorem short_page_ends_pagination :
  forall (World : Type) (E : Externals World) (secrets : config.Secrets)
         (query : string) (args : Namespace),
    (forall (page : Z) (st : QueryLocals) (s : IO World),
       Z.of_nat (List.length (page_items secrets query args page (world s)))
         < num_results args ->
       exists st' s',
         page_body secrets query args page st s = (Ok st', s') /\
         stop_fetching_pages st' = true /\
         forall rest, for_pages secrets query args rest st' s' = (Ok st', s')) /\
    (forall s : IO World,
       1 <= num_results args ->
       4 < pages args ->
       (forall p, 0 <= p <= 2 ->
          page_returns query args p
            (fun items => Z.of_nat (List.length items) = num_results args)) ->
       page_returns query args 3
         (fun items => Z.of_nat (List.length items) = num_results args - 1) ->
       exists res s' new,
         _process_single_query secrets query args s = (Ok res, s') /\
         trace s' = trace s ++ new /\
         Forall (fun start => start <= 3 * num_results args + 1) (cse_starts new) /\
         (has_secrets secrets = true ->
          (forall p, 0 <= p <= 2 ->
             page_returns query args p (Forall (fun it => item_retained it = true))) ->
          cse_starts new =
            [1; num_results args + 1; 2 * num_results args + 1;
             3 * num_results args + 1])).
Proof.
  intros World E secrets query args. split.
  { intros page st s Hlt.
    destruct (page_body_spec secrets query args page st s)
      as (st' & s' & Hrun & _ & Hstop & _).
    cbv zeta in Hstop. rewrite (page_stops_short _ _ Hlt), orb_true_r in Hstop.
    exists st', s'. split; [exact Hrun|]. split; [exact Hstop|].
    intros rest. apply for_pages_stopped. exact Hstop. }
  intros s Hk Hpages Hfull Hshort.
  set (k := num_results args) in *.
  set (four := [1; k + 1; 2 * k + 1; 3 * k + 1]).
  set (X := has_secrets secrets = true /\
            forall p, 0 <= p <= 2 ->
              page_returns query args p (Forall (fun it => item_retained it = true))).
  set (I := fun (p : Z) (st : QueryLocals) (s' : IO World) =>
    exists new, trace s' = trace s ++ new /\
      Forall (fun start => start <= 3 * k + 1) (cse_starts new) /\
      (3 < p -> stop_fetching_pages st = true) /\
      (X -> (stop_fetching_pages st = true -> cse_starts new = four) /\
            (stop_fetching_pages st = false ->
               p <= 3 /\ cse_starts new = firstn (Z.to_nat p) four))).
  assert (Hloop : returns
            (for_pages secrets query args (map Z.of_nat (seq 0 (Z.to_nat (pages args))))
               initial_locals) s
            (fun st' s' => exists p, Z.of_nat 0 <= p <= Z.of_nat (0 + Z.to_nat (pages args)) /\
                                     I p st' s' /\
                                     (p < Z.of_nat (0 + Z.to_nat (pages args)) ->
                                      stop_fetching_pages st' = true))).
  { apply (for_pages_inv secrets query args I).
    - intros p st s1 Hp0 (new & Htr & Hbound & Hlate & Hexact) Hgo.
      assert (Hp3 : p <= 3).
      { destruct (Z_le_gt_dec p 3) as [H|H]; [exact H|].
        rewrite Hlate in Hgo by lia. discriminate. }
      eapply returns_weaken; [apply page_body_spec|].
      intros st' s2 (_ & Hstop & x & Hx & _ & Htr2). cbv zeta in Hstop.
      rewrite Hgo, orb_false_l in Hstop.
      exists (new ++ page_request secrets query args p ++ x).
      assert (Hstarts : cse_starts (new ++ page_request secrets query args p ++ x) =
                        cse_starts new ++
                        (if has_secrets secrets then [p * k + 1] else [])).
      { rewrite !cse_starts_app, cse_starts_page_request, (cse_starts_extracts x Hx),
          app_nil_r. reflexivity. }
      split; [rewrite Htr2, Htr, <- app_assoc; reflexivity|].
      split; [|split].
      + rewrite Hstarts. apply Forall_app. split; [exact Hbound|].
        destruct (has_secrets secrets); constructor; [nia | constructor].
      + intros H3. assert (p = 3) as -> by lia. rewrite Hstop.
        apply page_items_short. intros w. destruct (Hshort w) as (items & Heq & Hlen).
        exists items. split; [exact Heq | fold k; lia].
      + intros HX. destruct (Hexact HX) as (_ & Hnot). destruct (Hnot Hgo) as (_ & Hfirst).
        destruct HX as (Hsec & Hall).
        rewrite Hstarts, Hsec, Hfirst, Hstop.
        destruct (Z.eq_dec p 3) as [->|Hne].
        * rewrite (page_items_short secrets query args 3 (world s1)).
          2:{ intros w. destruct (Hshort w) as (items & Heq & Hlen).
              exists items. split; [exact Heq | fold k; lia]. }
          split; [intros _; reflexivity | discriminate].
        * rewrite (page_items_full secrets query args p (world s1) Hsec Hk)
            by (first [apply Hfull | apply Hall]; lia).
          split; [discriminate|]. intros _. split; [lia|].
          apply firstn_starts_step. lia.
    - exists []. split; [symmetry; apply app_nil_r|]. split; [constructor|].
      split; [simpl; lia|]. intros _. split; [discriminate|].
      intros _. split; [simpl; lia | reflexivity]. }
  destruct Hloop as (st' & s' & Hrun & p & Hp & (new & Htr & Hbound & Hlate & Hexact) & Hend).
  exists (counters st', raw_results_for_query st', extracted_results_for_query st'), s', new.
  split.
  { unfold _process_single_query, range, bind. rewrite Hrun. reflexivity. }
  split; [exact Htr|]. split; [exact Hbound|].
  intros Hsec Hall.
  assert (Hstop : stop_fetching_pages st' = true).
  { destruct (Z_lt_ge_dec p (Z.of_nat (0 + Z.to_nat (pages args)))) as [H|H].
    - apply Hend. exact H.
    - apply Hlate. lia. }
  apply (proj1 (Hexact (conj Hsec Hall))). exact Hstop.
Qed.

(** ** Ranks *)

Lemma enumerate_from_app {A : Type} (l : list A) (x : A) :
  forall a, enumerate_from a (l ++ [x]) =
            enumerate_from a l ++ [(a + Z.of_nat (List.length l), x)].
Proof.
  induction l as [|y l IH]; intros a; cbn [app enumerate_from List.length].
  - rewrite Z.add_0_r. reflexivity.
  - rewrite IH, Nat2Z.inj_succ. do 4 f_equal. lia.
Qed.

Lemma query_raws_snoc (query : string) (k : Z) (pls : list (list SearchItem))
  (items : list SearchItem) :
  query_raws query k 0 (pls ++ [items]) =
  query_raws query k 0 pls ++
  page_raws query (Z.of_nat (List.length pls))
    (Z.of_nat (List.length pls) * k + 1) 0 items.
Proof.
  unfold query_raws. rewrite enumerate_from_app, flat_map_app. simpl.
  rewrite app_nil_r. reflexivity.
Qed.

Lemma sorted_app (l1 l2 : list Z) :
  StronglySorted Z.lt l1 -> StronglySorted Z.lt l2 ->
  (forall x y, In x l1 -> In y l2 -> x < y) ->
  StronglySorted Z.lt (l1 ++ l2).
Proof.
  intros H1 H2 Hlt. induction H1 as [|x l1 Hs IH Hx]; simpl; [exact H2|].
  constructor.
  - apply IH. intros a b Ha Hb. apply Hlt; [right; exact Ha | exact Hb].
  - apply Forall_app. split; [exact Hx|].
    apply Forall_forall. intros y Hy. apply Hlt; [left; reflexivity | exact Hy].
Qed.

Lemma page_ranks_sorted (query : string) (page start_index : Z) (items : list SearchItem) :
  forall i,
    StronglySorted Z.lt (ranks (page_raws query page start_index i items)) /\
    Forall (fun r => start_index + i <= r < start_index + i + Z.of_nat (List.length items))
           (ranks (page_raws query page start_index i items)).
Proof.
  unfold ranks, page_raws.
  induction items as [|it rest IH]; intros i; simpl; [split; constructor|].
  destruct (IH (i + 1)) as (Hs & Hb). split.
  - constructor; [exact Hs|]. eapply Forall_impl; [|exact Hb]. simpl. intros r Hr. lia.
  - constructor; [lia|]. eapply Forall_impl; [|exact Hb]. simpl. intros r Hr. lia.
Qed.

Lemma query_ranks_sorted (query : string) (k : Z) (pls : list (list SearchItem)) :
  forall p0, 0 <= p0 ->
    Forall (fun its => Z.of_nat (List.length its) <= k) pls ->
    StronglySorted Z.lt (ranks (query_raws query k p0 pls)) /\
    Forall (fun r => p0 * k < r) (ranks (query_raws query k p0 pls)).
Proof.
  unfold ranks, query_raws.
  induction pls as [|its rest IH]; intros p0 Hp0 Hle; simpl; [split; constructor|].
  inversion Hle as [|? ? Hits Hrest]; subst.
  destruct (IH (p0 + 1) ltac:(lia) Hrest) as (Hs & Hb).
  destruct (page_ranks_sorted query p0 (p0 * k + 1) its 0) as (Hps & Hpb).
  unfold ranks in *. rewrite map_app. split.
  - apply sorted_app; [exact Hps | exact Hs|].
    intros x y Hx Hy.
    pose proof (proj1 (Forall_forall _ _) Hpb x Hx) as Hx'.
    pose proof (proj1 (Forall_forall _ _) Hb y Hy) as Hy'.
    simpl in Hx', Hy'. nia.
  - apply Forall_app. split.
    + eapply Forall_impl; [|exact Hpb]. simpl. intros r Hr. lia.
    + eapply Forall_impl; [|exact Hb]. simpl. intros r Hr.
      assert (0 <= k) by lia. nia.
Qed.

Lemma first_rank_is_one (query : string) (k : Z) (pls : list (list SearchItem)) (r : RawRecord) :
  Forall (full_page k) (removelast pls) ->
  hd_error (query_raws query k 0 pls) = Some r ->
  raw_approx_rank r = 1.
Proof.
  unfold query_raws. destruct pls as [|its rest]; [discriminate|].
  intros Hfull. cbn [enumerate_from flat_map fst snd].
  destruct its as [|it its].
  - destruct rest as [|its' rest]; [discriminate|].
    cbn [removelast] in Hfull. inversion Hfull as [|? ? [Hne _] _]. congruence.
  - unfold page_raws. simpl. intros [= <-]. simpl. lia.
Qed.

Lemma page_stops_false_full (k : Z) (items : list SearchItem) :
  page_stops k items = false -> full_page k items.
Proof.
  destruct items as [|x l]; [discriminate|]. unfold page_stops. intros H.
  apply Z.ltb_ge in H. split; [discriminate | exact H].
Qed.

Lemma corresponds_ranks (raws : list RawRecord) (exts : list ExtractedRecord) :
  Forall2 corresponds raws exts -> map ext_approx_rank exts = ranks raws.
Proof.
  induction 1 as [|r e raws exts Hc _ IH]; simpl; [reflexivity|].
  rewrite IH. f_equal. apply Hc.
Qed.

Lemma page_items_bounded {World : Type} {E : Externals World}
  (secrets : config.Secrets) (query : string) (args : Namespace) (page : Z) (w : World) :
  provider_honours_page_size query args ->
  Z.of_nat (List.length (page_items secrets query args page w)) <= num_results args \/
  page_items secrets query args page w = [].
Proof.
  intros H. unfold page_items. destruct (has_secrets secrets); [|right; reflexivity].
  destruct (fst (requests_get_cse query (num_results args) (page * num_results args + 1)
                   (api_kwargs_of args) w)) as [| | |results] eqn:Ho;
    try (right; reflexivity).
  cbn [normalized_page]. destruct (json_has_error results); [right; reflexivity|].
  pose proof (process_search_results_length results) as Hlen.
  destruct (json_items results) as [items|] eqn:Hitems.
  - left. specialize (H w _ results items Ho Hitems). lia.
  - right. destruct (process_search_results (Some results)); [reflexivity | simpl in Hlen; lia].
Qed.

(** C3, amended.  The raw records of a query are those of its pages 0, 1, ...
    in order, item [i] of page [p] having [approx_rank = p * page_size + i + 1]
    (and [search_page = p + 1]); the extracted records carry the same ranks;
    the first record, when there is one, has rank 1; and when no response of
    the provider holds more items than the page size asked for, the ranks are
    strictly increasing. *)
Theorem approx_rank_formula :
  forall (World : Type) (E : Externals World) (secrets : config.Secrets)
         (query : string) (args : Namespace) (s : IO World),
  exists c raws exts s' pls,
    _process_single_query secrets query args s = (Ok (c, raws, exts), s') /\
    raws = query_raws query (num_results args) 0 pls /\
    map ext_approx_rank exts = ranks raws /\
    (forall r, hd_error raws = Some r -> raw_approx_rank r = 1) /\
    (provider_honours_page_size query args -> StronglySorted Z.lt (ranks raws)).
Proof.
  intros World E secrets query args s.
  set (k := num_results args).
  set (I := fun (p : Z) (st : QueryLocals) (_ : IO World) =>
    locals_consistent st /\
    exists pls,
      raw_results_for_query st = query_raws query k 0 pls /\
      Forall (full_page k) (removelast pls) /\
      (stop_fetching_pages st = false ->
         Z.of_nat (List.length pls) = p /\ Forall (full_page k) pls) /\
      (provider_honours_page_size query args ->
         Forall (fun its => Z.of_nat (List.length its) <= k) pls)).
  assert (Hloop : returns
            (for_pages secrets query args (map Z.of_nat (seq 0 (Z.to_nat (pages args))))
               initial_locals) s
            (fun st' s' => exists p, Z.of_nat 0 <= p <= Z.of_nat (0 + Z.to_nat (pages args)) /\
                                     I p st' s' /\
                                     (p < Z.of_nat (0 + Z.to_nat (pages args)) ->
                                      stop_fetching_pages st' = true))).
  { apply (for_pages_inv secrets query args I).
    - intros p st s1 Hp0 (Hcons & pls & Hraws & Hinit & Hgoing & Hhon) Hgo.
      destruct (Hgoing Hgo) as (Hlen & Hfull).
      eapply returns_weaken; [apply page_body_spec|].
      intros st' s2 (Heff & Hstop & _). cbv zeta in Heff, Hstop.
      rewrite Hgo, orb_false_l in Hstop.
      split; [eapply locals_consistent_page; eassumption|].
      destruct Heff as (Hraws' & _).
      destruct (page_items secrets query args p (world s1)) as [|it items] eqn:Hitems.
      + exists pls. split.
        { rewrite Hraws', Hraws. unfold page_raws. simpl. apply app_nil_r. }
        split; [exact Hinit|]. split; [|exact Hhon].
        rewrite Hstop. discriminate.
      + exists (pls ++ [it :: items]). split.
        { rewrite Hraws', Hraws, query_raws_snoc, Hlen. reflexivity. }
        split; [rewrite removelast_last; exact Hfull|]. split.
        * intros Hgo'. rewrite Hstop in Hgo'. split.
          -- rewrite length_app. simpl. lia.
          -- apply Forall_app. split; [exact Hfull|].
             constructor; [|constructor]. apply page_stops_false_full. exact Hgo'.
        * intros H. apply Forall_app. split; [apply Hhon; exact H|].
          constructor; [|constructor].
          destruct (page_items_bounded secrets query args p (world s1) H) as [Hle|Hnil];
            rewrite Hitems in *; [exact Hle | discriminate].
    - split; [apply locals_consistent_initial|]. exists []. split; [reflexivity|].
      split; [constructor|]. split; [|intros _; constructor].
      intros _. split; [reflexivity | constructor]. }
  destruct Hloop as (st' & s' & Hrun & p & _ & (Hcons & pls & Hraws & Hinit & _ & Hhon) & _).
  exists (counters st'), (raw_results_for_query st'), (extracted_results_for_query st'), s', pls.
  split.
  { unfold _process_single_query, range, bind. rewrite Hrun. reflexivity. }
  split; [exact Hraws|].
  split; [apply corresponds_ranks, Hcons|].
  split.
  - intros r Hr. rewrite Hraws in Hr. eapply first_rank_is_one; eassumption.
  - intros H. rewrite Hraws.
    apply (query_ranks_sorted query k pls 0 ltac:(lia) (Hhon H)).
Qed.

(** ** Flushing a batch *)

Section flush_facts.
Context {World : Type} {E : Externals World}.

(** Writing the records of a batch: one write attempt per record, in order,
    whatever the earlier attempts did. *)
Lemma write_records_from (path : string) (records : list JsonlRecord) :
  forall (count : Z) (s : IO World),
  exists n s',
    for_each
      (fun record saved_count =>
         written <- save_jsonl_record path record ;;
         ret (if written : bool then saved_count + 1 else saved_count))
      records count s = (Ok n, s') /\
    trace s' = trace s ++ map (EvWrite path) records /\
    count <= n <= count + Z.of_nat (List.length records).
Proof.
  induction records as [|record rest IH]; intros count s.
  - exists count, s. split; [reflexivity|]. split; [symmetry; apply app_nil_r|].
    simpl. lia.
  - cbn [for_each]. unfold bind at 1 2, save_jsonl_record, call, ret.
    destruct (dump_and_write path record (world s)) as [written w].
    match goal with
    | |- context [for_each ?f rest ?c ?i] =>
        destruct (IH c i) as (n & s' & Hrun & Htr & Hn)
    end.
    exists n, s'. split; [exact Hrun|]. split.
    + rewrite Htr. simpl. rewrite <- app_assoc. reflexivity.
    + cbn [List.length]. rewrite Nat2Z.inj_succ. destruct written; lia.
Qed.

(** A flush never raises; it opens the file and, when that succeeds, attempts
    every write and closes it. *)
Lemma flush_spec (path : string) (records : list JsonlRecord)
  (add_lines : Z -> RunLocals -> RunLocals) (r : Run World) :
  exists saved_count r',
    flush path records add_lines r = (Ok saved_count, r') /\
    trace (io r') =
      trace (io r) ++ flush_events path records (fst (open_w path (world (io r)))) /\
    (locals r' = locals r \/ locals r' = add_lines saved_count (locals r)).
Proof.
  unfold flush, flush_events, bind, lift_io, call.
  destruct (open_w path (world (io r))) as [opened w1]. cbn [fst io locals world trace].
  destruct opened.
  - unfold write_records.
    match goal with
    | |- context [for_each ?f ?l ?c ?i] =>
        destruct (write_records_from path l c i) as (n & s1 & Hrun & Htr & _)
    end.
    rewrite Hrun. cbn [io locals world trace] in Htr |- *.
    destruct (close_file path (world s1)) as [closed w2].
    destruct closed; unfold update_locals, modify, ret; cbn [io locals world trace];
      eexists _, _; (split; [reflexivity|]); cbn [io trace locals];
      (split; [rewrite Htr, <- !app_assoc; reflexivity | auto]).
  - unfold ret. eexists _, _. split; [reflexivity|]. split; [reflexivity | auto].
Qed.

End flush_facts.

(** C7.  The two flushes of a batch never raise, whatever [open], the writes
    and the closing of either file do.  The raw file is opened first; then,
    in whatever state the raw flush left the world, the extracted file is
    opened, and when that [open] succeeds a write is attempted for every
    extracted record (and likewise for the raw file and the raw records).
    What follows the flushes in the iteration is decided by the lengths of
    the two record lists alone, not by how many lines were saved. *)
Theorem batch_flushes_are_independent :
  forall (World : Type) (E : Externals World) (args : Namespace) (batch_index : Z)
         (raws : list RawRecord) (exts : list ExtractedRecord) (r : Run World),
  let raw_file := batch_filename (search_output_base args) batch_index in
  let extracted_file := batch_filename (extracted_output_base args) batch_index in
  exists raw_saved_count mid extracted_saved_count r',
    flush raw_file (map JRaw raws) add_lines_raw r = (Ok raw_saved_count, mid) /\
    flush extracted_file (map JExtracted exts) add_lines_extracted mid
      = (Ok extracted_saved_count, r') /\
    save_batch args batch_index raws exts r
      = (Ok (raw_saved_count, extracted_saved_count), r') /\
    trace (io mid) =
      trace (io r) ++
      flush_events raw_file (map JRaw raws) (fst (open_w raw_file (world (io r)))) /\
    trace (io r') =
      trace (io mid) ++
      flush_events extracted_file (map JExtracted exts)
        (fst (open_w extracted_file (world (io mid)))) /\
    (forall (saved_raw saved_extracted : Z) (after : Run World),
       log_saved_ratios saved_raw saved_extracted raws exts after =
       (if (Z.of_nat (List.length raws) =? 0) || (Z.of_nat (List.length exts) =? 0)
        then Raise ZeroDivisionError else Ok tt, after)).
Proof.
  intros World E args batch_index raws exts r raw_file extracted_file.
  destruct (flush_spec raw_file (map JRaw raws) add_lines_raw r)
    as (rc & mid & Hraw & Htr1 & _).
  destruct (flush_spec extracted_file (map JExtracted exts) add_lines_extracted mid)
    as (ec & r' & Hext & Htr2 & _).
  exists rc, mid, ec, r'. split; [exact Hraw|]. split; [exact Hext|].
  split.
  { unfold save_batch, bind. fold raw_file extracted_file. rewrite Hraw, Hext.
    reflexivity. }
  split; [exact Htr1|]. split; [exact Htr2|].
  intros saved_raw saved_extracted after.
  unfold log_saved_ratios, truediv, bind, raise, ret.
  destruct (Z.of_nat (List.length raws) =? 0); [reflexivity|].
  destruct (Z.of_nat (List.length exts) =? 0); reflexivity.
Qed.

(** ** Batches *)

Lemma firstn_add {A : Type} (x y : nat) (l : list A) :
  firstn (x + y) l = firstn x l ++ firstn y (skipn x l).
Proof.
  revert l. induction x as [|x IH]; intros l; simpl; [reflexivity|].
  destruct l as [|a l]; simpl; [now rewrite firstn_nil|]. rewrite IH. reflexivity.
Qed.

Lemma skipn_add {A : Type} (x y : nat) (l : list A) :
  skipn y (skipn x l) = skipn (x + y) l.
Proof.
  revert l. induction x as [|x IH]; intros l; simpl; [reflexivity|].
  destruct l as [|a l]; simpl; [now rewrite skipn_nil|]. apply IH.
Qed.

Lemma concat_slices {A : Type} (data : list A) (b : nat) (n : nat) :
  forall a : nat,
    List.concat (map (fun i => firstn b (skipn i data)) (map (fun j => j * b)%nat (seq a n)))
    = firstn (n * b) (skipn (a * b) data).
Proof.
  induction n as [|n IH]; intros a; simpl; [reflexivity|].
  rewrite IH, firstn_add, skipn_add. do 3 f_equal. lia.
Qed.

(** The batches are consecutive slices that together make up the data. *)
Lemma batch_generator_concat {A : Type} (data : list A) (batch_size : Z)
  (batches : list (list A)) :
  1 <= batch_size ->
  batch_generator data batch_size = Ok batches ->
  List.concat batches = data.
Proof.
  intros Hb. unfold batch_generator, range_step.
  destruct (Z.eqb_spec batch_size 0) as [|_]; [lia|].
  destruct (Z.ltb_spec batch_size 0) as [|_]; [lia|].
  intros [= <-]. rewrite map_map.
  set (b := Z.to_nat batch_size).
  set (n := Z.to_nat ((Z.of_nat (List.length data) + batch_size - 1) / batch_size)).
  rewrite (map_ext _ (fun j : nat => firstn b (skipn (j * b) data))).
  2:{ intros j. unfold slice. f_equal; [|f_equal]; subst b; nia. }
  rewrite <- (map_map (fun j => (j * b)%nat) (fun i => firstn b (skipn i data))).
  rewrite concat_slices. simpl. apply firstn_all2.
  assert (Hn : Z.of_nat (List.length data) <= Z.of_nat n * batch_size).
  { subst n. rewrite Z2Nat.id.
    - pose proof (Z.mul_div_le (Z.of_nat (List.length data) + batch_size - 1) batch_size
                    ltac:(lia)).
      pose proof (Z.mod_pos_bound (Z.of_nat (List.length data) + batch_size - 1) batch_size
                    ltac:(lia)).
      pose proof (Z.div_mod (Z.of_nat (List.length data) + batch_size - 1) batch_size
                    ltac:(lia)).
      nia.
    - apply Z.div_pos; lia. }
  subst b. nia.
Qed.

Example batches_of_23_by_10 :
  match batch_generator (seq 0 23) 10 with
  | Ok batches => map (@List.length nat) batches = [10; 10; 3]%nat
  | Raise _ => False
  end.
Proof. reflexivity. Qed.

(** The help text of [--search-output-base]: ['out/raw' -> out/raw_batches/raw_1.jsonl]. *)
Example batch_filename_of_help_text :
  batch_filename "out/raw" 0 = "out/raw_batches/raw_1.jsonl".
Proof. reflexivity. Qed.

(** A base path without a directory goes under ['.']. *)
Example batch_filename_without_directory :
  batch_filename "raw" 11 = "./raw_batches/raw_12.jsonl".
Proof. reflexivity. Qed.

(** ** The run *)

Lemma ends_returns {S A : Type} (m : M S A) (s : S) (P : A -> S -> Prop)
  (Q : result A -> S -> Prop) :
  returns m s P -> (forall a s', P a s' -> Q (Ok a) s') -> ends m s Q.
Proof. intros (a & s' & Hm & HP) H. unfold ends. rewrite Hm. apply H, HP. Qed.

Lemma ends_bind {S A B : Type} (m : M S A) (k : A -> M S B) (s : S)
  (Q : result B -> S -> Prop) :
  ends m s (fun res s' => match res with
                          | Ok a => ends (k a) s' Q
                          | Raise e => Q (Raise e) s'
                          end) ->
  ends (bind m k) s Q.
Proof.
  unfold ends, bind. destruct (m s) as [[a|e] s']; simpl; intros H; exact H.
Qed.

Lemma sleeps_app (a b : list Event) : sleeps (a ++ b) = (sleeps a + sleeps b)%nat.
Proof. unfold sleeps. rewrite filter_app, length_app. reflexivity. Qed.

(** ** The claims on concrete runs *)

(** C8 as stated fails: a link that is only a scheme passes the prefix test
    and its item is retained, though it is no URL. *)
Lemma scheme_only_link_is_retained :
  process_search_results
    (Some {| json_has_error := false;
             json_items := Some [ {| item_title := Some "T";
                                     item_link := Some "http://";
                                     item_snippet := None |} ] |})
  = [ {| title := "T"; link := "http://"; snippet := "N/A" |} ] /\
  spec_valid_http_url "http://" = false.
Proof. split; reflexivity. Qed.

(** C8, amended.  [process_search_results] keeps, in order, exactly the items
    whose link is present and passes [link_accepted] (non-empty, and starting
    with [http://] or [https://]) and drops every other item.  In the spec's
    end-to-end example (items A and B, page size 10, one page, secrets set)
    the query yields one raw record, that of item A, one extracted record
    that corresponds to it, and makes one CSE request, however many pages
    are allowed. *)
Theorem normalisation_keeps_prefixed_links :
  forall (World : Type) (E : Externals World) (secrets : config.Secrets)
         (args : Namespace) (s : IO World),
    (forall r items,
       json_items r = Some items ->
       Forall2 normalises (filter item_retained items) (process_search_results (Some r))) /\
    (has_secrets secrets = true ->
     num_results args = 10 ->
     1 <= pages args ->
     fst (requests_get_cse "test" 10 1 (api_kwargs_of args) (world s))
       = HttpJson Scenario.example_response ->
     exists c e s',
       _process_single_query secrets "test" args s = (Ok (c, [Scenario.raw_A], [e]), s') /\
       corresponds Scenario.raw_A e /\
       raw_saved c = 1 /\
       cse_starts (trace s') = cse_starts (trace s) ++ [1]).
Proof.
  intros World E secrets args s. split; [apply process_search_results_retained|].
  intros Hsec Hk Hpages Hresp.
  destruct (page_body_spec secrets "test" args 0 initial_locals s)
    as (st & s' & Hrun & Heff & Hstop & x & Hx & _ & Htr).
  cbv zeta in Heff, Hstop.
  assert (Hitems : page_items secrets "test" args 0 (world s) =
                   [ {| title := "A"; link := "https://a.example"; snippet := "s1" |} ]).
  { unfold page_items. rewrite Hsec, Hk. change (0 * 10 + 1) with 1. rewrite Hresp.
    reflexivity. }
  rewrite Hitems, Hk in Heff. rewrite Hitems, Hk in Hstop.
  destruct Heff as (Hraw & new & Hext & Hnew & Hadv).
  destruct new as [|e new]; [inversion Hnew|].
  destruct new as [|e' new]; [|inversion Hnew as [|? ? ? ? _ Hrest]; inversion Hrest].
  assert (Hc : corresponds Scenario.raw_A e) by (inversion Hnew; assumption).
  cbn in Hraw, Hext.
  exists (counters st), e, s'. split.
  - unfold _process_single_query, range.
    destruct (Z.to_nat (pages args)) as [|n] eqn:Hn; [lia|].
    cbn [seq map for_pages initial_locals stop_fetching_pages].
    unfold bind. change (Z.of_nat 0) with 0. rewrite Hrun.
    rewrite for_pages_stopped by exact Hstop.
    unfold ret. rewrite Hraw, Hext. reflexivity.
  - split; [exact Hc|]. split.
    + destruct Hadv as (Hsaved & _). simpl in Hsaved. exact Hsaved.
    + rewrite Htr, !cse_starts_app, cse_starts_page_request, Hsec,
        (cse_starts_extracts x Hx), app_nil_r, Hk.
      reflexivity.
Qed.

(** C8 on a concrete run: the end-to-end example, page size 10 and one page. *)
Lemma normalisation_example :
  exists c e s',
    @_process_single_query unit Scenario.example_provider Scenario.secrets "test"
      (parse_arguments (Scenario.command_line 1 10 10)) Scenario.start_of_run
      = (Ok (c, [Scenario.raw_A], [e]), s') /\
    corresponds Scenario.raw_A e /\
    raw_saved c = 1 /\
    cse_starts (trace s') = cse_starts (trace Scenario.start_of_run) ++ [1].
Proof.
  apply (normalisation_keeps_prefixed_links unit Scenario.example_provider
           Scenario.secrets (parse_arguments (Scenario.command_line 1 10 10))
           Scenario.start_of_run); reflexivity.
Defined.

(** C1 on a concrete run: page size 2, six pages allowed; pages 0, 1, 2 and 3 are
    fetched, pages 4 and 5 are not. *)
Lemma short_page_example :
  exists res s',
    @_process_single_query unit Scenario.three_full_pages Scenario.secrets "q"
      (parse_arguments (Scenario.command_line 6 2 10)) Scenario.start_of_run
      = (Ok res, s') /\
    cse_starts (trace s') = [1; 3; 5; 7].
Proof.
  destruct (proj2 (short_page_ends_pagination unit Scenario.three_full_pages
                     Scenario.secrets "q"
                     (parse_arguments (Scenario.command_line 6 2 10)))
              Scenario.start_of_run)
    as (res & s' & new & Hrun & Htrace & _ & Hexact).
  - simpl; lia.
  - simpl; lia.
  - intros p Hp w. cbn. destruct (Z.leb_spec (p * 2 + 1) 6); [|lia].
    eexists. split; reflexivity.
  - intros w. eexists. split; reflexivity.
  - exists res, s'. split; [exact Hrun|]. rewrite Htrace. apply Hexact; [reflexivity|].
    intros p Hp w. cbn. destruct (Z.leb_spec (p * 2 + 1) 6); [|lia].
    eexists. split; [reflexivity|]. repeat constructor.
Defined.

(** C6 on a concrete run: the provider is unreachable. *)
Lemma network_error_example :
  exists s',
    @_process_single_query unit (Scenario.network_down ["q1"]) Scenario.secrets "q1"
      (parse_arguments Scenario.only_query_column) Scenario.start_of_run
      = (Ok (zero_counters, [], []), s') /\
    trace s' = [EvCseRequest "q1" 10 1 None].
Proof.
  apply (network_error_on_first_page unit (Scenario.network_down ["q1"]) Scenario.secrets
           "q1" (parse_arguments Scenario.only_query_column) Scenario.start_of_run).
  left. reflexivity.
Defined.

(** C3 as stated fails: with page size 1 and a provider that returns two
    results per request, two pages give the ranks 1, 2, 2, 3. *)
Lemma ranks_repeat_after_an_overfull_page :
  exists c raws exts s',
    @_process_single_query unit Scenario.two_results_always Scenario.secrets "q"
      (parse_arguments (Scenario.command_line 2 1 10)) Scenario.start_of_run
      = (Ok (c, raws, exts), s') /\
    ranks raws = [1; 2; 2; 3] /\
    ~ StronglySorted Z.lt (ranks raws).
Proof.
  eexists _, _, _, _. split; [vm_compute; reflexivity|]. split; [reflexivity|].
  intros H. cbn in H. inversion H as [|? ? Hss _]; subst.
  inversion Hss as [|? ? _ Hall]; subst.
  inversion Hall as [|? ? H22 _]; subst. lia.
Qed.

(** C3 on a concrete run: a provider that honours the page size. *)
Lemma ranks_increase_example :
  exists c raws exts s',
    @_process_single_query unit Scenario.three_full_pages Scenario.secrets "q"
      (parse_arguments (Scenario.command_line 6 2 10)) Scenario.start_of_run
      = (Ok (c, raws, exts), s') /\
    StronglySorted Z.lt (ranks raws).
Proof.
  destruct (approx_rank_formula unit Scenario.three_full_pages Scenario.secrets "q"
              (parse_arguments (Scenario.command_line 6 2 10)) Scenario.start_of_run)
    as (c & raws & exts & s' & pls & Hrun & _ & _ & _ & Hsorted).
  exists c, raws, exts, s'. split; [exact Hrun|]. apply Hsorted.
  intros w start results items Hres Hitems. cbn in Hres.
  destruct (start <=? 6); injection Hres as <-; injection Hitems as <-; simpl; lia.
Defined.

(** C5, as the code has it: with only [--query-column] on the command line,
    [--search-output-base] is [results/extracted_text] and
    [--extracted-output-base] is [results/raw_search]. *)
Theorem default_output_bases :
  search_output_base (parse_arguments Scenario.only_query_column) = "results/extracted_text" /\
  extracted_output_base (parse_arguments Scenario.only_query_column) = "results/raw_search".
Proof. split; reflexivity. Qed.

(** C4, as the code has it: two queries in batches of one, every search
    call failing with a network error.  The first batch collects no record,
    the division in its last log line raises [ZeroDivisionError], and the
    run ends there: the second query is never searched. *)
Theorem empty_batch_ends_the_run :
  exists s',
    @run_process unit (Scenario.network_down ["q1"; "q2"]) Scenario.secrets
      (parse_arguments (Scenario.command_line 1 10 1)) Scenario.start_of_run
    = (Ok (Some {| processed_queries := 1;
                   total_queries := 2;
                   summary_counters := zero_counters;
                   written_raw := 0;
                   written_extracted := 0;
                   raw_batches_in := "results/extracted_text_batches";
                   extracted_batches_in := "results/raw_search_batches";
                   fatal_error := Some ZeroDivisionError |}), s') /\
    filter (fun ev => match ev with EvCseRequest _ _ _ _ => true | _ => false end) (trace s')
      = [EvCseRequest "q1" 10 1 None].
Proof. eexists. split; vm_compute; reflexivity. Qed.

(** C9, as the code has it: three queries in batches of two with the
    default delay of one second, and a provider that finds nothing for the
    first two.  The first batch collects no record, the division in its last
    log line raises [ZeroDivisionError] (the defect of C4), and the run ends
    after two of the three queries: it has slept once, before the second
    query, not twice. *)
Theorem run_cut_short_sleeps_less :
  exists summary s',
    @run_process unit (Scenario.nothing_for_q1_q2 ["q1"; "q2"; "q3"]) Scenario.secrets
      (parse_arguments (Scenario.command_line 1 10 2)) Scenario.start_of_run
    = (Ok (Some summary), s') /\
    total_queries summary = 3 /\
    processed_queries summary = 2 /\
    fatal_error summary = Some ZeroDivisionError /\
    PrimFloat.ltb 0%float (delay (parse_arguments (Scenario.command_line 1 10 2))) = true /\
    sleeps (trace s') = 1%nat /\
    milestones (trace s') =
      [EvCseRequest "q1" 10 1 None; EvSleep 1; EvCseRequest "q2" 10 1 None] /\
    Z.of_nat (sleeps (trace s')) <> total_queries summary - 1.
Proof.
  eexists _, _. split; [vm_compute; reflexivity|].
  repeat split. cbn. discriminate.
Qed.

(** * Further properties *)

(** ** What a query does to the outside world *)

Section query_events.
Context {World : Type} {E : Externals World}.
Variable secrets : config.Secrets.

Lemma item_body_events (query : string) (args : Namespace) (page start_index j : Z)
  (it : SearchItem) (st : QueryLocals) (s : IO World) :
  returns (item_body query args page start_index (j, it) st) s
    (fun _ s' => trace s' = trace s ++ extract_event args it).
Proof.
  unfold item_body, extract_event. apply returns_bind.
  destruct (truthy (link it)); simpl.
  - apply returns_bind, returns_call.
    destruct (fst (extract_main_text_requests (link it) (timeout args) (world s)));
      apply returns_ret, returns_ret; reflexivity.
  - apply returns_ret, returns_ret. simpl. symmetry; apply app_nil_r.
Qed.

Lemma items_loop_events (query : string) (args : Namespace) (page start_index : Z)
  (items : list SearchItem) :
  forall (i : Z) (st : QueryLocals) (s : IO World),
  returns (for_each (item_body query args page start_index) (enumerate_from i items) st) s
    (fun _ s' => trace s' = trace s ++ flat_map (extract_event args) items).
Proof.
  induction items as [|it rest IH]; intros i st s; simpl.
  - apply returns_ret. symmetry; apply app_nil_r.
  - apply returns_bind. eapply returns_weaken; [apply item_body_events|].
    intros st1 s1 H1. eapply returns_weaken; [apply IH|].
    intros st2 s2 H2. cbv beta in *. rewrite H2, H1, <- app_assoc. reflexivity.
Qed.

(** Both facts about one run of a computation. *)
Lemma returns_both {S A : Type} (m : M S A) (s : S) (P Q : A -> S -> Prop) :
  returns m s P -> returns m s Q -> returns m s (fun a s' => P a s' /\ Q a s').
Proof.
  intros (a & s1 & H1 & HP) (b & s2 & H2 & HQ). rewrite H1 in H2.
  injection H2 as <- <-. exists a, s1. split; [exact H1 | split; assumption].
Qed.

Lemma page_body_events (query : string) (args : Namespace) (page : Z)
  (st : QueryLocals) (s : IO World) :
  returns (page_body secrets query args page st) s
    (fun _ s' =>
       trace s' = trace s ++ page_request secrets query args page ++
                  flat_map (extract_event args)
                    (page_items secrets query args page (world s))).
Proof.
  unfold page_body, page_items, page_request, search_google_cse, has_secrets.
  destruct (truthy_opt (config.API_KEY secrets)), (truthy_opt (config.CSE_ID secrets));
    simpl negb; simpl orb; simpl andb; cbv beta iota;
    try (unfold returns, bind, try_except, ret; simpl;
         eexists _, _; split; [reflexivity | symmetry; apply app_nil_r]).
  unfold returns, bind, try_except, call.
  destruct (requests_get_cse query (num_results args) (page * num_results args + 1)
              (api_kwargs_of args) (world s)) as [o w] eqn:Ho.
  cbn [fst].
  set (req := EvCseRequest query (num_results args) (page * num_results args + 1)
                (api_kwargs_of args)).
  set (s1 := {| world := w; trace := trace s ++ [req] |}).
  assert (Hfail : forall st0 : QueryLocals,
            exists (a : QueryLocals) (s' : IO World),
              (Ok st0, s1) = (Ok a, s') /\ trace s' = trace s ++ [req] ++ []).
  { intros st0. exists st0, s1. split; [reflexivity|]. simpl. reflexivity. }
  destruct o as [| | |results]; cbn [normalized_page flat_map]; try apply Hfail.
  destruct (json_has_error results) eqn:Herr; [apply Hfail|].
  unfold ret at 1 2. cbv beta iota.
  destruct (process_search_results (Some results)) as [|it rest] eqn:Hnorm;
    [apply Hfail|].
  destruct (items_loop_events query args page (page * num_results args + 1)
              (it :: rest) 0 st s1) as (st2 & s2 & Hrun & Htr).
  unfold enumerate, bind. rewrite Hrun.
  destruct (Z.of_nat (List.length (it :: rest)) <? num_results args);
    unfold ret; eexists _, _; (split; [reflexivity|]);
    rewrite Htr; subst s1; cbn [trace]; rewrite <- app_assoc; reflexivity.
Qed.

Lemma link_accepted_truthy (l : string) : link_accepted l = true -> truthy l = true.
Proof. unfold link_accepted. intros H. apply andb_true_iff in H. apply H. Qed.

Lemma normalised_links_accepted (r : ResultsJson) :
  Forall (fun si => link_accepted (link si) = true) (process_search_results (Some r)).
Proof.
  destruct (json_items r) as [items|] eqn:Hitems.
  - pose proof (process_search_results_retained r items Hitems) as H.
    assert (Hkept : Forall (fun it => item_retained it = true) (filter item_retained items)).
    { apply Forall_forall. intros it Hin. apply filter_In in Hin. apply Hin. }
    revert Hkept. induction H as [|it si l1 l2 Hn _ IH]; intros Hkept; constructor.
    + inversion Hkept as [|? ? Hit _]; subst. unfold item_retained in Hit.
      destruct Hn as (Hl & _). rewrite Hl in Hit. exact Hit.
    + apply IH. inversion Hkept; assumption.
  - unfold process_search_results. rewrite Hitems. constructor.
Qed.

Lemma page_items_accepted (query : string) (args : Namespace) (page : Z) (w : World) :
  Forall (fun si => link_accepted (link si) = true)
         (page_items secrets query args page w).
Proof.
  unfold page_items. destruct (has_secrets secrets); [|constructor].
  destruct (fst (requests_get_cse query (num_results args) (page * num_results args + 1)
                   (api_kwargs_of args) w)) as [| | |results];
    cbn [normalized_page]; try constructor.
  destruct (json_has_error results); [constructor | apply normalised_links_accepted].
Qed.

Lemma page_raws_forall (P : RawRecord -> Prop) (query : string) (page start_index : Z)
  (items : list SearchItem) :
  (forall j it, In it items -> P (make_raw query page (start_index + j) it)) ->
  forall i, Forall P (page_raws query page start_index i items).
Proof.
  unfold page_raws. induction items as [|it rest IH]; intros H i; simpl; constructor.
  - apply H. left; reflexivity.
  - apply IH. intros j it' Hin. apply H. right; exact Hin.
Qed.

Lemma page_raws_extractions (args : Namespace) (query : string) (page start_index : Z)
  (items : list SearchItem) :
  Forall (fun si => link_accepted (link si) = true) items ->
  forall i,
    map (extraction_of args) (page_raws query page start_index i items) =
    flat_map (extract_event args) items.
Proof.
  unfold page_raws, extraction_of, extract_event.
  induction 1 as [|it rest Hit _ IH]; intros i; simpl; [reflexivity|].
  rewrite (link_accepted_truthy _ Hit), IH. reflexivity.
Qed.

Lemma cse_requests_app (a b : list Event) :
  cse_requests (a ++ b) = cse_requests a ++ cse_requests b.
Proof. unfold cse_requests. apply flat_map_app. Qed.

Lemma extractions_app (a b : list Event) :
  extractions (a ++ b) = extractions a ++ extractions b.
Proof. unfold extractions. apply flat_map_app. Qed.

Lemma page_request_projections (query : string) (args : Namespace) (page : Z) :
  cse_requests (page_request secrets query args page) = page_request secrets query args page /\
  extractions (page_request secrets query args page) = [] /\
  Forall is_query_event (page_request secrets query args page).
Proof.
  unfold page_request. destruct (has_secrets secrets); simpl; repeat split; repeat constructor.
Qed.

Lemma extract_events_projections (args : Namespace) (items : list SearchItem) :
  cse_requests (flat_map (extract_event args) items) = [] /\
  extractions (flat_map (extract_event args) items) = flat_map (extract_event args) items /\
  Forall is_query_event (flat_map (extract_event args) items).
Proof.
  induction items as [|it rest (IH1 & IH2 & IH3)]; [repeat split; constructor|].
  cbn [flat_map]. rewrite cse_requests_app, extractions_app, IH1, IH2.
  assert (H : cse_requests (extract_event args it) = [] /\
              extractions (extract_event args it) = extract_event args it /\
              Forall is_query_event (extract_event args it)).
  { unfold extract_event. destruct (truthy (link it)); repeat split; repeat constructor. }
  destruct H as (H1 & H2 & H3). rewrite H1, H2.
  repeat split. apply Forall_app. split; assumption.
Qed.

Lemma requests_succ (query : string) (args : Namespace) (n : nat) :
  requests secrets query args (S n) =
  requests secrets query args n ++ page_request secrets query args (Z.of_nat n).
Proof.
  unfold requests. rewrite seq_S, map_app, flat_map_app. simpl.
  rewrite app_nil_r. reflexivity.
Qed.

(** Everything a query does: the pages [0 .. n-1] are requested in order,
    and after each request one extraction is called for every record of the
    page. *)
Lemma process_single_query_events (query : string) (args : Namespace) (s : IO World) :
  returns (_process_single_query secrets query args) s
    (fun res s' =>
       exists new n,
         trace s' = trace s ++ new /\
         (n <= Z.to_nat (pages args))%nat /\
         (1 <= pages args -> (1 <= n)%nat) /\
         cse_requests new = requests secrets query args n /\
         extractions new = map (extraction_of args) (snd (fst res)) /\
         Forall is_query_event new /\
         Forall link_ok (snd (fst res)) /\
         Forall (record_of query n) (snd (fst res))).
Proof.
  set (I := fun (p : Z) (st : QueryLocals) (s' : IO World) =>
    exists new n,
      trace s' = trace s ++ new /\
      Z.of_nat n <= p /\
      (stop_fetching_pages st = false -> Z.of_nat n = p) /\
      (p = 0 -> stop_fetching_pages st = false) /\
      (1 <= p -> (1 <= n)%nat) /\
      cse_requests new = requests secrets query args n /\
      extractions new = map (extraction_of args) (raw_results_for_query st) /\
      Forall is_query_event new /\
      Forall link_ok (raw_results_for_query st) /\
      Forall (record_of query n) (raw_results_for_query st)).
  unfold _process_single_query, range. apply returns_bind.
  eapply returns_weaken.
  - apply (for_pages_inv secrets query args I).
    + intros p st s1 Hp0 (new & n & Htr & Hle & Hn & _ & _ & Hcse & Hext & Hev & Hlinks & Hrec)
        Hgo.
      specialize (Hn Hgo). subst p.
      eapply returns_weaken.
      * apply returns_both; [apply page_body_spec | apply page_body_events].
      * intros st' s2 ((Heff & _ & _) & Htr2). cbv zeta in Heff.
        destruct Heff as (Hraws & _).
        pose proof (page_items_accepted query args (Z.of_nat n) (world s1)) as Hacc.
        destruct (page_request_projections query args (Z.of_nat n)) as (Hp1 & Hp2 & Hp3).
        destruct (extract_events_projections args
                    (page_items secrets query args (Z.of_nat n) (world s1)))
          as (He1 & He2 & He3).
        exists (new ++ page_request secrets query args (Z.of_nat n) ++
                flat_map (extract_event args)
                  (page_items secrets query args (Z.of_nat n) (world s1))), (S n).
        split; [rewrite Htr2, Htr, <- app_assoc; reflexivity|].
        split; [lia|]. split; [intros _; lia|].
        split; [lia|]. split; [lia|].
        split; [rewrite !cse_requests_app, Hcse, Hp1, He1, app_nil_r, requests_succ;
                reflexivity|].
        split.
        { rewrite !extractions_app, Hext, Hp2, He2, Hraws, map_app.
          rewrite (page_raws_extractions args _ _ _ _ Hacc). reflexivity. }
        split; [repeat (apply Forall_app; split); assumption|].
        rewrite Hraws. split; apply Forall_app; split.
        -- exact Hlinks.
        -- apply page_raws_forall. intros j it Hin. unfold link_ok. simpl.
           exact (proj1 (Forall_forall _ _) Hacc it Hin).
        -- eapply Forall_impl; [|exact Hrec]. unfold record_of.
           intros r (Hq & Hsp). split; [exact Hq | lia].
        -- apply page_raws_forall. intros j it Hin. unfold record_of.
           cbn [raw_query raw_search_page make_raw]. split; [reflexivity | lia].
    + exists [], 0%nat. cbn. repeat split; try constructor; try lia.
      symmetry; apply app_nil_r.
  - intros st' s' (p & Hp & (new & n & Htr & Hle & _ & Hfirst & Hone & Hcse & Hext & Hev
                             & Hl & Hrec) & Hend).
    apply returns_ret. exists new, n. cbn [fst snd].
    split; [exact Htr|]. split; [lia|]. split.
    { intros Hpages. apply Hone. destruct (Z.eq_dec p 0) as [Hz|Hz]; [|lia].
      specialize (Hfirst Hz). rewrite Hend in Hfirst by lia. discriminate. }
    repeat split; assumption.
Qed.

End query_events.

Lemma count_all {A : Type} (f : A -> bool) (l : list A) :
  Forall (fun x => f x = true) l -> count f l = Z.of_nat (List.length l).
Proof. intros H. unfold count. rewrite (filter_all f l H). reflexivity. Qed.

Lemma requests_with_secrets {World : Type} {E : Externals World}
  (secrets : config.Secrets) (query : string) (args : Namespace) (n : nat) :
  requests secrets query args n =
  if has_secrets secrets
  then map (fun p => EvCseRequest query (num_results args) (p * num_results args + 1)
                       (api_kwargs_of args))
           (range (Z.of_nat n))
  else [].
Proof.
  unfold requests, range, page_request. rewrite Nat2Z.id.
  destruct (has_secrets secrets).
  - induction (map Z.of_nat (seq 0 n)) as [|p l IH]; simpl; [reflexivity | now rewrite IH].
  - induction (map Z.of_nat (seq 0 n)) as [|p l IH]; simpl; [reflexivity | exact IH].
Qed.

(** X1.  A query requests the pages 0, 1, ..., n-1 in this order, for some
    [n] that is at most [args.pages] (none when [args.pages <= 0]); every
    request carries the query, [args.num_results], the start index
    [p * num_results + 1] and the site restriction; and the query does
    nothing to the outside world but these requests and extraction calls:
    it never sleeps and touches no file.  Without the two secrets it makes
    no request at all. *)
Theorem pages_are_requested_in_order :
  forall (World : Type) (E : Externals World) (secrets : config.Secrets)
         (query : string) (args : Namespace) (s : IO World),
  exists res s' new n,
    _process_single_query secrets query args s = (Ok res, s') /\
    trace s' = trace s ++ new /\
    (n <= Z.to_nat (pages args))%nat /\
    Forall is_query_event new /\
    cse_requests new =
      if has_secrets secrets
      then map (fun p => EvCseRequest query (num_results args) (p * num_results args + 1)
                           (api_kwargs_of args))
               (range (Z.of_nat n))
      else [].
Proof.
  intros World E secrets query args s.
  destruct (process_single_query_events secrets query args s)
    as (res & s' & Hrun & new & n & Htr & Hn & _ & Hcse & _ & Hev & _).
  exists res, s', new, n. rewrite <- requests_with_secrets. repeat split; assumption.
Qed.

(** X2.  The extractor is called exactly once for every raw record of the
    query, with the record's link and [args.timeout], in the order of the
    records. *)
Theorem one_extraction_per_record :
  forall (World : Type) (E : Externals World) (secrets : config.Secrets)
         (query : string) (args : Namespace) (s : IO World),
  exists c raws exts s' new,
    _process_single_query secrets query args s = (Ok (c, raws, exts), s') /\
    trace s' = trace s ++ new /\
    extractions new = map (fun r => EvExtract (raw_link r) (timeout args)) raws.
Proof.
  intros World E secrets query args s.
  destruct (process_single_query_events secrets query args s)
    as ([[c raws] exts] & s' & Hrun & new & n & Htr & _ & _ & _ & Hext & _).
  exists c, raws, exts, s', new. repeat split; assumption.
Qed.

(** X3.  Every raw record of a query carries the query, a [search_page]
    between 1 and [args.pages], and a link that passed the test of
    [process_search_results]; so the "no link" branch of the item loop is
    never taken and [urls_processed] equals [raw_saved]. *)
Theorem every_record_has_a_link :
  forall (World : Type) (E : Externals World) (secrets : config.Secrets)
         (query : string) (args : Namespace) (s : IO World),
  exists c raws exts s',
    _process_single_query secrets query args s = (Ok (c, raws, exts), s') /\
    Forall (fun r => raw_query r = query /\
                     1 <= raw_search_page r <= pages args /\
                     link_accepted (raw_link r) = true) raws /\
    urls_processed c = raw_saved c.
Proof.
  intros World E secrets query args s.
  destruct (returns_both _ _ _ _
              (process_single_query_events secrets query args s)
              (process_single_query_consistent secrets query args s))
    as ([[c raws] exts] & s' & Hrun & (new & n & _ & Hn & _ & _ & _ & _ & Hl & Hrec)
        & _ & Hsaved & Hurls & _).
  cbn [fst snd] in *. exists c, raws, exts, s'. split; [exact Hrun|]. split.
  - apply Forall_forall. intros r Hin.
    destruct (proj1 (Forall_forall _ _) Hrec r Hin) as (Hq & Hsp).
    split; [exact Hq|]. split; [lia|]. exact (proj1 (Forall_forall _ _) Hl r Hin).
  - rewrite Hurls, Hsaved. cbn. apply count_all.
    eapply Forall_impl; [|exact Hl]. intros r Hr. apply link_accepted_truthy, Hr.
Qed.

(** X4.  Without the API key or without the CSE id, [search_google_cse]
    answers [None] before any request is made: a query then returns empty
    lists and zero counters and leaves the outside world untouched. *)
Theorem no_secrets_no_request :
  forall (World : Type) (E : Externals World) (secrets : config.Secrets)
         (query : string) (args : Namespace) (s : IO World),
    has_secrets secrets = false ->
    (forall num start site,
       search_google_cse query (config.API_KEY secrets) (config.CSE_ID secrets)
         num start site s = (Ok None, s)) /\
    _process_single_query secrets query args s = (Ok (zero_counters, [], []), s).
Proof.
  intros World E secrets query args s Hsec.
  assert (Hsearch : forall (num start : Z) (site : option string) (i : IO World),
            search_google_cse query (config.API_KEY secrets) (config.CSE_ID secrets)
              num start site i = (Ok None, i)).
  { intros num start site i. unfold search_google_cse, has_secrets in *.
    destruct (truthy_opt (config.API_KEY secrets)), (truthy_opt (config.CSE_ID secrets));
      try discriminate; reflexivity. }
  split; [intros; apply Hsearch|].
  unfold _process_single_query, range, bind.
  destruct (Z.to_nat (pages args)) as [|n]; [reflexivity|].
  cbn [seq map for_pages initial_locals stop_fetching_pages]. unfold bind at 1.
  assert (Hpage : page_body secrets query args (Z.of_nat 0) initial_locals s
                  = (Ok (set_stop initial_locals), s)).
  { unfold page_body, bind, try_except. rewrite Hsearch. reflexivity. }
  cbn [initial_locals] in Hpage. rewrite Hpage.
  rewrite for_pages_stopped by reflexivity. reflexivity.
Qed.

(** X4 on a concrete run: the CSE id is missing. *)
Lemma no_secrets_example :
  @_process_single_query unit (Scenario.network_down ["q"])
    {| config.API_KEY := Some "key"; config.CSE_ID := None |} "q"
    (parse_arguments (Scenario.command_line 3 10 10)) Scenario.start_of_run
  = (Ok (zero_counters, [], []), Scenario.start_of_run).
Proof.
  apply (no_secrets_no_request unit (Scenario.network_down ["q"])
           {| config.API_KEY := Some "key"; config.CSE_ID := None |} "q"
           (parse_arguments (Scenario.command_line 3 10 10)) Scenario.start_of_run).
  reflexivity.
Defined.

(** ** Arguments and batches *)

Lemma batch_generator_slices {A : Type} (data : list A) (batch_size : Z) :
  1 <= batch_size ->
  batch_generator data batch_size =
  Ok (map (fun j => firstn (Z.to_nat batch_size) (skipn (j * Z.to_nat batch_size) data))
          (seq 0 (Z.to_nat (ceil_div (Z.of_nat (List.length data)) batch_size)))).
Proof.
  intros Hb. unfold batch_generator, range_step, ceil_div.
  destruct (Z.eqb_spec batch_size 0) as [|_]; [lia|].
  destruct (Z.ltb_spec batch_size 0) as [|_]; [lia|].
  f_equal. rewrite map_map. apply map_ext. intros j. unfold slice.
  f_equal; [|f_equal]; nia.
Qed.

Lemma ceil_div_bounds (n b : Z) :
  0 <= n -> 1 <= b ->
  0 <= ceil_div n b /\ n <= ceil_div n b * b /\ (0 < n -> (ceil_div n b - 1) * b < n) /\
  (n = 0 -> ceil_div n b = 0).
Proof.
  intros Hn Hb. unfold ceil_div.
  pose proof (Z.div_mod (n + b - 1) b ltac:(lia)).
  pose proof (Z.mod_pos_bound (n + b - 1) b ltac:(lia)).
  assert (0 <= (n + b - 1) / b) by (apply Z.div_pos; lia).
  repeat split; nia.
Qed.

Lemma removelast_map {A B : Type} (f : A -> B) (l : list A) :
  removelast (map f l) = map f (removelast l).
Proof.
  induction l as [|x l IH]; [reflexivity|]. simpl.
  destruct l as [|y l]; [reflexivity|]. simpl in *. rewrite IH. reflexivity.
Qed.

Lemma removelast_seq (n : nat) : removelast (seq 0 n) = seq 0 (n - 1).
Proof.
  destruct n as [|m]; [reflexivity|].
  rewrite seq_S, removelast_last. f_equal. lia.
Qed.

(** With a batch size of at least 1 no batch is empty and none is longer
    than the batch size. *)
Lemma batch_generator_lengths {A : Type} (data : list A) (batch_size : Z)
  (batches : list (list A)) :
  1 <= batch_size ->
  batch_generator data batch_size = Ok batches ->
  Z.of_nat (List.length batches) = ceil_div (Z.of_nat (List.length data)) batch_size /\
  Forall (fun b => 1 <= Z.of_nat (List.length b) <= batch_size) batches /\
  Forall (fun b => Z.of_nat (List.length b) = batch_size) (removelast batches).
Proof.
  intros Hb Hgen.
  rewrite (batch_generator_slices data batch_size Hb) in Hgen. injection Hgen as <-.
  destruct (ceil_div_bounds (Z.of_nat (List.length data)) batch_size ltac:(lia) Hb)
    as (Hc0 & Hupper & Hlower & Hzero).
  remember (ceil_div (Z.of_nat (List.length data)) batch_size) as c eqn:Hc.
  split; [rewrite length_map, length_seq; lia|].
  assert (Hlen : forall j, Z.of_nat (List.length
                   (firstn (Z.to_nat batch_size) (skipn (j * Z.to_nat batch_size) data))) =
                 Z.min batch_size (Z.max 0 (Z.of_nat (List.length data) - Z.of_nat j * batch_size))).
  { intros j. rewrite length_firstn, length_skipn. nia. }
  assert (Hpos : 0 < c -> 0 < Z.of_nat (List.length data)).
  { intros H. destruct (Z.eq_dec (Z.of_nat (List.length data)) 0) as [E|]; [|lia].
    specialize (Hzero E). lia. }
  split.
  - apply Forall_forall. intros x Hx. apply in_map_iff in Hx.
    destruct Hx as (j & <- & Hj). apply in_seq in Hj. rewrite Hlen.
    assert (Hj' : 0 <= Z.of_nat j < c) by lia.
    specialize (Hlower (Hpos ltac:(lia))). nia.
  - rewrite removelast_map, removelast_seq.
    apply Forall_forall. intros x Hx. apply in_map_iff in Hx.
    destruct Hx as (j & <- & Hj). apply in_seq in Hj. rewrite Hlen.
    assert (Hj' : 0 <= Z.of_nat j < c - 1) by lia.
    specialize (Hlower (Hpos ltac:(lia))). nia.
Qed.

(** X5.  For a batch size of at least 1, [batch_generator] cuts the data
    into [ceil(len / batch_size)] consecutive batches that together are the
    data: none is empty, none is longer than the batch size, and all but the
    last have exactly the batch size. *)
Theorem batch_generator_partitions :
  forall (A : Type) (data : list A) (batch_size : Z),
    1 <= batch_size ->
    exists batches,
      batch_generator data batch_size = Ok batches /\
      List.concat batches = data /\
      Z.of_nat (List.length batches) = ceil_div (Z.of_nat (List.length data)) batch_size /\
      Forall (fun b => 1 <= Z.of_nat (List.length b) <= batch_size) batches /\
      Forall (fun b => Z.of_nat (List.length b) = batch_size) (removelast batches).
Proof.
  intros A data batch_size Hb.
  pose proof (batch_generator_slices data batch_size Hb) as Hgen.
  eexists. split; [exact Hgen|].
  split; [exact (batch_generator_concat data batch_size _ Hb Hgen)|].
  exact (batch_generator_lengths data batch_size _ Hb Hgen).
Qed.

(** X5 on a concrete list: 23 elements in batches of 10. *)
Lemma batch_generator_example :
  exists batches,
    batch_generator (seq 0 23) 10 = Ok batches /\
    List.concat batches = seq 0 23 /\
    map (@List.length nat) batches = [10; 10; 3]%nat.
Proof.
  destruct (batch_generator_partitions nat (seq 0 23) 10 ltac:(lia))
    as (batches & Hgen & Hconcat & _).
  exists batches. split; [exact Hgen|]. split; [exact Hconcat|].
  vm_compute in Hgen. injection Hgen as <-. reflexivity.
Defined.

(** X6.  A batch size of zero is a [ValueError], a negative one gives no
    batch at all, and an empty list gives no batch whatever the (non-zero)
    batch size. *)
Theorem batch_generator_degenerate :
  forall (A : Type) (data : list A) (batch_size : Z),
    (batch_size = 0 -> batch_generator data batch_size = Raise ValueError) /\
    (batch_size < 0 -> batch_generator data batch_size = Ok []) /\
    (batch_size <> 0 -> batch_generator (@nil A) batch_size = Ok []).
Proof.
  intros A data batch_size. unfold batch_generator, range_step. repeat split.
  - intros ->. reflexivity.
  - intros H. destruct (Z.eqb_spec batch_size 0); [lia|].
    destruct (Z.ltb_spec batch_size 0); [reflexivity | lia].
  - intros H. destruct (Z.eqb_spec batch_size 0); [lia|].
    destruct (Z.ltb_spec batch_size 0); [reflexivity|].
    cbn [List.length Z.of_nat].
    replace ((0 + batch_size - 1) / batch_size) with 0; [reflexivity|].
    symmetry. apply Z.div_small. lia.
Qed.

(** X7.  Whatever the command line, [parse_arguments] returns
    [1 <= num_results <= 10] and [batch_size >= 1]: a [--num-results] within
    1..10 and a positive [--batch-size] are kept, any other value is replaced
    by 10, respectively 1, and an absent one takes its default (10 and 10).
    [--pages] is not validated. *)
Theorem parse_arguments_validates :
  forall argv : CommandLine,
    1 <= num_results (parse_arguments argv) <= 10 /\
    1 <= batch_size (parse_arguments argv) /\
    num_results (parse_arguments argv) =
      match cli_num_results argv with
      | Some n => if (1 <=? n) && (n <=? 10) then n else 10
      | None => 10
      end /\
    batch_size (parse_arguments argv) =
      match cli_batch_size argv with
      | Some b => if 0 <? b then b else 1
      | None => 10
      end /\
    pages (parse_arguments argv) = with_default (cli_pages argv) 1.
Proof.
  intros argv. unfold parse_arguments; cbn [num_results batch_size pages].
  unfold with_default, config.DEFAULT_CSE_NUM_RESULTS.
  destruct (cli_num_results argv) as [n|], (cli_batch_size argv) as [b|];
    repeat match goal with
           | |- context [?x <=? ?y] => destruct (Z.leb_spec x y)
           | |- context [?x <? ?y] => destruct (Z.ltb_spec x y)
           end; cbn; repeat split; lia.
Qed.

(** ** The run: files and totals *)

Lemma opened_files_app (a b : list Event) :
  opened_files (a ++ b) = opened_files a ++ opened_files b.
Proof. apply flat_map_app. Qed.

Lemma opened_files_query_events (t : list Event) :
  Forall is_query_event t -> opened_files t = [].
Proof.
  induction 1 as [|ev t Hev _ IH]; [reflexivity|].
  destruct ev; try contradiction; exact IH.
Qed.

Lemma opened_files_flush_events (path : string) (records : list JsonlRecord)
  (opened : bool) :
  opened_files (flush_events path records opened) = [path].
Proof.
  unfold flush_events, opened_files. cbn [flat_map only_open app]. f_equal.
  destruct opened; [|reflexivity]. rewrite flat_map_app. cbn. rewrite app_nil_r.
  induction records as [|x l IH]; [reflexivity | exact IH].
Qed.

Lemma sleeps_query_events (t : list Event) : Forall is_query_event t -> sleeps t = 0%nat.
Proof.
  induction 1 as [|ev t Hev _ IH]; [reflexivity|].
  destruct ev; try contradiction; exact IH.
Qed.

Lemma sleeps_flush_events (path : string) (records : list JsonlRecord) (opened : bool) :
  sleeps (flush_events path records opened) = 0%nat.
Proof.
  unfold flush_events, sleeps. cbn [filter is_sleep]. destruct opened; [|reflexivity].
  rewrite filter_app. cbn. rewrite app_nil_r.
  induction records as [|x l IH]; [reflexivity | exact IH].
Qed.

Lemma milestones_app (a b : list Event) : milestones (a ++ b) = milestones a ++ milestones b.
Proof. apply filter_app. Qed.

Lemma milestones_flush_events (path : string) (records : list JsonlRecord)
  (opened : bool) :
  milestones (flush_events path records opened) = [].
Proof.
  unfold flush_events, milestones. cbn [filter is_milestone]. destruct opened; [|reflexivity].
  rewrite filter_app. cbn.
  induction records as [|x l IH]; [reflexivity | exact IH].
Qed.

(** Of the events of a query only its requests can be milestones. *)
Lemma milestones_query_events (t : list Event) :
  Forall is_query_event t -> milestones t = milestones (cse_requests t).
Proof.
  induction 1 as [|ev t Hev _ IH]; [reflexivity|].
  destruct ev; try contradiction; cbn.
  - unfold milestones in IH. fold (cse_requests t). rewrite IH. reflexivity.
  - exact IH.
Qed.

(** With a page size of at least 1 only the request for page 0 has start
    index 1. *)
Lemma milestones_requests (secrets : config.Secrets) (query : string) (args : Namespace)
  (n : nat) :
  first_requests_show secrets args -> (1 <= n)%nat ->
  milestones (requests secrets query args n) = [first_request args query].
Proof.
  intros (Hsec & _ & Hk) Hn. unfold requests, page_request. rewrite Hsec.
  assert (Hrest : forall (m a : nat), (1 <= a)%nat ->
            milestones
              (flat_map (fun page => [EvCseRequest query (num_results args)
                                        (page * num_results args + 1) (api_kwargs_of args)])
                 (map Z.of_nat (seq a m))) = []).
  { induction m as [|m IH]; intros a Ha; [reflexivity|].
    cbn [seq map flat_map app]. unfold milestones. cbn [filter is_milestone].
    replace (Z.of_nat a * num_results args + 1 =? 1) with false
      by (symmetry; apply Z.eqb_neq; nia).
    apply IH. lia. }
  destruct n as [|n]; [lia|]. cbn [seq map flat_map app].
  change (Z.of_nat 0 * num_results args + 1) with 1.
  unfold milestones at 1. cbn [filter is_milestone Z.eqb Pos.eqb].
  fold (milestones
          (flat_map (fun page => [EvCseRequest query (num_results args)
                                    (page * num_results args + 1) (api_kwargs_of args)])
             (map Z.of_nat (seq 1 n)))).
  rewrite Hrest by lia. reflexivity.
Qed.

(** A loop whose body may raise: when it returns, the invariant holds of the
    whole list; when it raises, the body raised on some item, after the items
    before it. *)
Lemma for_each_ends {St A Acc : Type} (body : A -> Acc -> M St Acc)
  (I : list A -> Acc -> St -> Prop) (Q : list A -> A -> exn -> St -> Prop) :
  (forall done x acc s, I done acc s ->
     ends (body x acc) s
       (fun res s' => match res with
                      | Ok acc' => I (done ++ [x]) acc' s'
                      | Raise e => Q done x e s'
                      end)) ->
  forall (l done : list A) (acc : Acc) (s : St),
    I done acc s ->
    ends (for_each body l acc) s
      (fun res s' => match res with
                     | Ok acc' => I (done ++ l) acc' s'
                     | Raise e => exists m x, nth_error l m = Some x /\
                                              Q (done ++ firstn m l) x e s'
                     end).
Proof.
  intros Hbody l. induction l as [|x l IH]; intros done acc s HI; cbn [for_each].
  - unfold ends, ret. cbn. rewrite app_nil_r. exact HI.
  - apply ends_bind. specialize (Hbody done x acc s HI). unfold ends in *.
    destruct (body x acc s) as [[acc1|e] s1]; cbn [fst snd] in *.
    + specialize (IH (done ++ [x]) acc1 s1 Hbody).
      destruct (for_each body l acc1 s1) as [[acc2|e] s2]; cbn [fst snd] in *.
      * rewrite <- app_assoc in IH. exact IH.
      * destruct IH as (m & y & Hnth & HQ). exists (S m), y. split; [exact Hnth|].
        cbn [firstn]. rewrite <- app_assoc in HQ. exact HQ.
    + exists 0%nat, x. split; [reflexivity|]. cbn [firstn]. rewrite app_nil_r. exact Hbody.
Qed.

Lemma firstn_enumerate_from {A : Type} (m : nat) :
  forall (l : list A) (i : Z),
    firstn m (enumerate_from i l) = enumerate_from i (firstn m l).
Proof.
  induction m as [|m IH]; intros l i; [reflexivity|].
  destruct l as [|x l]; [reflexivity|]. cbn [enumerate_from firstn]. now rewrite IH.
Qed.

Lemma map_fst_enumerate_from {A : Type} (l : list A) :
  forall a : nat,
    map fst (enumerate_from (Z.of_nat a) l) = map Z.of_nat (seq a (List.length l)).
Proof.
  induction l as [|x l IH]; intros a; [reflexivity|].
  cbn [enumerate_from map fst List.length seq]. f_equal.
  replace (Z.of_nat a + 1) with (Z.of_nat (S a)) by lia. apply IH.
Qed.

Lemma map_snd_enumerate_from {A : Type} (l : list A) :
  forall i, map snd (enumerate_from i l) = l.
Proof.
  induction l as [|x l IH]; intros i; [reflexivity|].
  cbn [enumerate_from map snd]. now rewrite IH.
Qed.

Lemma nth_error_enumerate_from {A : Type} (l : list A) :
  forall (i : Z) (m : nat) (x : Z * A),
    nth_error (enumerate_from i l) m = Some x ->
    fst x = i + Z.of_nat m /\ nth_error l m = Some (snd x).
Proof.
  induction l as [|y l IH]; intros i m x; [destruct m; discriminate|].
  destruct m as [|m]; cbn [enumerate_from nth_error].
  - intros [= <-]. cbn. split; [lia | reflexivity].
  - intros H. destruct (IH _ _ _ H) as (Hi & Hn). split; [lia | exact Hn].
Qed.

Lemma expected_milestones_app (args : Namespace) (qs : list string) (q : string) :
  forall g, expected_milestones args g (qs ++ [q]) =
            expected_milestones args g qs ++
            query_milestones args (g + Z.of_nat (List.length qs), q).
Proof.
  intros g. unfold expected_milestones.
  rewrite enumerate_from_app, flat_map_app. cbn [flat_map]. rewrite app_nil_r. reflexivity.
Qed.

Lemma expected_milestones_concat (args : Namespace) (a : list string) :
  forall (b : list string) (g : Z),
    expected_milestones args g (a ++ b) =
    expected_milestones args g a ++ expected_milestones args (g + Z.of_nat (List.length a)) b.
Proof.
  induction a as [|q a IH]; intros b g.
  - cbn [app List.length Z.of_nat expected_milestones enumerate_from flat_map].
    rewrite Z.add_0_r. reflexivity.
  - replace (g + Z.of_nat (List.length (q :: a))) with (g + 1 + Z.of_nat (List.length a))
      by (cbn [List.length]; lia).
    unfold expected_milestones in *. cbn [app enumerate_from flat_map].
    rewrite IH, <- app_assoc. reflexivity.
Qed.

(** One more query processed: one more sleep when one was due. *)
Lemma expected_sleeps_step (args : Namespace) (g : Z) :
  expected_sleeps args (g + 1) =
  expected_sleeps args g + (if sleeps_before args g then 1 else 0).
Proof.
  unfold expected_sleeps, sleeps_before.
  destruct (PrimFloat.ltb 0 (delay args)); [|rewrite andb_false_r; reflexivity].
  rewrite andb_true_r. destruct (Z.ltb_spec 0 g); lia.
Qed.

Section run_accounting.
Context {World : Type} {E : Externals World}.
Variable secrets : config.Secrets.

(** What a query returns and leaves in the trace, as the run uses it. *)
Lemma process_single_query_counts (query : string) (args : Namespace) (s : IO World) :
  returns (_process_single_query secrets query args) s
    (fun res s' =>
       let '(c, raws, exts) := res in
       List.length exts = List.length raws /\
       raw_saved c = Z.of_nat (List.length raws) /\
       urls_processed c = raw_saved c /\
       0 <= extractions_success c <= urls_processed c /\
       (finds secrets args query -> raws <> []) /\
       exists new,
         trace s' = trace s ++ new /\
         opened_files new = [] /\
         sleeps new = 0%nat /\
         (first_requests_show secrets args -> milestones new = [first_request args query])).
Proof.
  destruct (returns_both _ _ _ _
              (process_single_query_consistent secrets query args s)
              (process_single_query_events secrets query args s))
    as ([[c raws] exts] & s' & Hrun & (Hcorr & Hsaved & Hurls & Htexts) &
        (new & n & Htr & _ & Hone & Hcse & _ & Hev & Hlinks & _)).
  exists (c, raws, exts), s'. split; [exact Hrun|].
  cbn [fst snd] in Hlinks. cbn in Hsaved, Hurls, Htexts.
  assert (Hall : count has_link raws = Z.of_nat (List.length raws)).
  { apply count_all. eapply Forall_impl; [|exact Hlinks].
    intros r Hr. apply link_accepted_truthy, Hr. }
  pose proof (texts_among_links raws exts Hcorr).
  pose proof (count_bounds has_text exts).
  split; [symmetry; eapply Forall2_length; exact Hcorr|].
  split; [lia|]. split; [lia|]. split; [lia|]. split.
  - intros Hfinds. destruct (Hfinds s) as (c' & raws' & exts' & s'' & Hrun' & Hne).
    rewrite Hrun in Hrun'. injection Hrun' as _ <- _ _. exact Hne.
  - exists new. split; [exact Htr|].
    split; [exact (opened_files_query_events new Hev)|].
    split; [exact (sleeps_query_events new Hev)|].
    intros Hshow. rewrite (milestones_query_events new Hev), Hcse.
    apply milestones_requests; [exact Hshow|]. apply Hone. apply Hshow.
Qed.

(** One query of a batch: it is processed, or the sleep before it failed. *)
Lemma query_body_step (args : Namespace) (rb : Run World) (qs : list string)
  (entry : Z * string) (acc : list RawRecord * list ExtractedRecord) (r : Run World) :
  collected secrets args rb qs acc r ->
  ends (query_body secrets args entry acc) r
    (fun res r' =>
       match res with
       | Ok acc' => collected secrets args rb (qs ++ [snd entry]) acc' r'
       | Raise e => e = OverflowError /\ sleep_failed secrets args rb qs r'
       end).
Proof.
  intros Hcol. pose proof Hcol as Hcol0.
  destruct Hcol as (Hlen & Hlr & Hle & Hsaved & Hurls & Hex1 & Hex2 & Hg & Hfinds &
                    new & Htr & Hop & Hsl & Hms).
  cbv zeta in *.
  unfold query_body. destruct entry as [i query], acc as [raws exts]. cbn [fst snd] in *.
  assert (Hafter : forall (r1 : Run World) (before : list Event),
            locals r1 = locals r ->
            trace (io r1) = trace (io r) ++ before ->
            before = (if sleeps_before args (global_query_index (locals r))
                      then [EvSleep (delay args)] else []) ->
            ends
              (res <- lift_io (_process_single_query secrets query args) ;;
               (let '(query_counters, raw_res_list, extracted_res_list) := res in
                update_locals (aggregate query_counters) ;;;
                update_locals next_query ;;;
                ret (raws ++ raw_res_list, exts ++ extracted_res_list))) r1
              (fun res r' =>
                 match res with
                 | Ok acc' => collected secrets args rb (qs ++ [query]) acc' r'
                 | Raise e => e = OverflowError /\ sleep_failed secrets args rb qs r'
                 end)).
  { intros r1 before Hloc Htr1 Hbefore.
    eapply ends_returns with
      (P := fun acc' r' => collected secrets args rb (qs ++ [query]) acc' r');
      [|intros a s' H; exact H].
    apply returns_bind, returns_lift_io.
    eapply returns_weaken; [apply process_single_query_counts|].
    intros [[c rs] es] i1 (Hl & Hsv & Hu & Htx & Hf & new1 & Hnew1 & Hop1 & Hsl1 & Hms1).
    cbv beta iota.
    unfold update_locals, modify, bind, ret, returns. cbn.
    eexists _, _. split; [reflexivity|]. unfold collected. cbn. rewrite Hloc.
    rewrite !length_app, Nat2Z.inj_add.
    split; [lia|]. split; [exact Hlr|]. split; [exact Hle|].
    split; [lia|]. split; [lia|]. split; [lia|]. split; [lia|].
    split; [cbn; lia|].
    split.
    { intros Hall _. apply Forall_app in Hall. destruct Hall as (_ & Hq).
      inversion Hq as [|? ? Hq1 _]; subst. specialize (Hf Hq1).
      destruct rs; [congruence|]. destruct raws; discriminate. }
    exists (new ++ before ++ new1). split.
    { rewrite Hnew1, Htr1, Htr, <- !app_assoc. reflexivity. }
    split.
    { rewrite !opened_files_app, Hop, Hop1, Hbefore.
      destruct (sleeps_before args (global_query_index (locals r))); reflexivity. }
    split.
    { rewrite !sleeps_app, Hsl1, Hbefore, !Nat2Z.inj_add, Hsl.
      rewrite (expected_sleeps_step args (global_query_index (locals r))).
      destruct (sleeps_before args (global_query_index (locals r))); cbn; lia. }
    intros Hshow. rewrite !milestones_app, (Hms Hshow), (Hms1 Hshow), Hbefore.
    rewrite expected_milestones_app. unfold query_milestones. cbn [fst snd].
    replace (global_query_index (locals rb) + Z.of_nat (List.length qs))
      with (global_query_index (locals r)) by lia.
    destruct (sleeps_before args (global_query_index (locals r))); reflexivity. }
  apply ends_bind. unfold ends at 1, get. cbn [fst snd].
  apply ends_bind.
  fold (sleeps_before args (global_query_index (locals r))).
  destruct (sleeps_before args (global_query_index (locals r))) eqn:Hdue.
  - apply ends_bind. unfold ends at 1, lift_io, call.
    destruct (time_sleep (delay args) (world (io r))) as [slept w1] eqn:Hsleep.
    cbn [fst snd]. destruct slept.
    + unfold ends at 1, ret. cbn [fst snd].
      apply (Hafter _ [EvSleep (delay args)]); reflexivity.
    + unfold ends, raise. cbn [fst snd]. split; [reflexivity|].
      exists (raws, exts), r. split; [exact Hcol0|]. split; [reflexivity|].
      split; [reflexivity|]. split; [exact Hdue|]. rewrite Hsleep. reflexivity.
  - unfold ends at 1, ret. cbn [fst snd]. apply (Hafter r []); [reflexivity | | reflexivity].
    symmetry. apply app_nil_r.
Qed.

(** The queries of a batch. *)
Lemma batch_queries_step (args : Namespace) (rb : Run World) (query_batch : list string) :
  ends (for_each (query_body secrets args) (enumerate query_batch) ([], [])) rb
    (fun res r' =>
       match res with
       | Ok acc' => collected secrets args rb query_batch acc' r'
       | Raise e =>
           e = OverflowError /\
           exists k, (k < List.length query_batch)%nat /\
                     sleep_failed secrets args rb (firstn k query_batch) r'
       end).
Proof.
  assert (Hstart : collected secrets args rb (map snd (@nil (Z * string))) ([], []) rb).
  { unfold collected. cbn. repeat split; try lia; try congruence.
    exists []. split; [symmetry; apply app_nil_r|]. split; [reflexivity|].
    split; [cbn; lia|]. reflexivity. }
  pose proof (for_each_ends (query_body secrets args)
                (fun done acc r => collected secrets args rb (map snd done) acc r)
                (fun done x e r =>
                   e = OverflowError /\ sleep_failed secrets args rb (map snd done) r))
    as Hloop.
  assert (Hbody : forall done x acc (s : Run World),
            collected secrets args rb (map snd done) acc s ->
            ends (query_body secrets args x acc) s
              (fun res s' =>
                 match res with
                 | Ok acc' => collected secrets args rb (map snd (done ++ [x])) acc' s'
                 | Raise e => e = OverflowError /\
                              sleep_failed secrets args rb (map snd done) s'
                 end)).
  { intros done x acc s Hc. rewrite map_app. cbn [map]. apply query_body_step. exact Hc. }
  specialize (Hloop Hbody (enumerate query_batch) [] ([], []) rb Hstart). clear Hbody.
  unfold ends in *.
  destruct (for_each (query_body secrets args) (enumerate query_batch) ([], []) rb)
    as [[acc'|e] r']; cbn [fst snd app] in *.
  - unfold enumerate in Hloop. rewrite map_snd_enumerate_from in Hloop. exact Hloop.
  - destruct Hloop as (m & x & Hnth & -> & Hfail). split; [reflexivity|].
    exists m. unfold enumerate in *. split.
    + pose proof (proj1 (nth_error_Some (enumerate_from 0 query_batch) m)) as Hlt.
      rewrite Hnth in Hlt. specialize (Hlt ltac:(discriminate)).
      rewrite enumerate_from_length in Hlt. exact Hlt.
    + rewrite firstn_enumerate_from, map_snd_enumerate_from in Hfail. exact Hfail.
Qed.

(** With reliable files every record is written. *)
Lemma write_records_reliable (path : string) (records : list JsonlRecord) :
  reliable_files ->
  forall (count : Z) (s : IO World),
    fst (for_each
           (fun record saved_count =>
              written <- save_jsonl_record path record ;;
              ret (if written : bool then saved_count + 1 else saved_count))
           records count s) = Ok (count + Z.of_nat (List.length records)).
Proof.
  intros Hrel. induction records as [|record rest IH]; intros count s.
  - cbn. f_equal. lia.
  - cbn [for_each]. unfold bind at 1 2, save_jsonl_record, call, ret.
    destruct (Hrel path (world s)) as (_ & _ & Hw). specialize (Hw record).
    destruct (dump_and_write path record (world s)) as [written w]. cbn [fst] in Hw.
    subst written. rewrite IH. f_equal. cbn [List.length]. lia.
Qed.

(** A flush never saves more lines than it was given records, and with
    reliable files it saves and counts them all. *)
Lemma flush_counts (path : string) (records : list JsonlRecord)
  (add_lines : Z -> RunLocals -> RunLocals) (r : Run World) :
  exists saved_count r',
    flush path records add_lines r = (Ok saved_count, r') /\
    trace (io r') =
      trace (io r) ++ flush_events path records (fst (open_w path (world (io r)))) /\
    0 <= saved_count <= Z.of_nat (List.length records) /\
    (locals r' = locals r \/ locals r' = add_lines saved_count (locals r)) /\
    (reliable_files ->
     saved_count = Z.of_nat (List.length records) /\
     locals r' = add_lines saved_count (locals r)).
Proof.
  unfold flush, flush_events, bind, lift_io, call.
  pose proof (fun Hrel : reliable_files => proj1 (Hrel path (world (io r)))) as Hopen.
  destruct (open_w path (world (io r))) as [opened w1]. cbn [fst io locals world trace] in *.
  destruct opened.
  - unfold write_records.
    match goal with
    | |- context [for_each ?f ?l ?c ?i] =>
        destruct (write_records_from path l c i) as (n & s1 & Hrun & Htr & Hn);
        pose proof (fun Hrel : reliable_files =>
                      write_records_reliable path l Hrel c i) as Hall
    end.
    rewrite Hrun in Hall |- *. cbn [io locals world trace fst] in Htr, Hall |- *.
    pose proof (fun Hrel : reliable_files =>
                  proj1 (proj2 (Hrel path (world s1)))) as Hclose.
    destruct (close_file path (world s1)) as [closed w2]. cbn [fst] in Hclose.
    destruct closed; unfold update_locals, modify, ret; cbn [io locals world trace];
      eexists _, _; (split; [reflexivity|]); cbn [io trace locals];
      (split; [rewrite Htr, <- !app_assoc; reflexivity|]); (split; [lia|]);
      (split; [auto|]); intros Hrel.
    + specialize (Hall Hrel). injection Hall as ->. split; [lia | reflexivity].
    + specialize (Hclose Hrel). discriminate.
  - unfold ret. eexists _, _. split; [reflexivity|]. split; [reflexivity|].
    split; [lia|]. split; [auto|]. intros Hrel. specialize (Hopen Hrel). discriminate.
Qed.
Lemma accounted_initial : accounted initial_run_locals 0.
Proof. unfold accounted. cbn. lia. Qed.

(** One batch: it is processed and flushed, and then the loop goes on or
    the division of the log line raises; or a sleep failed in it. *)
Lemma batch_body_step (args : Namespace) (t0 : list Event)
  (done : list (Z * list string)) (entry : Z * list string) (rb : Run World) :
  attempted secrets args t0 done rb ->
  ends (batch_body secrets args entry tt) rb
    (fun res r' =>
       match res with
       | Ok _ => attempted secrets args t0 (done ++ [entry]) r'
       | Raise e => batch_cut secrets args t0 done entry e r'
       end).
Proof.
  intros (Hacc & Hfull & Hg & new & Htr & Hop & Hsl & Hms). unfold batch_body.
  destruct entry as [batch_index query_batch].
  apply ends_bind. pose proof (batch_queries_step args rb query_batch) as Hqueries.
  unfold ends in Hqueries |- *.
  destruct (for_each (query_body secrets args) (enumerate query_batch) ([], []) rb)
    as [[[raws exts]|e] r1]; cbn [fst snd] in *.
  2:{ (* a sleep failed *)
      destruct Hqueries as (-> & k & Hk & acc & r0 & Hcol & Hloc & Htr1 & Hdue & Hfail).
      destruct Hcol as (Hlen & Hlr & Hle & Hsaved & Hurls & Hex1 & Hex2 & Hg0 & _ &
                        new0 & Htr0 & Hop0 & Hsl0 & Hms0).
      cbv zeta in *. cbn [batch_cut snd].
      exists k. split; [exact Hk|]. rewrite Hloc.
      split; [unfold accounted in *; lia|]. split; [exact Hdue|].
      split; [intros Hclock; specialize (Hclock (world (io r0))); congruence|].
      unfold run_trace. rewrite Hloc. split.
      { rewrite Hg0, Hg, length_app, Nat2Z.inj_add. reflexivity. }
      exists (new ++ new0 ++ [EvSleep (delay args)]). split.
      { rewrite Htr1, Htr0, Htr, <- !app_assoc. reflexivity. }
      split; [rewrite !opened_files_app, Hop, Hop0; cbn; rewrite !app_nil_r; reflexivity|].
      split.
      { rewrite !sleeps_app, !Nat2Z.inj_add, Hsl, Hsl0. cbn. lia. }
      intros Hshow. rewrite !milestones_app, (Hms Hshow), (Hms0 Hshow), app_nil_r.
      rewrite expected_milestones_concat, Hg, Z.add_0_l, <- app_assoc. reflexivity. }
  destruct Hqueries as (Hlen & Hlr & Hle & Hsaved & Hurls & Hex1 & Hex2 & Hg1 & Hfinds &
                        new1 & Htr1 & Hop1 & Hsl1 & Hms1).
  cbv zeta in *. cbn [fst snd] in *.
  apply ends_bind. unfold save_batch.
  set (raw_file := batch_filename (search_output_base args) batch_index).
  set (ext_file := batch_filename (extracted_output_base args) batch_index).
  destruct (flush_counts raw_file (map JRaw raws) add_lines_raw r1)
    as (rc & r2 & Hraw & Htr2 & Hrc & Hloc2 & Hrel2).
  destruct (flush_counts ext_file (map JExtracted exts) add_lines_extracted r2)
    as (ec & r3 & Hext & Htr3 & Hec & Hloc3 & Hrel3).
  rewrite length_map in Hrc, Hec, Hrel2, Hrel3.
  assert (Hdone : attempted secrets args t0 (done ++ [(batch_index, query_batch)]) r3).
  { unfold attempted, run_trace. rewrite !map_app, concat_app, flat_map_app.
    cbn [map fst snd flat_map List.concat]. rewrite !app_nil_r.
    assert (Hg3 : global_query_index (locals r3) = global_query_index (locals r1))
      by (destruct Hloc3 as [-> | ->], Hloc2 as [-> | ->]; reflexivity).
    split; [|split; [|split]].
    - unfold accounted in *.
      destruct Hloc3 as [-> | ->], Hloc2 as [-> | ->]; cbn; lia.
    - intros Hrel. destruct (Hrel2 Hrel) as (-> & Hl2), (Hrel3 Hrel) as (-> & Hl3).
      destruct (Hfull Hrel) as (Hf1 & Hf2). unfold fully_written in *.
      rewrite Hl3, Hl2. cbn. lia.
    - rewrite Hg3, Hg1, Hg, length_app, Nat2Z.inj_add. reflexivity.
    - exists (new ++ new1 ++
              flush_events raw_file (map JRaw raws) (fst (open_w raw_file (world (io r1)))) ++
              flush_events ext_file (map JExtracted exts)
                (fst (open_w ext_file (world (io r2))))).
      split; [rewrite Htr3, Htr2, Htr1, Htr, <- !app_assoc; reflexivity|].
      split.
      { rewrite !opened_files_app, Hop, Hop1, !opened_files_flush_events. reflexivity. }
      split.
      { rewrite !sleeps_app, !sleeps_flush_events, !Nat2Z.inj_add, Hsl, Hsl1, Hg3. cbn. lia. }
      intros Hshow.
      rewrite !milestones_app, !milestones_flush_events, (Hms Hshow), (Hms1 Hshow),
        !app_nil_r.
      rewrite expected_milestones_concat, Hg, Z.add_0_l. reflexivity. }
  apply (ends_returns _ _ (fun _ r' => r' = r3)).
  { exists (rc, ec), r3. split; [|reflexivity].
    unfold bind. rewrite Hraw. cbv beta iota. rewrite Hext. reflexivity. }
  intros [rc' ec'] r' ->. cbv beta iota.
  unfold ends, log_saved_ratios, truediv, bind, raise, ret.
  destruct (Z.eqb_spec (Z.of_nat (List.length raws)) 0) as [Hz|Hz]; cbn [fst snd batch_cut].
  { split; [exact Hdone|]. intros (Hall & Hne). specialize (Hfinds Hall Hne).
    destruct raws; [congruence | cbn in Hz; lia]. }
  destruct (Z.eqb_spec (Z.of_nat (List.length exts)) 0) as [Hz'|Hz']; cbn [fst snd batch_cut].
  { exfalso. lia. }
  exact Hdone.
Qed.

End run_accounting.

Lemma nth_error_firstn {A : Type} (l : list A) :
  forall (m : nat) (x : A),
    nth_error l m = Some x ->
    firstn (S m) l = firstn m l ++ [x] /\ l = firstn m l ++ x :: skipn (S m) l.
Proof.
  induction l as [|y l IH]; intros m x; [destruct m; discriminate|].
  destruct m as [|m]; cbn [nth_error].
  - intros [= ->]. split; reflexivity.
  - intros H. destruct (IH m x H) as (H1 & H2). split.
    + cbn [firstn app] in *. rewrite H1. reflexivity.
    + cbn [firstn skipn app] in *. rewrite <- H2. reflexivity.
Qed.

Lemma firstn_prefix {A : Type} (a b : list A) : firstn (List.length a) (a ++ b) = a.
Proof. induction a as [|x a IH]; [reflexivity|]. cbn. now rewrite IH. Qed.

Section batch_loop.
Context {World : Type} {E : Externals World}.
Variable secrets : config.Secrets.

(** The queries processed are a prefix of the list of queries. *)
Lemma run_trace_prefix (args : Namespace) (queries : list string) (t0 : list Event)
  (flushed : list Z) (processed rest : list string) (last : list Event) (r : Run World) :
  queries = processed ++ rest ->
  run_trace secrets args t0 flushed processed last r ->
  0 <= global_query_index (locals r) <= Z.of_nat (List.length queries) /\
  run_trace secrets args t0 flushed
    (firstn (Z.to_nat (global_query_index (locals r))) queries) last r.
Proof.
  intros -> Htrace. pose proof Htrace as (Hg & _). rewrite Hg, Nat2Z.id, firstn_prefix.
  split; [rewrite length_app; lia | exact Htrace].
Qed.

(** The batch loop, however it ends. *)
Lemma batch_loop_ended (args : Namespace) (queries : list string) (s : IO World) :
  ends (batch_loop secrets args queries) {| io := s; locals := initial_run_locals |}
    (loop_ended secrets args queries (trace s)).
Proof.
  set (r0 := {| io := s; locals := initial_run_locals |}).
  assert (Hstart : attempted secrets args (trace s) [] r0).
  { split; [apply accounted_initial|]. split; [intros _; split; reflexivity|].
    split; [reflexivity|]. exists []. split; [symmetry; apply app_nil_r|].
    split; [reflexivity|]. split; [|reflexivity].
    unfold expected_sleeps. cbn. destruct (PrimFloat.ltb 0 (delay args)); reflexivity. }
  unfold batch_loop. apply ends_bind. unfold truediv at 1.
  destruct (Z.eqb_spec (batch_size args) 0) as [Hz|Hz];
    unfold ends at 1, raise, ret; cbn [fst snd].
  { destruct Hstart as (Hacc & Hfull & Htrace). unfold loop_ended.
    split; [exact Hacc|]. split; [cbn; lia|]. split; [auto|].
    split; [discriminate|]. split; [intros Hrel _; exact (Hfull Hrel)|].
    split; [lia|]. split; [lia|].
    exists 0%nat. split; [lia|]. exact Htrace. }
  destruct (batch_generator queries (batch_size args)) as [batches|e] eqn:Hgen.
  2:{ exfalso. unfold batch_generator, range_step in Hgen.
      destruct (Z.eqb_spec (batch_size args) 0); [lia|].
      destruct (batch_size args <? 0); discriminate. }
  assert (Hbatches : (1 <= batch_size args /\
                      List.concat batches = queries /\
                      Z.of_nat (List.length batches) =
                        ceil_div (Z.of_nat (List.length queries)) (batch_size args) /\
                      Forall (fun b => 1 <= Z.of_nat (List.length b) <= batch_size args)
                        batches) \/
                     (batch_size args < 1 /\ batches = [])).
  { destruct (Z.le_gt_cases 1 (batch_size args)) as [Hb|Hb].
    - left. split; [exact Hb|].
      split; [exact (batch_generator_concat queries (batch_size args) batches Hb Hgen)|].
      destruct (batch_generator_lengths queries (batch_size args) batches Hb Hgen)
        as (Hn & Hlens & _). split; assumption.
    - right. split; [lia|]. unfold batch_generator, range_step in Hgen.
      destruct (Z.eqb_spec (batch_size args) 0); [lia|].
      destruct (Z.ltb_spec (batch_size args) 0); [|lia].
      now injection Hgen as <-. }
  pose proof (for_each_ends (batch_body secrets args)
                (fun done (_ : unit) r => attempted secrets args (trace s) done r)
                (batch_cut secrets args (trace s))) as Hloop.
  assert (Hbody : forall done x (acc : unit) (r : Run World),
            attempted secrets args (trace s) done r ->
            ends (batch_body secrets args x acc) r
              (fun res r' =>
                 match res with
                 | Ok _ => attempted secrets args (trace s) (done ++ [x]) r'
                 | Raise e => batch_cut secrets args (trace s) done x e r'
                 end)).
  { intros done x [] r Hatt. apply batch_body_step. exact Hatt. }
  specialize (Hloop Hbody (enumerate batches) [] tt r0 Hstart). clear Hbody.
  unfold ends in *.
  destruct (for_each (batch_body secrets args) (enumerate batches) tt r0) as [res r1].
  cbn [fst snd app] in *. unfold enumerate in *.
  destruct res as [[]|e].
  - (* the loop returned *)
    destruct Hloop as (Hacc & Hfull & Htrace).
    rewrite map_snd_enumerate_from in Htrace.
    change 0 with (Z.of_nat 0) in Htrace. rewrite map_fst_enumerate_from in Htrace.
    assert (Hq : queries = List.concat batches ++ (if 1 <=? batch_size args then []
                                                   else queries)).
    { destruct Hbatches as [(Hb & Hcat & _) | (Hb & ->)].
      - replace (1 <=? batch_size args) with true by (symmetry; apply Z.leb_le; lia).
        rewrite Hcat, app_nil_r. reflexivity.
      - replace (1 <=? batch_size args) with false by (symmetry; apply Z.leb_gt; lia).
        reflexivity. }
    destruct (run_trace_prefix args queries _ _ _ _ _ r1 Hq Htrace) as (Hbound & Htrace').
    unfold loop_ended. split; [exact Hacc|]. split; [exact Hbound|]. split; [auto|].
    split; [discriminate|]. split; [intros Hrel _; exact (Hfull Hrel)|].
    split; [discriminate|].
    split.
    { intros Hb _. destruct Hbatches as [(_ & Hcat & _) | (Hlt & _)]; [|lia].
      destruct Htrace as (Hg & _). rewrite Hg, Hcat. reflexivity. }
    exists (List.length batches). split.
    { intros Hb. destruct Hbatches as [(_ & _ & Hn & _) | (Hlt & _)]; [|lia].
      split; [lia | intros _; exact Hn]. }
    unfold range. rewrite Nat2Z.id. exact Htrace'.
  - (* the loop was cut short in batch [m] *)
    destruct Hloop as (m & x & Hnth & Hcut).
    destruct Hbatches as [(Hb & Hcat & Hn & Hlens) | (_ & ->)]; [|destruct m; discriminate].
    destruct (nth_error_enumerate_from batches 0 m x Hnth) as (Hfst & Hnthb).
    destruct x as [i b]. cbn [fst snd] in *.
    destruct (nth_error_firstn batches m b Hnthb) as (Hsucc & Hsplit).
    assert (Hm : (m < List.length batches)%nat).
    { apply nth_error_Some. rewrite Hnthb. discriminate. }
    assert (Hin : In b batches) by (eapply nth_error_In; exact Hnthb).
    rewrite firstn_enumerate_from in Hcut.
    unfold loop_ended. destruct e; cbn [batch_cut snd] in Hcut; try contradiction.
    + (* the division of the log line *)
      destruct Hcut as ((Hacc & Hfull & Htrace) & Hnot).
      rewrite !map_app, concat_app, map_snd_enumerate_from in Htrace.
      change 0 with (Z.of_nat 0) in Htrace. rewrite map_fst_enumerate_from in Htrace.
      cbn [map fst snd List.concat] in Htrace. rewrite app_nil_r in Htrace.
      rewrite length_firstn, Nat.min_l in Htrace by lia.
      assert (Hflushed : map Z.of_nat (seq 0 m) ++ [i] = range (Z.of_nat (S m))).
      { unfold range. rewrite Nat2Z.id, seq_S, map_app. cbn. rewrite Hfst.
        repeat f_equal; lia. }
      rewrite Hflushed in Htrace.
      assert (Hq : queries = (List.concat (firstn m batches) ++ b) ++
                             List.concat (skipn (S m) batches)).
      { rewrite <- Hcat at 1. rewrite Hsplit at 1.
        rewrite concat_app. cbn [List.concat]. rewrite app_assoc. reflexivity. }
      destruct (run_trace_prefix args queries _ _ _ _ _ r1 Hq Htrace) as (Hbound & Htrace').
      split; [exact Hacc|]. split; [exact Hbound|]. split; [auto|].
      split; [discriminate|]. split; [intros Hrel _; exact (Hfull Hrel)|].
      split.
      { intros _ Hfinds _. apply Hnot. split.
        - apply Forall_forall. intros q Hq'.
          apply (proj1 (Forall_forall _ _) Hfinds). rewrite <- Hcat.
          apply in_concat. exists b. split; assumption.
        - pose proof (proj1 (Forall_forall _ _) Hlens b Hin) as Hlen.
          destruct b; [cbn in Hlen; lia | discriminate]. }
      split; [discriminate|].
      exists (S m). split; [|exact Htrace'].
      intros _. split; [lia | discriminate].
    + (* a sleep failed *)
      destruct Hcut as (k & Hk & Hacc & Hdue & Hclock & Htrace).
      rewrite map_snd_enumerate_from in Htrace.
      change 0 with (Z.of_nat 0) in Htrace. rewrite map_fst_enumerate_from in Htrace.
      rewrite length_firstn, Nat.min_l in Htrace by lia.
      assert (Hq : queries = (List.concat (firstn m batches) ++ firstn k b) ++
                             (skipn k b ++ List.concat (skipn (S m) batches))).
      { rewrite <- Hcat at 1. rewrite Hsplit at 1.
        rewrite concat_app. cbn [List.concat].
        rewrite <- (firstn_skipn k b) at 1. rewrite <- !app_assoc. reflexivity. }
      destruct (run_trace_prefix args queries _ _ _ _ _ r1 Hq Htrace) as (Hbound & Htrace').
      split; [exact Hacc|]. split; [exact Hbound|]. split; [auto|].
      split; [intros _; split; assumption|]. split; [congruence|].
      split; [discriminate|]. split; [discriminate|].
      exists m. split; [|unfold range; rewrite Nat2Z.id; exact Htrace'].
      intros _. split; [lia | discriminate].
Qed.

End batch_loop.

(** The top-level handler catches whatever cut the loop short, and the
    summary is printed. *)
Lemma run_batches_ended {World : Type} {E : Externals World} (secrets : config.Secrets)
  (args : Namespace) (queries : list string) (s : IO World) :
  exists res r',
    batch_loop secrets args queries {| io := s; locals := initial_run_locals |} = (res, r') /\
    loop_ended secrets args queries (trace s) res r' /\
    run_batches secrets args queries s =
      (Ok (summarise args queries (locals r')
             match res with Ok _ => None | Raise e => Some e end), io r').
Proof.
  pose proof (batch_loop_ended secrets args queries s) as Hloop.
  unfold run_batches, try_except, bind. unfold ends in Hloop.
  destruct (batch_loop secrets args queries {| io := s; locals := initial_run_locals |})
    as [res r1]; cbn [fst snd] in Hloop. exists res, r1.
  split; [reflexivity|]. split; [exact Hloop|]. destruct res as [[]|e]; reflexivity.
Qed.

(** X8.  [run_process]'s batch loop always reaches the summary, and the
    summary's totals are consistent however the loop ended: no more queries
    processed than there are, no more lines written to the raw or to the
    extracted batch files than raw results were generated, and
    [extractions_success <= urls_processed = raw_saved]. *)
Theorem summary_totals_are_consistent :
  forall (World : Type) (E : Externals World) (secrets : config.Secrets)
         (args : Namespace) (queries : list string) (s : IO World),
  exists summary s',
    run_batches secrets args queries s = (Ok summary, s') /\
    total_queries summary = Z.of_nat (List.length queries) /\
    0 <= processed_queries summary <= total_queries summary /\
    0 <= written_raw summary <= raw_saved (summary_counters summary) /\
    0 <= written_extracted summary <= raw_saved (summary_counters summary) /\
    0 <= extractions_success (summary_counters summary)
      <= urls_processed (summary_counters summary) /\
    urls_processed (summary_counters summary) = raw_saved (summary_counters summary).
Proof.
  intros World E secrets args queries s.
  destruct (run_batches_ended secrets args queries s)
    as (res & r1 & _ & (Hacc & Hg & _) & Hrun).
  eexists _, _. split; [exact Hrun|]. unfold accounted in Hacc.
  cbn [processed_queries summarise total_queries written_raw written_extracted
       summary_counters]. repeat split; lia.
Qed.

(** X9.  With a batch size of at least 1, a run opens, for the batches
    [0, 1, ..., m - 1] in this order, the raw batch file and then the
    extracted batch file, and opens nothing else; [m] is at most the number
    of batches, and is the number of batches when the loop was not cut
    short. *)
Theorem batch_files_are_opened_in_order :
  forall (World : Type) (E : Externals World) (secrets : config.Secrets)
         (args : Namespace) (queries : list string) (s : IO World),
    1 <= batch_size args ->
    exists summary s' new m,
      run_batches secrets args queries s = (Ok summary, s') /\
      trace s' = trace s ++ new /\
      opened_files new = flat_map (batch_files args) (range m) /\
      0 <= m <= ceil_div (Z.of_nat (List.length queries)) (batch_size args) /\
      (fatal_error summary = None ->
       m = ceil_div (Z.of_nat (List.length queries)) (batch_size args)).
Proof.
  intros World E secrets args queries s Hb.
  destruct (run_batches_ended secrets args queries s)
    as (res & r1 & _ & (_ & _ & _ & _ & _ & _ & _ & m & Hm & _ & new & Htr & Hop & _) & Hrun).
  destruct (Hm Hb) as (Hle & Hall).
  eexists _, _, new, (Z.of_nat m). split; [exact Hrun|].
  split; [exact Htr|]. split; [exact Hop|]. split; [lia|].
  cbn [fatal_error summarise]. destruct res as [[]|e]; [|discriminate].
  intros _. apply Hall. reflexivity.
Qed.

(** X9 on a run of three queries in batches of two. *)
Lemma batch_files_example :
  exists summary s' new,
    @run_batches unit Scenario.one_result_always Scenario.secrets
      (parse_arguments (Scenario.command_line 1 10 2)) ["q1"; "q2"; "q3"]
      Scenario.start_of_run = (Ok summary, s') /\
    trace s' = new /\
    opened_files new =
      flat_map (batch_files (parse_arguments (Scenario.command_line 1 10 2))) [0; 1].
Proof.
  destruct (batch_files_are_opened_in_order unit Scenario.one_result_always
              Scenario.secrets (parse_arguments (Scenario.command_line 1 10 2))
              ["q1"; "q2"; "q3"] Scenario.start_of_run ltac:(cbn; lia))
    as (summary & s' & new & m & Hrun & Htr & Hop & _ & Hall).
  exists summary, s', new. split; [exact Hrun|]. split; [exact Htr|].
  assert (Hfatal : fatal_error summary = None).
  { vm_compute in Hrun. injection Hrun as <- _. reflexivity. }
  rewrite Hop, (Hall Hfatal). reflexivity.
Defined.

(** X10.  [run_process] never raises.  Without both secrets it returns at
    once, before anything is read.  Whenever it returns without a summary,
    all it did was reading the queries and creating directories: nothing was
    requested, fetched or written.  A summary means that the secrets were
    there, that at least one query was read, and that both batch directories
    were created, the raw one first, before anything else. *)
Theorem run_process_outcomes :
  forall (World : Type) (E : Externals World) (secrets : config.Secrets)
         (args : Namespace) (s : IO World),
  exists res s' new,
    run_process secrets args s = (Ok res, s') /\
    trace s' = trace s ++ new /\
    (has_secrets secrets = false -> res = None /\ s' = s) /\
    (res = None -> Forall is_setup_event new) /\
    (forall summary, res = Some summary ->
       has_secrets secrets = true /\
       1 <= total_queries summary /\
       exists rest,
         new = EvReadQueries (query_column args)
               :: EvMakedirs (batch_dir (search_output_base args))
               :: EvMakedirs (batch_dir (extracted_output_base args)) :: rest).
Proof.
  intros World E secrets args s. unfold run_process, config.validate_config, has_secrets.
  destruct (truthy_opt (config.API_KEY secrets)); cbn [negb andb].
  2:{ exists None, s, []. split; [reflexivity|]. split; [symmetry; apply app_nil_r|].
      split; [auto|]. split; [constructor | discriminate]. }
  destruct (truthy_opt (config.CSE_ID secrets)); cbn [negb andb].
  2:{ exists None, s, []. split; [reflexivity|]. split; [symmetry; apply app_nil_r|].
      split; [auto|]. split; [constructor | discriminate]. }
  unfold bind at 1, call at 1.
  destruct (read_queries_from_vifactcheck (query_column args) (world s)) as [queries w1].
  assert (Hstop : forall (t : list Event) (s1 : IO World),
            trace s1 = trace s ++ t -> Forall is_setup_event t ->
            exists (res : option Summary) (s' : IO World) (new : list Event),
              (@Ok (option Summary) None, s1) = (Ok res, s') /\
              trace s' = trace s ++ new /\
              (true = false -> res = None /\ s' = s) /\
              (res = None -> Forall is_setup_event new) /\
              (forall summary, res = Some summary ->
                 true = true /\
                 1 <= total_queries summary /\
                 exists rest,
                   new = EvReadQueries (query_column args)
                         :: EvMakedirs (batch_dir (search_output_base args))
                         :: EvMakedirs (batch_dir (extracted_output_base args)) :: rest)).
  { intros t s1 Htr Ht. exists None, s1, t. split; [reflexivity|]. split; [exact Htr|].
    split; [discriminate|]. split; [auto | discriminate]. }
  destruct queries as [[|q rest]|]; unfold ret.
  - apply (Hstop [EvReadQueries (query_column args)]); [reflexivity|].
    repeat constructor.
  - unfold bind at 1, call at 1. cbn [world trace].
    destruct (os_makedirs (batch_dir (search_output_base args)) w1) as [made1 w2].
    destruct made1; cbn [negb].
    2:{ apply (Hstop [EvReadQueries (query_column args);
                      EvMakedirs (batch_dir (search_output_base args))]).
        - cbn [trace]. rewrite <- app_assoc. reflexivity.
        - repeat constructor. }
    unfold bind at 1, call at 1. cbn [world trace].
    destruct (os_makedirs (batch_dir (extracted_output_base args)) w2) as [made2 w3].
    destruct made2; cbn [negb].
    2:{ apply (Hstop [EvReadQueries (query_column args);
                      EvMakedirs (batch_dir (search_output_base args));
                      EvMakedirs (batch_dir (extracted_output_base args))]).
        - cbn [trace]. rewrite <- !app_assoc. reflexivity.
        - repeat constructor. }
    unfold bind at 1.
    match goal with
    | |- context [run_batches secrets args ?qs ?i] =>
        destruct (run_batches_ended secrets args qs i)
          as (res & r1 & _ & (_ & _ & _ & _ & _ & _ & _ & m & _ & _ & new & Htr & _) & Hrun)
    end.
    rewrite Hrun. cbn [trace] in Htr. unfold ret.
    eexists _, _, _. split; [reflexivity|].
    split; [rewrite Htr, <- !app_assoc; reflexivity|].
    split; [discriminate|]. split; [discriminate|].
    intros summary [= <-]. split; [reflexivity|].
    cbn [total_queries summarise List.length]. split; [lia|].
    eexists. reflexivity.
  - apply (Hstop [EvReadQueries (query_column args)]); [reflexivity|].
    repeat constructor.
Qed.

(** X11.  When opening, writing and closing files never fail, a run that
    ends without a fatal error, or with the [ZeroDivisionError] of a division
    in the batch loop, has lost no record: the lines written to the raw batch
    files and those written to the extracted batch files are both as many as
    the raw results generated. *)
Theorem reliable_files_lose_nothing :
  forall (World : Type) (E : Externals World) (secrets : config.Secrets)
         (args : Namespace) (queries : list string) (s : IO World),
    reliable_files ->
    exists summary s',
      run_batches secrets args queries s = (Ok summary, s') /\
      (fatal_error summary = None \/ fatal_error summary = Some ZeroDivisionError ->
       written_raw summary = raw_saved (summary_counters summary) /\
       written_extracted summary = raw_saved (summary_counters summary)).
Proof.
  intros World E secrets args queries s Hrel.
  destruct (run_batches_ended secrets args queries s)
    as (res & r1 & _ & (_ & _ & _ & _ & Hfull & _) & Hrun).
  eexists _, _. split; [exact Hrun|].
  cbn [fatal_error summarise written_raw written_extracted summary_counters].
  intros Hend. assert (Hres : res <> Raise OverflowError).
  { intros ->. destruct Hend; discriminate. }
  destruct (Hfull Hrel Hres) as (Hraw & Hext). split; lia.
Qed.

(** X11 on a run of three queries, one result each, in batches of two, with
    the default delay of one second. *)
Lemma reliable_files_example :
  exists summary s',
    @run_batches unit Scenario.one_result_always Scenario.secrets
      (parse_arguments (Scenario.command_line 1 10 2)) ["q1"; "q2"; "q3"]
      Scenario.start_of_run = (Ok summary, s') /\
    written_raw summary = 3 /\
    written_extracted summary = 3 /\
    raw_saved (summary_counters summary) = 3.
Proof.
  destruct (reliable_files_lose_nothing unit Scenario.one_result_always Scenario.secrets
              (parse_arguments (Scenario.command_line 1 10 2)) ["q1"; "q2"; "q3"]
              Scenario.start_of_run)
    as (summary & s' & Hrun & Hsame).
  - intros path w. repeat split.
  - exists summary, s'. split; [exact Hrun|].
    assert (Hfatal : fatal_error summary = None).
    { vm_compute in Hrun. injection Hrun as <- _. reflexivity. }
    assert (Hsaved : raw_saved (summary_counters summary) = 3).
    { vm_compute in Hrun. injection Hrun as <- _. reflexivity. }
    destruct (Hsame (or_introl Hfatal)) as (Hraw & Hext).
    rewrite Hraw, Hext, Hsaved. repeat split.
Defined.

(** With [--delay inf] the sleep before the second query raises: the record
    of the first query is counted but never written. *)
Example infinite_delay_cuts_the_run :
  exists s',
    @run_batches unit Scenario.one_result_always Scenario.secrets
      (parse_arguments (Scenario.with_delay infinity (Scenario.command_line 1 10 10)))
      ["q1"; "q2"] Scenario.start_of_run
    = (Ok {| processed_queries := 1;
             total_queries := 2;
             summary_counters :=
               {| raw_saved := 1; urls_processed := 1; extractions_success := 1 |};
             written_raw := 0;
             written_extracted := 0;
             raw_batches_in := "results/extracted_text_batches";
             extracted_batches_in := "results/raw_search_batches";
             fatal_error := Some OverflowError |}, s') /\
    opened_files (trace s') = [].
Proof. eexists. split; vm_compute; reflexivity. Qed.



(** X13.  With a batch size of 0 the run ends at once with the
    [ZeroDivisionError] of [num_queries / batch_size]: no query is processed,
    nothing is requested, opened or written, and the [ValueError] that
    [range] would raise on a zero step is never reached. *)
Theorem zero_batch_size_ends_the_run_at_once :
  forall (World : Type) (E : Externals World) (secrets : config.Secrets)
         (args : Namespace) (queries : list string) (s : IO World),
    batch_size args = 0 ->
    exists summary,
      run_batches secrets args queries s = (Ok summary, s) /\
      fatal_error summary = Some ZeroDivisionError /\
      processed_queries summary = 0 /\
      summary_counters summary = zero_counters /\
      written_raw summary = 0 /\
      written_extracted summary = 0.
Proof.
  intros World E secrets args queries s Hz.
  destruct (run_batches_ended secrets args queries s) as (res & r1 & Hloop & _ & Hrun).
  unfold batch_loop, truediv, bind, raise in Hloop. rewrite Hz in Hloop.
  cbn in Hloop. injection Hloop as <- <-. cbn [io locals] in Hrun.
  eexists. split; [exact Hrun|]. repeat split.
Qed.

(** X13 on the arguments of a caller that passes a batch size of 0. *)
Lemma zero_batch_size_example :
  exists summary,
    @run_batches unit Scenario.one_result_always Scenario.secrets
      (Scenario.with_batch_size 0 (parse_arguments (Scenario.command_line 1 10 2)))
      ["q1"; "q2"; "q3"] Scenario.start_of_run = (Ok summary, Scenario.start_of_run) /\
    fatal_error summary = Some ZeroDivisionError /\
    processed_queries summary = 0 /\
    summary_counters summary = zero_counters /\
    written_raw summary = 0 /\
    written_extracted summary = 0.
Proof.
  apply (zero_batch_size_ends_the_run_at_once unit Scenario.one_result_always).
  reflexivity.
Defined.

(** X16.  Where the sleeps fall.  A run never processes more queries
    than there are.  When it ends without a fatal error, or with the
    [ZeroDivisionError] of a division in the batch loop, [time.sleep] was
    called once before every processed query but the first of the run, when
    [delay > 0], and not at all otherwise; batch boundaries play no part.
    When a [time.sleep] that raised [OverflowError] ended the run, that call
    comes on top, before a query that was not processed.  When every query
    makes a first request that shows in the trace (secrets set, at least one
    page, a page size of at least 1), the sleeps and the first requests of
    the queries come in this order: the first request of the first query,
    then for every later processed query a sleep and after it the query's
    first request, and last the sleep that failed, if one did.  Without a
    fatal error, and with a batch size of at least 1, all queries are
    processed. *)
Theorem sleeps_come_before_queries :
  forall (World : Type) (E : Externals World) (secrets : config.Secrets)
         (args : Namespace) (queries : list string) (s : IO World),
  exists summary s' new,
    run_batches secrets args queries s = (Ok summary, s') /\
    trace s' = trace s ++ new /\
    0 <= processed_queries summary <= total_queries summary /\
    (1 <= batch_size args -> fatal_error summary = None ->
     processed_queries summary = total_queries summary) /\
    (fatal_error summary = None \/ fatal_error summary = Some ZeroDivisionError ->
     Z.of_nat (sleeps new) = expected_sleeps args (processed_queries summary) /\
     (first_requests_show secrets args ->
      milestones new =
        expected_milestones args 0
          (firstn (Z.to_nat (processed_queries summary)) queries))) /\
    (fatal_error summary = Some OverflowError ->
     Z.of_nat (sleeps new) = expected_sleeps args (processed_queries summary) + 1 /\
     (first_requests_show secrets args ->
      milestones new =
        expected_milestones args 0
          (firstn (Z.to_nat (processed_queries summary)) queries) ++
        [EvSleep (delay args)])).
Proof.
  intros World E secrets args queries s.
  destruct (run_batches_ended secrets args queries s)
    as (res & r1 & _ & (_ & Hbound & Hres & _ & _ & _ & Hall & m & _ & _ & new & Htr & _ &
                        Hsl & Hms) & Hrun).
  eexists _, _, new. split; [exact Hrun|]. split; [exact Htr|].
  cbn [fatal_error processed_queries total_queries summarise].
  split; [exact Hbound|]. split.
  { intros Hb Hnone. apply (Hall Hb). destruct res as [[]|e]; [reflexivity | discriminate]. }
  destruct Hres as [-> | [-> | ->]]; cbn [List.length Z.of_nat] in Hsl;
    rewrite ?app_nil_r, ?Z.add_0_r in *.
  - split; [intros _; split; assumption | discriminate].
  - split; [intros _; split; assumption | discriminate].
  - split; [intros [H | H]; discriminate | intros _; split; assumption].
Qed.

(** X16 on a run of three queries in batches of two, each finding one
    result, with the default delay of one second: two sleeps, one before the
    second and one before the third query. *)
Lemma complete_run_example :
  exists summary s',
    @run_batches unit Scenario.one_result_always Scenario.secrets
      (parse_arguments (Scenario.command_line 1 10 2)) ["q1"; "q2"; "q3"]
      Scenario.start_of_run = (Ok summary, s') /\
    processed_queries summary = 3 /\
    sleeps (trace s') = 2%nat /\
    milestones (trace s') =
      [EvCseRequest "q1" 10 1 None; EvSleep 1; EvCseRequest "q2" 10 1 None;
       EvSleep 1; EvCseRequest "q3" 10 1 None].
Proof.
  destruct (sleeps_come_before_queries unit Scenario.one_result_always
              Scenario.secrets (parse_arguments (Scenario.command_line 1 10 2))
              ["q1"; "q2"; "q3"] Scenario.start_of_run)
    as (summary & s' & new & Hrun & Htr & _ & Hall & Hwhere & _).
  exists summary, s'. split; [exact Hrun|].
  assert (Hfatal : fatal_error summary = None).
  { vm_compute in Hrun. injection Hrun as <- _. reflexivity. }
  assert (Htotal : total_queries summary = 3).
  { vm_compute in Hrun. injection Hrun as <- _. reflexivity. }
  specialize (Hall ltac:(cbn; lia) Hfatal). rewrite Htotal in Hall.
  destruct (Hwhere (or_introl Hfatal)) as (Hsl & Hms).
  cbn [trace Scenario.start_of_run app] in Htr.
  rewrite Htr. split; [exact Hall|]. split.
  - rewrite Hall in Hsl. cbn in Hsl. lia.
  - rewrite Hms, Hall; [reflexivity|]. repeat split; cbn; lia.
Defined.

(** X16 where a sleep fails: with [--delay inf] the one sleep of the run is
    the call that raised, after the first request of the first query. *)
Example failed_sleep_is_the_last_event :
  exists summary s',
    @run_batches unit Scenario.one_result_always Scenario.secrets
      (parse_arguments (Scenario.with_delay infinity (Scenario.command_line 1 10 10)))
      ["q1"; "q2"] Scenario.start_of_run = (Ok summary, s') /\
    fatal_error summary = Some OverflowError /\
    milestones (trace s') = [EvCseRequest "q1" 10 1 None; EvSleep infinity].
Proof. eexists _, _. split; [vm_compute; reflexivity|]. split; reflexivity. Qed.

(** ** Paths of the batch files *)

Section path_facts.
Local Open Scope string_scope.

Lemma append_inv_head (a b c : string) : a ++ b = a ++ c -> b = c.
Proof. induction a as [|x a IH]; cbn; [auto|]. intros [= H]. exact (IH H). Qed.

Lemma append_length (a b : string) :
  String.length (a ++ b) = (String.length a + String.length b)%nat.
Proof. induction a as [|x a IH]; cbn; [reflexivity | now rewrite IH]. Qed.

Lemma append_inv_tail (a b c : string) : a ++ c = b ++ c -> a = b.
Proof.
  revert b. induction a as [|x a IH]; intros [|y b] H; cbn in H.
  - reflexivity.
  - apply (f_equal String.length) in H. cbn in H. rewrite append_length in H. lia.
  - apply (f_equal String.length) in H. cbn in H. rewrite append_length in H. lia.
  - injection H as -> H. f_equal. exact (IH b H).
Qed.

Lemma to_int_proper (n : Z) : Z.to_int n <> Decimal.Pos Decimal.Nil /\
                              Z.to_int n <> Decimal.Neg Decimal.Nil.
Proof.
  destruct n as [|p|p]; cbn; split; try discriminate;
    intros [= H]; exact (Unsigned.to_uint_nonnil p H).
Qed.

(** [int(str(n)) == n], hence [str] is injective. *)
Lemma str_inj (a b : Z) : str a = str b -> a = b.
Proof.
  unfold str. intros H. apply (f_equal NilZero.int_of_string) in H.
  destruct (to_int_proper a), (to_int_proper b).
  rewrite !NilZero.isi in H by assumption.
  injection H as H. exact (DecimalZ.to_int_inj a b H).
Qed.

Lemma startswith_sep (c : ascii) (r : string) :
  startswith (String c r) "/" = is_sep c.
Proof.
  unfold startswith, is_sep. cbn [String.prefix].
  destruct (Ascii.ascii_dec "/" c) as [<- | Hne].
  - destruct r; reflexivity.
  - symmetry. apply Ascii.eqb_neq. congruence.
Qed.

Lemma path_join_inj (a : string) (c : ascii) (r1 r2 : string) :
  path_join a (String c r1) = path_join a (String c r2) -> r1 = r2.
Proof.
  unfold path_join. rewrite !startswith_sep.
  destruct (is_sep c); [intros [= H]; exact H|].
  destruct (negb (truthy a) || endswith_sep a); intros H.
  - apply append_inv_head in H. now injection H.
  - apply append_inv_head in H. cbn in H. now injection H.
Qed.

(** X14.  The batch files of one base path are distinct: different batch
    indices give different file names, so no batch overwrites the file of
    another. *)
Theorem batch_filenames_are_distinct :
  forall (base_path : string) (i j : Z),
    i <> j -> batch_filename base_path i <> batch_filename base_path j.
Proof.
  intros base_path i j Hij H. apply Hij. revert H. unfold batch_filename.
  destruct (basename base_path) as [|c b]; cbn [String.append]; intros H;
    apply path_join_inj in H.
  - apply append_inv_tail, str_inj in H. lia.
  - apply append_inv_head in H. cbn [String.append] in H. injection H as H.
    apply append_inv_tail, str_inj in H. lia.
Qed.

(** X14 on the first two batches of the help text's base path. *)
Lemma batch_filenames_example :
  batch_filename "out/raw" 0 <> batch_filename "out/raw" 1.
Proof. apply (batch_filenames_are_distinct "out/raw" 0 1). lia. Defined.

Lemma no_sep_append (a b : string) : no_sep (a ++ b) = no_sep a && no_sep b.
Proof.
  induction a as [|c a IH]; cbn [String.append no_sep]; [reflexivity|].
  rewrite IH. apply andb_assoc.
Qed.

Lemma split_no_sep (f : string) : no_sep f = true -> split_at_last_sep f = ("", f).
Proof.
  induction f as [|c f IH]; cbn [no_sep split_at_last_sep]; [reflexivity|].
  intros H. apply andb_prop in H. destruct H as (Hc & Hf). rewrite (IH Hf).
  apply negb_true_iff in Hc. rewrite Hc. reflexivity.
Qed.

(** The last component of a path holds no separator. *)
Lemma basename_no_sep (p : string) : no_sep (basename p) = true.
Proof.
  unfold basename. induction p as [|c p IH]; cbn [split_at_last_sep]; [reflexivity|].
  destruct (split_at_last_sep p) as [head tail]. cbn [snd] in IH.
  destruct head; [|exact IH].
  destruct (is_sep c) eqn:Hc; cbn [snd no_sep]; [exact IH|].
  rewrite Hc, IH. reflexivity.
Qed.

Lemma split_after_sep (h f : string) :
  no_sep f = true -> split_at_last_sep (h ++ "/" ++ f) = (h ++ "/", f).
Proof.
  intros Hf. induction h as [|c h IH]; cbn [String.append split_at_last_sep].
  - rewrite (split_no_sep f Hf). reflexivity.
  - cbn [String.append] in IH. rewrite IH. destruct h; reflexivity.
Qed.

Lemma no_sep_uint (d : Decimal.uint) : no_sep (NilEmpty.string_of_uint d) = true.
Proof. induction d; cbn; auto. Qed.

Lemma no_sep_str (n : Z) : no_sep (str n) = true.
Proof.
  unfold str. destruct (Z.to_int n) as [d|d]; cbn [NilZero.string_of_int].
  - destruct d; try reflexivity; apply (no_sep_uint _).
  - cbn [no_sep]. destruct d; try reflexivity; apply (no_sep_uint _).
Qed.

Lemma endswith_sep_append (a : string) (c : ascii) (b : string) :
  endswith_sep (a ++ String c b) = endswith_sep (String c b).
Proof.
  induction a as [|x a IH]; [reflexivity|].
  cbn [String.append]. rewrite <- IH. cbn [endswith_sep].
  destruct (a ++ String c b) eqn:Hab; [destruct a; discriminate | reflexivity].
Qed.

Lemma all_seps_append (a b : string) : all_seps (a ++ b) = all_seps a && all_seps b.
Proof.
  induction a as [|c a IH]; cbn [String.append all_seps]; [reflexivity|].
  rewrite IH. apply andb_assoc.
Qed.

Lemma endswith_sep_all_seps (d : string) :
  truthy d = true -> endswith_sep d = false -> all_seps d = false.
Proof.
  induction d as [|c d IH]; [discriminate|]. intros _. cbn [endswith_sep all_seps].
  destruct d as [|c' d'].
  - intros ->. reflexivity.
  - intros H. rewrite (IH eq_refl H). apply andb_false_r.
Qed.

(** [(d + '/').rstrip('/') == d] for a [d] that does not end in ['/']. *)
Lemma rstrip_sep_append (d : string) :
  endswith_sep d = false -> rstrip_sep (d ++ "/") = d.
Proof.
  induction d as [|c d IH]; [reflexivity|]. intros H.
  cbn [String.append rstrip_sep].
  change (String c (d ++ "/")) with (String c d ++ "/").
  rewrite all_seps_append, (endswith_sep_all_seps (String c d) eq_refl H). cbn [andb].
  f_equal. destruct d as [|c' d']; [reflexivity|]. apply IH. exact H.
Qed.

Lemma path_join_plain (a b : string) :
  truthy a = true -> endswith_sep a = false -> no_sep b = true -> truthy b = true ->
  path_join a b = a ++ "/" ++ b.
Proof.
  intros Ha He Hb Hnb. unfold path_join. destruct b as [|c b]; [discriminate|].
  rewrite startswith_sep. cbn [no_sep] in Hb. apply andb_prop in Hb.
  destruct Hb as (Hc & _). apply negb_true_iff in Hc. rewrite Hc, Ha, He. reflexivity.
Qed.

(** The batch directory is a non-empty path that does not end in ['/']. *)
Lemma batch_dir_shape (base_path : string) :
  truthy (batch_dir base_path) = true /\ endswith_sep (batch_dir base_path) = false.
Proof.
  unfold batch_dir.
  assert (Hb : exists c r, basename base_path ++ "_batches" = String c r /\
                           is_sep c = false /\
                           endswith_sep (String c r) = false).
  { pose proof (basename_no_sep base_path) as Hns.
    destruct (basename base_path) as [|c b].
    - exists "_"%char, "batches". split; [reflexivity|]. split; reflexivity.
    - cbn [no_sep] in Hns. apply andb_prop in Hns. destruct Hns as (Hc & _).
      apply negb_true_iff in Hc. exists c, (b ++ "_batches"). split; [reflexivity|].
      split; [exact Hc|]. change (String c (b ++ "_batches")) with (String c b ++ "_batches").
      rewrite endswith_sep_append. reflexivity. }
  destruct Hb as (c & r & -> & Hc & He). unfold path_join. rewrite startswith_sep, Hc.
  cbv iota.
  destruct (negb (truthy (output_dir base_path)) || endswith_sep (output_dir base_path)).
  - rewrite endswith_sep_append. split; [|exact He].
    destruct (output_dir base_path); reflexivity.
  - change ("/" ++ String c r) with (String "/" (String c r)).
    rewrite endswith_sep_append.
    split; [destruct (output_dir base_path); reflexivity|].
    exact He.
Qed.

Lemma batch_basename_shape (base_path : string) (batch_index : Z) :
  no_sep (batch_basename base_path batch_index) = true /\
  truthy (batch_basename base_path batch_index) = true.
Proof.
  unfold batch_basename. split.
  - rewrite !no_sep_append, basename_no_sep, no_sep_str. reflexivity.
  - destruct (basename base_path); reflexivity.
Qed.

(** X15.  Every batch file lies directly in the batch directory that
    [run_process] creates before the loop: the directory part of a batch file
    name is the batch directory, and its last component is
    [<base name>_<batch index + 1>.jsonl], for every base path and index. *)
Theorem batch_files_lie_in_batch_dir :
  forall (base_path : string) (batch_index : Z),
    batch_filename base_path batch_index =
      batch_dir base_path ++ "/" ++ batch_basename base_path batch_index /\
    dirname (batch_filename base_path batch_index) = batch_dir base_path /\
    basename (batch_filename base_path batch_index) =
      batch_basename base_path batch_index.
Proof.
  intros base_path batch_index.
  destruct (batch_dir_shape base_path) as (Hd & He).
  destruct (batch_basename_shape base_path batch_index) as (Hns & Hnb).
  assert (Hname : batch_filename base_path batch_index =
                  batch_dir base_path ++ "/" ++ batch_basename base_path batch_index).
  { unfold batch_filename. fold (batch_basename base_path batch_index).
    apply path_join_plain; assumption. }
  split; [exact Hname|]. rewrite Hname. unfold dirname, basename.
  rewrite (split_after_sep _ _ Hns). cbn [fst snd]. split; [|reflexivity].
  assert (Htruthy : truthy (batch_dir base_path ++ "/") = true)
    by (destruct (batch_dir base_path); reflexivity).
  rewrite Htruthy, all_seps_append, (endswith_sep_all_seps _ Hd He). cbn [andb negb].
  apply rstrip_sep_append. exact He.
Qed.

End path_facts.
